(** * SAMWISE dataset loaders: the MeViS loader and the dataset dispatcher

    A shallow embedding of [datasets/mevis.py] and [datasets/__init__.py].

    Conventions of the embedding.
    - Python exceptions are values of [exn]; a computation that may raise
      returns a [result].
    - Code that touches the global random generator (the retry draw, the
      frame sampler, the augmentation pipeline) runs in the monad [M] that
      threads the generator state [World] and propagates exceptions.
    - A numpy / torch array of rank two is a list of rows; its entries are
      integers (the accumulated masks are sums of 0/1 bytes and the box
      coordinates are pixel indices, all exactly representable in float32
      for images below 2^24 pixels per side).
    - A Python list is a [list], indexed with Python's rule for negative
      indices; a [dict] keyed by strings is a [gmap string]; the items of a
      JSON object, whose order the loops follow, are an association list.
    - A string is the list of its bytes. [os.path.join] is embedded from
      the [posixpath] module; the paths of [pathlib] that [build] handles
      are a collaborator, like the files it opens. Captions are cleaned as
      Python cleans ASCII text, and what is stated of a caption is stated
      for ASCII expressions. *)

From Stdlib Require Import ZArith Lia Bool Ascii String.
From stdpp Require Import base option list gmap strings sorting.

Local Open Scope Z_scope.

(** ** Exceptions and results *)

Inductive exn : Type :=
| IndexError
| KeyError
| ValueError (msg : string)
| UnboundLocalError
| RuntimeError
| OSError.

Inductive result (A : Type) : Type :=
| Ok (a : A)
| Raise (e : exn).
Arguments Ok {A} a.
Arguments Raise {A} e.

Definition rbind {A B} (r : result A) (k : A -> result B) : result B :=
  match r with
  | Ok a => k a
  | Raise e => Raise e
  end.

#[export] Instance result_ret : MRet result := fun _ a => Ok a.
#[export] Instance result_bind : MBind result := fun _ _ k r => rbind r k.

(** [for x in xs: acc = f(acc, x)] where the body may raise. *)
Fixpoint rfold {A B} (f : B -> A -> result B) (xs : list A) (acc : B)
  : result B :=
  match xs with
  | [] => Ok acc
  | x :: xs' => acc' ← f acc x; rfold f xs' acc'
  end.

(** [for x in xs: out.append(f(x))] where the body may raise. *)
Fixpoint rmap {A B} (f : A -> result B) (xs : list A) : result (list B) :=
  match xs with
  | [] => Ok []
  | x :: xs' => y ← f x; ys ← rmap f xs'; Ok (y :: ys)
  end.

(** ** Python sequences *)

Definition len {A} (l : list A) : Z := Z.of_nat (length l).

(** [l[i]]: indices in [0, len) count from the front, indices in
    [-len, 0) from the back, anything else raises [IndexError]. *)
Definition py_index {A} (l : list A) (i : Z) : result A :=
  let j := if i <? 0 then i + len l else i in
  if (0 <=? j) && (j <? len l) then
    match l !! Z.to_nat j with
    | Some a => Ok a
    | None => Raise IndexError
    end
  else Raise IndexError.

(** [d[k]] on a dict keyed by strings. *)
Definition py_getitem {A} (d : gmap string A) (k : string) : result A :=
  match d !! k with
  | Some a => Ok a
  | None => Raise KeyError
  end.

(** [range(start, stop, step)], materialised; a zero step raises. *)
Definition range_count (start stop step : Z) : Z :=
  if 0 <? step then Z.max 0 ((stop - start + step - 1) / step)
  else Z.max 0 ((start - stop - step - 1) / (- step)).

Definition py_range3 (start stop step : Z) : result (list Z) :=
  if step =? 0 then Raise (ValueError "range() arg 3 must not be zero")
  else Ok (map (fun k => start + Z.of_nat k * step)
               (seq 0 (Z.to_nat (range_count start stop step)))).

(** [range(n)]. *)
Definition py_range (n : Z) : list Z :=
  map Z.of_nat (seq 0 (Z.to_nat n)).

(** [path.endswith('/')]. *)
Definition endswith_sep (path : string) : bool :=
  match String.get (String.length path - 1) path with
  | Some c => Ascii.eqb c "/"
  | None => false
  end.

(** One round of the loop of [os.path.join] (the [posixpath] module): a
    component that starts with the separator starts the path over, and a
    separator is put in front of any other component unless the path so far
    is empty or ends with one. *)
Definition os_path_join (path b : string) : string :=
  if String.prefix "/" b then b
  else if String.eqb path "" || endswith_sep path then (path +:+ b)%string
  else (path +:+ "/" +:+ b)%string.

(** ** Dense arrays *)

(** An array is the list of its rows; an array without rows records no
    width, which does not arise for the masks of decoded images. *)
Abbreviation array := (list (list Z)).

Definition shape (a : array) : nat * nat :=
  (length a, length (hd [] a)).

(** [np.zeros((h, w))]. *)
Definition zeros (h w : nat) : array := replicate h (replicate w 0).

(** Broadcasting of one axis: a length-one axis is stretched. *)
Definition broadcast {A} (n : nat) (l : list A) : option (list A) :=
  if decide (length l = n) then Some l
  else match l with
       | [x] => Some (replicate n x)
       | _ => None
       end.

(** [acc += d] on arrays: [d] is broadcast to the shape of [acc]; shapes
    that cannot be broadcast raise [ValueError]. *)
Definition iadd (acc d : array) : result array :=
  let '(h, w) := shape acc in
  match broadcast h d with
  | None => Raise (ValueError "operands could not be broadcast together")
  | Some rows =>
      match mapM (broadcast w) rows with
      | None => Raise (ValueError "operands could not be broadcast together")
      | Some rows' => Ok (zip_with (zip_with Z.add) acc rows')
      end
  end.

(** [(a > 0).any()]. *)
Definition any_positive (a : array) : bool :=
  existsb (existsb (fun p => 0 <? p)) a.

Definition nonzero (p : Z) : bool := negb (p =? 0).

(** [np.any(img, axis=1)]: one flag per row. *)
Definition any_axis1 (img : array) : list bool :=
  map (existsb nonzero) img.

(** [np.any(img, axis=0)]: one flag per column. *)
Definition any_axis0 (img : array) : list bool :=
  map (fun c => existsb (fun row => nonzero (nth c row 0)) img)
      (seq 0 (snd (shape img))).

(** [np.where(flags)[0]]: the positions of the true flags, increasing. *)
Fixpoint np_where_from (i : Z) (flags : list bool) : list Z :=
  match flags with
  | [] => []
  | b :: flags' =>
      if b then i :: np_where_from (i + 1) flags'
      else np_where_from (i + 1) flags'
  end.

Definition np_where (flags : list bool) : list Z := np_where_from 0 flags.

(** [xs[[0, -1]]]: the first and the last entry. *)
Definition first_last (xs : list Z) : result (Z * Z) :=
  a ← py_index xs 0; b ← py_index xs (-1); Ok (a, b).

(** [MeViSDataset.bounding_box], returning (y1, y2, x1, x2). *)
Definition bounding_box (img : array) : result (Z * Z * Z * Z) :=
  let rows := any_axis1 img in
  let cols := any_axis0 img in
  '(rmin, rmax) ← first_last (np_where rows);
  '(cmin, cmax) ← first_last (np_where cols);
  Ok (rmin, rmax, cmin, cmax).

(** [torch.stack(xs, dim=0)]: the list must be non-empty and its entries
    must agree on their shape. *)
Definition torch_stack {A S} `{EqDecision S} (shape_of : A -> S)
    (xs : list A) : result (list A) :=
  match xs with
  | [] => Raise RuntimeError
  | x :: rest =>
      if forallb (fun y => bool_decide (shape_of y = shape_of x)) rest
      then Ok xs
      else Raise RuntimeError
  end.

(** ** Captions: [" ".join(exp.lower().split())] on ASCII text

    A string is the list of its bytes. On a string that [isascii] accepts
    the bytes are the characters, [str.lower] changes the letters A to Z
    only, and [str.split] splits at the six ASCII whitespace characters and
    the four separators 28 to 31. The definitions of this section embed the
    two methods on such strings and on no others; what is proved of a
    caption is proved under [isascii]. *)

(** [s.isascii()]. *)
Definition isascii (s : string) : bool :=
  forallb (fun c => (nat_of_ascii c <? 128)%nat) (list_ascii_of_string s).

Definition lower_ascii (c : ascii) : ascii :=
  let n := nat_of_ascii c in
  if (65 <=? n)%nat && (n <=? 90)%nat then ascii_of_nat (n + 32) else c.

Definition is_space (c : ascii) : bool :=
  let n := nat_of_ascii c in
  ((9 <=? n)%nat && (n <=? 13)%nat) || ((28 <=? n)%nat && (n <=? 32)%nat).

(** [str.split()] on a list of characters; [cur] is the word being read,
    in reverse. *)
Fixpoint split_ws (cur : list ascii) (s : list ascii) : list (list ascii) :=
  match s with
  | [] => match cur with [] => [] | _ => [rev cur] end
  | c :: s' =>
      if is_space c then
        match cur with
        | [] => split_ws [] s'
        | _ => rev cur :: split_ws [] s'
        end
      else split_ws (c :: cur) s'
  end.

Definition clean_caption (exp : string) : string :=
  String.concat " "
    (map string_of_list_ascii
       (split_ws [] (map lower_ascii (list_ascii_of_string exp)))).

(** ** The data model *)

(** One expression of the annotation manifest. *)
Record Expression : Type := {
  e_exp : string;
  e_obj_id : list Z;
  e_anno_id : list string
}.

(** One video of the annotation manifest; the expressions are the items of
    a JSON object, in file order. *)
Record VideoData : Type := {
  v_frames : list string;
  v_expressions : list (string * Expression)
}.

(** The value under the key ["videos"] of [meta_expressions.json]. *)
Definition Manifest : Type := list (string * VideoData).

(** One entry of [self.metas]. *)
Record Meta : Type := {
  m_video : string;
  m_exp : string;
  m_obj_id : list Z;
  m_anno_id : list string;
  m_frames : list string;
  m_frame_id : Z;
  m_category : Z
}.

(** A decoded image file; [im_size] is PIL's (width, height). *)
Record Image : Type := {
  im_file : string;
  im_size : nat * nat
}.

(** A box (x1, y1, x2, y2). *)
Definition box : Type := Z * Z * Z * Z.

(** The target dictionary; [B] and [Mk] are the types of one box and of one
    mask, which the augmentation pipeline changes. *)
Record target (B Mk : Type) : Type := {
  frames_idx : list Z;
  labels : list Z;
  boxes : list B;
  masks : list Mk;
  valid : list Z;
  caption : string;
  orig_size : Z * Z;
  size : Z * Z;
  video_id : string;
  exp_id : Z
}.
Arguments frames_idx {B Mk} t.
Arguments labels {B Mk} t.
Arguments boxes {B Mk} t.
Arguments masks {B Mk} t.
Arguments valid {B Mk} t.
Arguments caption {B Mk} t.
Arguments orig_size {B Mk} t.
Arguments size {B Mk} t.
Arguments video_id {B Mk} t.
Arguments exp_id {B Mk} t.

(** ** The collaborators the loader consumes

    The random generator, the frame sampler of [datasets.transform_utils],
    the RLE decoder of [pycocotools], the image files and the tensors that
    the augmentation pipeline produces. *)
Class Env : Type := {
  World : Type;
  (** [random.randint(a, b)] on a non-empty range *)
  draw : Z -> Z -> World -> Z * World;
  draw_range : forall a b w, a <= b -> a <= fst (draw a b w) <= b;
  (** [FrameSampler.sample_global_frames(frame_id, vid_len, num_frames)] *)
  sample_global_frames : Z -> Z -> Z -> World -> result (list Z) * World;
  (** a compact mask record and [coco_mask.decode] *)
  Rle : Type;
  coco_decode : Rle -> array;
  (** [Image.open(path).convert('RGB')] *)
  image_open : string -> result Image;
  (** the tensors, boxes and masks that come out of the augmentation *)
  TImg : Type;
  TBox : Type;
  TMask : Type;
  timg_shape : TImg -> list nat
}.

Section Loader.
Context `{E : Env}.

(** Code that reads the random generator and may raise. *)
Definition M (A : Type) : Type := World -> result A * World.

Definition M_ret {A} (a : A) : M A := fun w => (Ok a, w).

Definition M_bind {A B} (c : M A) (k : A -> M B) : M B :=
  fun w =>
    match c w with
    | (Ok a, w') => k a w'
    | (Raise e, w') => (Raise e, w')
    end.

Definition lift {A} (r : result A) : M A := fun w => (r, w).

(** [random.randint(a, b)]: an empty range raises. *)
Definition randint (a b : Z) : M Z :=
  fun w =>
    if a <=? b then let '(z, w') := draw a b w in (Ok z, w')
    else (Raise (ValueError "empty range for randrange()"), w).

(** The dataset object. *)
Record MeViSDataset : Type := {
  img_folder : string;
  _transforms :
    list Image -> target box array -> M (list TImg * target TBox TMask);
  num_frames : Z;
  videos : list string;
  metas : list Meta;
  mask_dict : gmap string (list (option Rle))
}.

(** *** [prepare_metas] *)

(** [sorted(names)]: strings compare lexicographically. *)
Definition sorted (names : list string) : list string :=
  merge_sort String.le names.

(** [int(x)] and [str(x)] on manifest entries of the documented types. *)
Definition int_ (x : Z) : Z := x.
Definition str_ (x : string) : string := x.

Definition make_meta (vid : string) (exp_dict : Expression)
    (vid_frames : list string) (frame_id : Z) : Meta :=
  {| m_video := vid;
     m_exp := e_exp exp_dict;
     m_obj_id := map int_ (e_obj_id exp_dict);
     m_anno_id := map str_ (e_anno_id exp_dict);
     m_frames := vid_frames;
     m_frame_id := frame_id;
     m_category := 0 |}.

(** The two inner loops for one video. *)
Definition metas_of_video (nf : Z) (vid : string) (vid_data : VideoData)
    (acc : list Meta) : result (list Meta) :=
  let vid_frames := sorted (v_frames vid_data) in
  let vid_len := len vid_frames in
  rfold (fun acc '(exp_id, exp_dict) =>
           anchors ← py_range3 0 vid_len nf;
           Ok (acc ++ map (make_meta vid exp_dict vid_frames) anchors))
        (v_expressions vid_data) acc.

(** [prepare_metas]: the pair of [self.videos] and [self.metas]. *)
Definition prepare_metas (nf : Z) (subset_expressions_by_video : Manifest)
    : result (list string * list Meta) :=
  let videos := map fst subset_expressions_by_video in
  ms ← rfold (fun acc '(vid, vid_data) => metas_of_video nf vid vid_data acc)
             subset_expressions_by_video [];
  Ok (videos, ms).

(** [__init__]: [manifest] is the parsed content of [ann_file] under the
    key ["videos"], [mask_json] the parsed content of [mask_dict.json]. *)
Definition __init__ (img_folder : string) (manifest : Manifest)
    (transforms :
       list Image -> target box array -> M (list TImg * target TBox TMask))
    (num_frames : Z) (mask_json : gmap string (list (option Rle)))
    : result MeViSDataset :=
  '(vs, ms) ← prepare_metas num_frames manifest;
  Ok {| img_folder := img_folder;
        _transforms := transforms;
        num_frames := num_frames;
        videos := vs;
        metas := ms;
        mask_dict := mask_json |}.

(** [__len__]. *)
Definition __len__ (self : MeViSDataset) : Z := len (metas self).

(** *** [__getitem__] *)

(** [os.path.join(str(img_folder), 'JPEGImages', video, frame_name + '.jpg')];
    [img_folder self] is [str(self.img_folder)]. *)
Definition img_path (self : MeViSDataset) (video frame_name : string)
    : string :=
  os_path_join
    (os_path_join (os_path_join (img_folder self) "JPEGImages") video)
    (frame_name +:+ ".jpg")%string.

(** The inner loop over [anno_id]: the mask accumulator of one frame. *)
Definition accumulate_step (self : MeViSDataset) (frame_indx : Z)
    (mask : array) (x : string) : result array :=
  per_frame ← py_getitem (mask_dict self) x;
  frm_anno ← py_index per_frame frame_indx;
  match frm_anno with
  | Some rle => iadd mask (coco_decode rle)
  | None => Ok mask
  end.

Definition accumulate_mask (self : MeViSDataset) (anno_id : list string)
    (frame_indx : Z) (mask0 : array) : result array :=
  rfold (accumulate_step self frame_indx) anno_id mask0.

(** What one iteration of the loop over [range(num_frames)] appends. *)
Record FrameOut : Type := {
  f_img : Image;
  f_label : Z;
  f_mask : array;
  f_box : box;
  f_valid : Z
}.

(** The box and the validity flag of one accumulated mask. *)
Definition box_and_valid (mask : array) : result (box * Z) :=
  if any_positive mask then
    '(y1, y2, x1, x2) ← bounding_box mask;
    Ok ((x1, y1, x2, y2), 1)
  else Ok ((0, 0, 0, 0), 0).

(** The body of the loop over [j]. *)
Definition frame_step (self : MeViSDataset) (meta : Meta)
    (sample_indx : list Z) (category_id : Z) (j : Z) : result FrameOut :=
  frame_indx ← py_index sample_indx j;
  frame_name ← py_index (m_frames meta) frame_indx;
  img ← image_open (img_path self (m_video meta) frame_name);
  let '(iw, ih) := im_size img in
  mask ← accumulate_mask self (m_anno_id meta) frame_indx (zeros ih iw);
  let label := category_id in
  '(bx, v) ← box_and_valid mask;
  Ok {| f_img := img; f_label := label; f_mask := mask;
        f_box := bx; f_valid := v |}.

(** [t.clamp_(min=lo, max=hi)] on one entry. *)
Definition clamp (lo hi x : Z) : Z := Z.min (Z.max x lo) hi.

(** [boxes[:, 0::2].clamp_(min=0, max=w)] and
    [boxes[:, 1::2].clamp_(min=0, max=h)] on one row of [boxes]. *)
Definition clamp_box (w h : Z) (b : box) : box :=
  let '(x1, y1, x2, y2) := b in
  (clamp 0 w x1, clamp 0 h y1, clamp 0 w x2, clamp 0 h y2).

(** The body of the [while] loop from the frame loop to the assembled
    target: the five lists grow in lockstep, one entry per iteration, and
    [img] is the image of the last iteration. *)
Definition assemble (self : MeViSDataset) (idx : Z) (meta : Meta)
    (sample_indx : list Z) : result (list Image * target box array) :=
  let video := m_video meta in
  let exp := clean_caption (m_exp meta) in
  let category_id := 0 in
  outs ← rmap (frame_step self meta sample_indx category_id)
              (py_range (num_frames self));
  let imgs := map f_img outs in
  img ← match last imgs with
        | Some img => Ok img
        | None => Raise UnboundLocalError
        end;
  let '(w, h) := im_size img in
  labels ← torch_stack (fun _ : Z => ()) (map f_label outs);
  boxes ← torch_stack (fun _ : box => ()) (map f_box outs);
  let boxes := map (clamp_box (Z.of_nat w) (Z.of_nat h)) boxes in
  masks ← torch_stack shape (map f_mask outs);
  Ok (imgs,
      {| frames_idx := sample_indx;
         labels := labels;
         boxes := boxes;
         masks := masks;
         valid := map f_valid outs;
         caption := exp;
         orig_size := (Z.of_nat h, Z.of_nat w);
         size := (Z.of_nat h, Z.of_nat w);
         video_id := video;
         exp_id := idx |}).

(** The body of the [while] loop up to the target handed to the
    augmentation. *)
Definition build_target (self : MeViSDataset) (idx : Z)
    : M (list Image * target box array) :=
  M_bind (lift (py_index (metas self) idx)) (fun meta =>
  let vid_len := len (m_frames meta) in
  M_bind (sample_global_frames (m_frame_id meta) vid_len (num_frames self))
    (fun sample_indx =>
  lift (assemble self idx meta sample_indx))).

(** One full pass through the body of the [while] loop, up to the test of
    [target['valid']]. *)
Definition iteration (self : MeViSDataset) (idx : Z)
    : M (list TImg * target TBox TMask) :=
  M_bind (build_target self idx) (fun '(imgs, tgt) =>
  M_bind (_transforms self imgs tgt) (fun '(imgs', tgt') =>
  M_bind (lift (torch_stack timg_shape imgs')) (fun imgs'' =>
  M_ret (imgs'', tgt')))).

(** [torch.any(target['valid'] == 1)]. *)
Definition has_valid {B Mk} (t : target B Mk) : bool :=
  existsb (Z.eqb 1) (valid t).

(** [__getitem__]: the [while] loop has no bound of its own, so the
    embedding runs it for at most [fuel] passes; [None] means that the loop
    is still running after [fuel] passes. *)
Fixpoint __getitem__ (fuel : nat) (self : MeViSDataset) (idx : Z)
    (w : World) : option (result (list TImg * target TBox TMask) * World) :=
  match fuel with
  | O => None
  | S fuel' =>
      match iteration self idx w with
      | (Raise e, w1) => Some (Raise e, w1)
      | (Ok (imgs, tgt), w1) =>
          if has_valid tgt then Some (Ok (imgs, tgt), w1)
          else
            match randint 0 (__len__ self - 1) w1 with
            | (Raise e, w2) => Some (Raise e, w2)
            | (Ok idx', w2) => __getitem__ fuel' self idx' w2
            end
      end
  end.

End Loader.

(** ** The dataset dispatcher of [datasets/__init__.py] *)

Section Dispatch.
Context {Args Dataset : Type}.
(** The per-dataset builders imported by the module. *)
Context (build_mevis build_ytvos build_davis :
           string -> Args -> result Dataset).
Context (build_refexp : string -> string -> Args -> result Dataset).

Definition build_dataset (dataset_file image_set : string) (args : Args)
    : result Dataset :=
  if String.eqb dataset_file "mevis" then build_mevis image_set args
  else if String.eqb dataset_file "ytvos" then build_ytvos image_set args
  else if String.eqb dataset_file "davis" then build_davis image_set args
  else if String.eqb dataset_file "refcoco"
          || String.eqb dataset_file "refcoco+"
          || String.eqb dataset_file "refcocog"
  then build_refexp dataset_file image_set args
  else Raise (ValueError
                ("dataset " +:+ dataset_file +:+ " not supported")%string).

End Dispatch.

(** ** Vocabulary of the properties *)

(** The entry of an array at a row and a column (0 outside the array). *)
Definition pixel (m : array) (r c : nat) : Z := nth c (nth r m []) 0.

(** An array of [h] rows that all have [w] entries. *)
Definition well_shaped (h w : nat) (m : array) : Prop :=
  length m = h /\ Forall (fun row => length row = w) m.

(** [b] is the tight bounding box of the non-zero entries of [m]: every
    non-zero entry lies inside, and each of the four sides touches one. *)
Definition tight_bbox (m : array) (b : box) : Prop :=
  let '(x1, y1, x2, y2) := b in
  0 <= x1 /\ 0 <= y1 /\
  (forall r c, pixel m r c <> 0 ->
     y1 <= Z.of_nat r <= y2 /\ x1 <= Z.of_nat c <= x2) /\
  (exists c, pixel m (Z.to_nat y1) c <> 0) /\
  (exists c, pixel m (Z.to_nat y2) c <> 0) /\
  (exists r, pixel m r (Z.to_nat x1) <> 0) /\
  (exists r, pixel m r (Z.to_nat x2) <> 0).


(** Every entry of the array is 0 or 1. *)
Definition binary (m : array) : Prop :=
  Forall (Forall (fun p => p = 0 \/ p = 1)) m.

(** Every entry of the array lies between 0 and [n]. *)
Definition bounded_by (n : Z) (m : array) : Prop :=
  Forall (Forall (fun p => 0 <= p <= n)) m.

(** The anchors as the specification words them: the multiples of the clip
    length among the positions of the video, in increasing order. *)
Definition anchors_spec (vid_len clip_length : Z) : list Z :=
  filter (fun a => a mod clip_length = 0) (py_range vid_len).

(** The catalog as the specification words it: one entry per video,
    expression and anchor, in manifest order. *)
Definition catalog_spec (clip_length : Z) (manifest : Manifest) : list Meta :=
  flat_map (fun '(vid, vid_data) =>
     let frames := sorted (v_frames vid_data) in
     flat_map (fun '(_, exp_dict) =>
        map (fun anchor =>
               {| m_video := vid;
                  m_exp := e_exp exp_dict;
                  m_obj_id := e_obj_id exp_dict;
                  m_anno_id := e_anno_id exp_dict;
                  m_frames := frames;
                  m_frame_id := anchor;
                  m_category := 0 |})
            (anchors_spec (len frames) clip_length))
       (v_expressions vid_data))
    manifest.

(** The entry came from this expression of the manifest. *)
Definition from_expression (manifest : Manifest) (m : Meta) (e : Expression)
    : Prop :=
  exists vid vid_data exp_id,
    (vid, vid_data) ∈ manifest /\ (exp_id, e) ∈ v_expressions vid_data /\
    m_video m = vid /\ m_exp m = e_exp e.

(** The shapes that broadcast to [h] rows of [w] entries: [h] rows or one
    row, each of [w] entries or of one entry. *)
Definition broadcasts_to (h w : nat) (d : array) : bool :=
  ((length d =? h) || (length d =? 1))%nat &&
  forallb (fun row => (length row =? w) || (length row =? 1))%nat d.

(** The entry that broadcasting [d] puts at a row and a column: a single
    row stands for every row, a single entry of a row for every column. *)
Definition stretched (d : array) (r c : nat) : Z :=
  let r' := if decide (length d = 1%nat) then 0%nat else r in
  let row := nth r' d [] in
  let c' := if decide (length row = 1%nat) then 0%nat else c in
  nth c' row 0.

(** Every entry of the array is non-negative. *)
Definition nonneg (m : array) : Prop := Forall (Forall (fun p => 0 <= p)) m.

(** The anchors as [range(0, vid_len, num_frames)] computes them. *)
Definition anchors_code (vid_len nf : Z) : list Z :=
  map (fun k => 0 + Z.of_nat k * nf)
      (seq 0 (Z.to_nat (range_count 0 vid_len nf))).

Definition catalog_code (nf : Z) (manifest : Manifest) : list Meta :=
  flat_map (fun '(vid, vid_data) =>
     let frames := sorted (v_frames vid_data) in
     flat_map (fun '(_, exp_dict) =>
        map (make_meta vid exp_dict frames) (anchors_code (len frames) nf))
       (v_expressions vid_data))
    manifest.

(** The target that [assemble] builds from the frame outputs [outs] and the
    image [img] of the last iteration. *)
Definition target_of (idx : Z) (meta : Meta) (sample_indx : list Z)
    (outs : list FrameOut) (img : Image) : target box array :=
  let w := Z.of_nat (fst (im_size img)) in
  let h := Z.of_nat (snd (im_size img)) in
  {| frames_idx := sample_indx;
     labels := map f_label outs;
     boxes := map (clamp_box w h) (map f_box outs);
     masks := map f_mask outs;
     valid := map f_valid outs;
     caption := clean_caption (m_exp meta);
     orig_size := (h, w);
     size := (h, w);
     video_id := m_video meta;
     exp_id := idx |}.

(** The dataset kinds that the dispatcher knows. *)
Definition dataset_kinds : list string :=
  ["mevis"; "ytvos"; "davis"; "refcoco"; "refcoco+"; "refcocog"].

Definition refexp_kinds : list string := ["refcoco"; "refcoco+"; "refcocog"].

Section RetryVocabulary.
Context `{E : Env}.

(** The decoded mask of the annotation id [x] at the frame [frame_indx],
    when the mask store has one there. *)
Definition decoded_at (self : MeViSDataset) (x : string) (frame_indx : Z)
    : option array :=
  match mask_dict self !! x with
  | Some per_frame =>
      match py_index per_frame frame_indx with
      | Ok (Some rle) => Some (coco_decode rle)
      | _ => None
      end
  | None => None
  end.

(** The sum, over the annotation ids, of the decoded masks at one pixel. *)
Definition covering (self : MeViSDataset) (ids : list string)
    (frame_indx : Z) (r c : nat) : Z :=
  foldr (fun x s =>
           match decoded_at self x frame_indx with
           | Some d => pixel d r c + s
           | None => s
           end) 0 ids.

(** The task has, at the frame [frame_indx], an annotation whose entry is
    not null. *)
Definition present_at (self : MeViSDataset) (meta : Meta) (frame_indx : Z)
    : Prop :=
  exists x per_frame rle,
    x ∈ m_anno_id meta /\
    mask_dict self !! x = Some per_frame /\
    py_index per_frame frame_indx = Ok (Some rle).

(** The task has, at the frame [frame_indx], an annotation whose decoded
    mask has a strictly positive entry. *)
Definition visible_at (self : MeViSDataset) (meta : Meta) (frame_indx : Z)
    : Prop :=
  exists x per_frame rle,
    x ∈ m_anno_id meta /\
    mask_dict self !! x = Some per_frame /\
    py_index per_frame frame_indx = Ok (Some rle) /\
    any_positive (coco_decode rle) = true.

(** Every annotation of the task is null at the frame [frame_indx]. *)
Definition absent_at (self : MeViSDataset) (meta : Meta) (frame_indx : Z)
    : Prop :=
  forall x per_frame,
    x ∈ m_anno_id meta -> mask_dict self !! x = Some per_frame ->
    py_index per_frame frame_indx = Ok None.


(** The pass at [idx] from generator state [w] ends in a retry that draws
    [idx'] and leaves the generator in state [w']. *)
Definition retries (self : MeViSDataset) (idx : Z) (w : World)
    (idx' : Z) (w' : World) : Prop :=
  exists imgs tgt w1,
    iteration self idx w = (Ok (imgs, tgt), w1) /\
    has_valid tgt = false /\
    0 <= idx' <= __len__ self - 1 /\
    draw 0 (__len__ self - 1) w1 = (idx', w').

(** The chain of passes of one call: from the requested index to the index
    of the last pass. *)
Inductive reaches (self : MeViSDataset) : Z -> World -> Z -> World -> Prop :=
| reaches_here idx w : reaches self idx w idx w
| reaches_retry idx w idx1 w1 idx2 w2 :
    retries self idx w idx1 w1 ->
    reaches self idx1 w1 idx2 w2 ->
    reaches self idx w idx2 w2.

(** The augmentation keeps the number of entries of every per-frame
    sequence. *)
Definition keeps_lengths
    (tr : list Image -> target box array ->
          M (list TImg * target TBox TMask)) : Prop :=
  forall imgs t w imgs' t' w',
    tr imgs t w = (Ok (imgs', t'), w') ->
    length imgs' = length imgs /\
    length (labels t') = length (labels t) /\
    length (boxes t') = length (boxes t) /\
    length (masks t') = length (masks t) /\
    length (valid t') = length (valid t).

(** The augmentation keeps the entries that identify the task. *)
Definition keeps_identity
    (tr : list Image -> target box array ->
          M (list TImg * target TBox TMask)) : Prop :=
  forall imgs t w imgs' t' w',
    tr imgs t w = (Ok (imgs', t'), w') ->
    exp_id t' = exp_id t /\ caption t' = caption t /\
    video_id t' = video_id t.

End RetryVocabulary.

(** ** A small concrete installation

    One video of four frames, four expressions, clips of two frames; the
    generator is a counter, the sampler takes consecutive frames, an RLE
    record is the bitmap of its mask, every image file is 3 x 2, and the
    augmentation is the identity. *)
Module Demo.

Definition demo_draw (a b : Z) (w : nat) : Z * nat :=
  (a + Z.of_nat w mod (b - a + 1), S w).

Lemma demo_draw_range (a b : Z) (w : nat) :
  a <= b -> a <= fst (demo_draw a b w) <= b.
Proof.
  intros Hab. unfold demo_draw. simpl.
  pose proof (Z.mod_pos_bound (Z.of_nat w) (b - a + 1)). lia.
Qed.

Definition demo_sampler (frame_id vid_len nf : Z) (w : nat)
    : result (list Z) * nat :=
  (Ok (map (fun k => Z.min (frame_id + k) (vid_len - 1)) (py_range nf)), w).

Definition demo_open (path : string) : result Image :=
  Ok {| im_file := path; im_size := (3%nat, 2%nat) |}.

Definition env : Env :=
  {| World := nat;
     draw := demo_draw;
     draw_range := demo_draw_range;
     sample_global_frames := demo_sampler;
     Rle := list (list bool);
     coco_decode := map (map Z.b2z);
     image_open := demo_open;
     TImg := Image;
     TBox := box;
     TMask := array;
     timg_shape := fun i => [3%nat; snd (im_size i); fst (im_size i)] |}.

Definition identity_transforms (imgs : list Image) (t : target box array)
    : @M env (list Image * target box array) :=
  fun w => (Ok (imgs, t), w).

Definition person : Expression :=
  {| e_exp := "A  Person"; e_obj_id := [1]; e_anno_id := ["1"] |}.
Definition two_things : Expression :=
  {| e_exp := "two things"; e_obj_id := [1; 2]; e_anno_id := ["1"; "2"] |}.
Definition nothing : Expression :=
  {| e_exp := "nothing"; e_obj_id := [3]; e_anno_id := ["3"] |}.
Definition everywhere : Expression :=
  {| e_exp := "everywhere"; e_obj_id := [4]; e_anno_id := ["4"] |}.
Definition mismatched : Expression :=
  {| e_exp := "odd"; e_obj_id := [1; 2]; e_anno_id := ["1"] |}.

Definition manifest : Manifest :=
  [("v1", {| v_frames := ["f3"; "f1"; "f0"; "f2"];
             v_expressions :=
               [("0", person); ("1", two_things); ("2", nothing);
                ("3", everywhere)] |})].

Definition manifest_empty_masks : Manifest :=
  [("v1", {| v_frames := ["f0"; "f1"]; v_expressions := [("0", nothing)] |})].

Definition manifest_mismatched : Manifest :=
  [("v1", {| v_frames := ["f0"; "f1"];
             v_expressions := [("0", mismatched)] |})].

Definition ten_frames : Manifest :=
  [("v1", {| v_frames := ["00"; "01"; "02"; "03"; "04";
                          "05"; "06"; "07"; "08"; "09"];
             v_expressions := [("0", person)] |})].

Definition m1 : list (list bool) :=
  [[false; true; true]; [false; false; false]].
Definition m2 : list (list bool) :=
  [[false; false; true]; [false; true; false]].

Definition mask_json : gmap string (list (option (list (list bool)))) :=
  list_to_map
    [("1", [None; Some m1; Some m1; None]);
     ("2", [None; Some m2; None; None]);
     ("3", [None; None; None; None]);
     ("4", [Some m1; Some m2; Some m2; Some m1])].

Definition empty_dataset : @MeViSDataset env :=
  {| img_folder := "data"; _transforms := identity_transforms;
     num_frames := 2; videos := []; metas := []; mask_dict := mask_json |}.

Definition dataset_of (man : Manifest) : @MeViSDataset env :=
  match __init__ (E := env) "data" man identity_transforms 2 mask_json with
  | Ok ds => ds
  | Raise _ => empty_dataset
  end.

Definition dataset : @MeViSDataset env := dataset_of manifest.
Definition dataset_empty_masks : @MeViSDataset env :=
  dataset_of manifest_empty_masks.

(** An expression bound to the second object alone, which only frame 1
    shows. *)
Definition second : Expression :=
  {| e_exp := "the second"; e_obj_id := [2]; e_anno_id := ["2"] |}.

Definition manifest_second : Manifest :=
  [("v1", {| v_frames := ["f0"; "f1"; "f2"; "f3"];
             v_expressions := [("0", second)] |})].

Definition dataset_second : @MeViSDataset env := dataset_of manifest_second.

(** An annotation that is present at both frames of its video with a mask
    that has no pixel. *)
Definition m0 : list (list bool) :=
  [[false; false; false]; [false; false; false]].

Definition blank : Expression :=
  {| e_exp := "blank"; e_obj_id := [5]; e_anno_id := ["5"] |}.

Definition manifest_blank : Manifest :=
  [("v1", {| v_frames := ["f0"; "f1"]; v_expressions := [("0", blank)] |})].

Definition mask_json_blank : gmap string (list (option (list (list bool)))) :=
  list_to_map [("5", [Some m0; Some m0])].

Definition dataset_blank : @MeViSDataset env :=
  match __init__ (E := env) "data" manifest_blank identity_transforms 2
          mask_json_blank with
  | Ok ds => ds
  | Raise _ => empty_dataset
  end.

(** An augmentation that loses every instance when the generator is in the
    state [bad], as a random crop may, and changes nothing otherwise. *)
Definition crop_at (bad : nat) (imgs : list Image) (t : target box array)
    : @M env (list Image * target box array) :=
  fun w =>
    if Nat.eqb w bad then
      (Ok (imgs,
           {| frames_idx := frames_idx t; labels := labels t;
              boxes := boxes t; masks := masks t;
              valid := map (fun _ => 0) (valid t); caption := caption t;
              orig_size := orig_size t; size := size t;
              video_id := video_id t; exp_id := exp_id t |}), w)
    else (Ok (imgs, t), w).

Definition dataset_cropping : @MeViSDataset env :=
  match __init__ (E := env) "data" manifest (crop_at 6) 2 mask_json with
  | Ok ds => ds
  | Raise _ => empty_dataset
  end.

(** Masks of other shapes than the 2 x 3 frames: one row, one entry, and
    one row that is too short. *)
Definition mask_json_shapes
    : gmap string (list (option (list (list bool)))) :=
  list_to_map
    [("row", [Some [[true; false; true]]]);
     ("dot", [Some [[true]]]);
     ("short", [Some [[true; false]]])].

Definition dataset_shapes : @MeViSDataset env :=
  {| img_folder := "data"; _transforms := identity_transforms;
     num_frames := 1; videos := []; metas := [];
     mask_dict := mask_json_shapes |}.
(** A stand-in for the per-dataset builders. *)
Definition demo_builder (name : string) (image_set : string) (args : unit)
    : result string :=
  Ok (name +:+ "/" +:+ image_set)%string.

(** Projections of the outcome of a pass, for the examples. *)
Definition no_target {B Mk : Type} : target B Mk :=
  {| frames_idx := []; labels := []; boxes := []; masks := []; valid := [];
     caption := ""; orig_size := (0, 0); size := (0, 0); video_id := "";
     exp_id := 0 |}.

Definition imgs_of {A B Mk S : Type} (r : result (list A * target B Mk) * S)
    : list A :=
  match r with
  | (Ok (imgs, _), _) => imgs
  | _ => []
  end.

Definition target_in {A B Mk S : Type} (r : result (list A * target B Mk) * S)
    : target B Mk :=
  match r with
  | (Ok (_, tgt), _) => tgt
  | _ => no_target
  end.

End Demo.

(** ** [get_coco_api_from_dataset] of [datasets/__init__.py] *)

Section CocoApi.
Context {Coco Other : Type}.

(** The datasets the function tells apart: a [torch.utils.data.Subset] of
    another dataset, a [torchvision.datasets.CocoDetection] with its [coco]
    attribute, and any other dataset. *)
Inductive torch_dataset : Type :=
| Subset (dataset : torch_dataset) (indices : list Z)
| CocoDetection (coco : Coco)
| OtherDataset (other : Other).

(** The body of the [for] loop: a [Subset] is replaced by the dataset it
    wraps. *)
Definition unwrap_once (dataset : torch_dataset) : torch_dataset :=
  match dataset with
  | Subset inner _ => inner
  | _ => dataset
  end.

(** [for _ in range(n)]. *)
Fixpoint unwrap_subsets (n : nat) (dataset : torch_dataset) : torch_dataset :=
  match n with
  | O => dataset
  | S n' => unwrap_subsets n' (unwrap_once dataset)
  end.

(** [get_coco_api_from_dataset]; falling off the end returns [None]. *)
Definition get_coco_api_from_dataset (dataset : torch_dataset)
    : option Coco :=
  match unwrap_subsets 10 dataset with
  | CocoDetection coco => Some coco
  | _ => None
  end.

(** [dataset] wrapped in one [Subset] per entry of [layers], the first
    entry outermost. *)
Definition wrap_subsets (layers : list (list Z)) (dataset : torch_dataset)
    : torch_dataset :=
  foldr (fun indices inner => Subset inner indices) dataset layers.

End CocoApi.
Arguments torch_dataset Coco Other : clear implicits.

(** ** The builder [build] of [datasets/mevis.py] and the files it reads *)

(** The options of [args] that [build] reads. *)
Record Args (Resize : Type) : Type := {
  a_mevis_path : string;
  a_split : string;
  a_max_size : Z;
  a_augm_resize : Resize;
  a_num_frames : Z
}.
Arguments a_mevis_path {Resize} a.
Arguments a_split {Resize} a.
Arguments a_max_size {Resize} a.
Arguments a_augm_resize {Resize} a.
Arguments a_num_frames {Resize} a.

(** What a call returns or raises when an [assert] is among its
    statements. *)
Inductive outcome (A : Type) : Type :=
| Returned (a : A)
| AssertionError (msg : string)
| Raised (e : exn).
Arguments Returned {A} a.
Arguments AssertionError {A} msg.
Arguments Raised {A} e.

(** The paths of [pathlib], the file system and the augmentation factory
    of [datasets.transform_utils]. *)
Class Files `{E : Env} : Type := {
  Resize : Type;
  (** [pathlib.Path] with [Path(s)], [str(p)], [p / name] for a string
      [name], [p / q] for a path [q], and [p.exists()] *)
  Path : Type;
  path_of : string -> Path;
  path_str : Path -> string;
  path_div : Path -> string -> Path;
  path_div_path : Path -> Path -> Path;
  path_exists : Path -> bool;
  (** [json.load(open(ann_file))['videos']] *)
  load_videos : string -> result Manifest;
  (** [json.load(open(mask_json))] *)
  load_mask_dict : string -> result (gmap string (list (option Rle)));
  (** [make_coco_transforms(image_set, max_size=..., resize=...)] *)
  make_coco_transforms :
    string -> Z -> Resize ->
    result (list Image -> target box array ->
            M (list TImg * target TBox TMask))
}.

Section Build.
Context `{F : Files}.

(** [MeViSDataset(img_folder, ann_file, transforms, num_frames)]: the
    constructor as it reads its two files, the manifest first. The object
    keeps the path [img_folder], of which the class only ever takes the
    string. *)
Definition new_MeViSDataset (img_folder ann_file : Path)
    (transforms :
       list Image -> target box array -> M (list TImg * target TBox TMask))
    (num_frames : Z) : result MeViSDataset :=
  subset_expressions_by_video ← load_videos (path_str ann_file);
  '(vs, ms) ← prepare_metas num_frames subset_expressions_by_video;
  let mask_json := (path_str img_folder +:+ "/mask_dict.json")%string in
  mask_dict ← load_mask_dict mask_json;
  Ok {| img_folder := path_str img_folder;
        _transforms := transforms;
        num_frames := num_frames;
        videos := vs;
        metas := ms;
        mask_dict := mask_dict |}.

(** The dictionary [PATHS]. *)
Definition PATHS (root : Path) (split : string) : gmap string (Path * Path) :=
  list_to_map
    [("train",
      (path_div root "train",
       path_div (path_div root "train") "meta_expressions.json"));
     ("valid_u",
      (path_div_path root (path_of split),
       path_div (path_div_path root (path_of split))
         "meta_expressions.json"))].

(** [build(image_set, args)]. *)
Definition build (image_set : string) (args : Args Resize)
    : outcome MeViSDataset :=
  let root := path_of (a_mevis_path args) in
  if path_exists root then
    match py_getitem (PATHS root (a_split args)) image_set with
    | Raise e => Raised e
    | Ok (img_folder, ann_file) =>
        match make_coco_transforms image_set (a_max_size args)
                (a_augm_resize args) with
        | Raise e => Raised e
        | Ok transforms =>
            match new_MeViSDataset img_folder ann_file transforms
                    (a_num_frames args) with
            | Raise e => Raised e
            | Ok dataset => Returned dataset
            end
        end
    end
  else AssertionError
         ("provided mevis path " +:+ path_str root +:+ " does not exist")%string.

End Build.

(** ** Further vocabulary *)

(** The number of clips of a video of [vid_len] frames. *)
Definition clips_of (vid_len clip_length : Z) : Z :=
  (vid_len + clip_length - 1) / clip_length.

(** The number of catalog entries of a manifest. *)
Definition catalog_size (clip_length : Z) (manifest : Manifest) : Z :=
  foldr (fun '(_, vid_data) total =>
           len (v_expressions vid_data)
           * clips_of (len (v_frames vid_data)) clip_length + total)
        0 manifest.

(** Some video of the manifest has an expression. *)
Definition has_expression (manifest : Manifest) : bool :=
  existsb (fun '(_, vid_data) =>
             match v_expressions vid_data with [] => false | _ => true end)
          manifest.

(** Two videos with the same expressions whose frame lists hold the same
    names, in any order. *)
Definition same_video (vd vd' : string * VideoData) : Prop :=
  fst vd = fst vd' /\
  v_frames (snd vd) ≡ₚ v_frames (snd vd') /\
  v_expressions (snd vd) = v_expressions (snd vd').

(** The target with another [exp_id]. *)
Definition with_exp_id {B Mk} (idx : Z) (t : target B Mk) : target B Mk :=
  {| frames_idx := frames_idx t; labels := labels t; boxes := boxes t;
     masks := masks t; valid := valid t; caption := caption t;
     orig_size := orig_size t; size := size t; video_id := video_id t;
     exp_id := idx |}.

(** The mask of [h] rows and [w] columns that is 1 on the rows [y1 .. y2]
    and the columns [x1 .. x2] and 0 elsewhere. *)
Definition rect_mask (h w : nat) (y1 y2 x1 x2 : Z) : array :=
  map (fun r =>
         map (fun c =>
                if bool_decide (y1 <= Z.of_nat r <= y2 /\
                                x1 <= Z.of_nat c <= x2)
                then 1 else 0)
             (seq 0 w))
      (seq 0 h).

(** The characters of words joined by single spaces. *)
Fixpoint join_words (ws : list (list ascii)) : list ascii :=
  match ws with
  | [] => []
  | w :: rest =>
      match rest with
      | [] => w
      | _ => w ++ " "%char :: join_words rest
      end
  end.

(** A word of a cleaned caption: not empty, without whitespace, and without
    upper-case ASCII letters. *)
Definition clean_word (w : list ascii) : Prop :=
  w <> [] /\
  Forall (fun c => is_space c = false /\ lower_ascii c = c) w.

(** A small file system for the examples: the root [data] holds the
    [train] folder of the concrete installation. Its paths are the plain
    relative names [data], [data/train], ..., on which [pathlib] joins with
    one separator. *)
Module DemoFiles.

Definition demo_div (p name : string) : string := (p +:+ "/" +:+ name)%string.

Definition demo_load_videos (p : string) : result Manifest :=
  if String.eqb p "data/train/meta_expressions.json"
  then Ok Demo.manifest else Raise OSError.

Definition demo_load_mask_dict (p : string)
    : result (gmap string (list (option (@Rle Demo.env)))) :=
  if String.eqb p "data/train/mask_dict.json"
  then Ok Demo.mask_json else Raise OSError.

Definition files : @Files Demo.env :=
  @Build_Files Demo.env bool string (fun s => s) (fun p => p)
    demo_div demo_div
    (fun p => String.eqb p "data")
    demo_load_videos
    demo_load_mask_dict
    (fun _ _ _ => Ok Demo.identity_transforms).

Definition args : Args bool :=
  {| a_mevis_path := "data"; a_split := "valid_u"; a_max_size := 640;
     a_augm_resize := false; a_num_frames := 2 |}.

Definition lost_args : Args bool :=
  {| a_mevis_path := "nowhere"; a_split := "valid_u"; a_max_size := 640;
     a_augm_resize := false; a_num_frames := 2 |}.

End DemoFiles.

(** * Properties *)

(** ** The dispatcher *)

(** C9. [build_dataset] looks at nothing but the dataset-kind string: on
    [mevis], [ytvos] and [davis] it returns what the builder of that dataset
    returns, on the three RefCOCO kinds what the RefCOCO builder returns
    (which is passed the kind), and on every other string it raises the
    error "dataset ... not supported". *)
Theorem build_dataset_dispatch {Args Dataset : Type}
    (build_mevis build_ytvos build_davis : string -> Args -> result Dataset)
    (build_refexp : string -> string -> Args -> result Dataset)
    (image_set : string) (args : Args) :
  let build := build_dataset build_mevis build_ytvos build_davis build_refexp in
  build "mevis" image_set args = build_mevis image_set args /\
  build "ytvos" image_set args = build_ytvos image_set args /\
  build "davis" image_set args = build_davis image_set args /\
  (forall kind, kind ∈ refexp_kinds ->
     build kind image_set args = build_refexp kind image_set args) /\
  (forall kind, kind ∉ dataset_kinds ->
     build kind image_set args =
     Raise (ValueError ("dataset " +:+ kind +:+ " not supported")%string)).
Proof.
  cbv zeta. repeat split.
  - intros kind Hkind. unfold refexp_kinds in Hkind.
    repeat (apply elem_of_cons in Hkind as [-> | Hkind]; [reflexivity |]).
    by apply elem_of_nil in Hkind.
  - intros kind Hkind. unfold build_dataset, dataset_kinds in *.
    repeat match goal with
    | |- context [String.eqb kind ?s] =>
        destruct (String.eqb_spec kind s) as [-> | _];
        [exfalso; apply Hkind; set_solver |]
    end.
    reflexivity.
Qed.

Lemma build_dataset_dispatch_witness :
  ("coco" ∉ dataset_kinds) /\
  build_dataset (Demo.demo_builder "mevis") (Demo.demo_builder "ytvos")
    (Demo.demo_builder "davis") (fun kind => Demo.demo_builder kind)
    "coco" "train" tt =
  Raise (ValueError "dataset coco not supported") /\
  build_dataset (Demo.demo_builder "mevis") (Demo.demo_builder "ytvos")
    (Demo.demo_builder "davis") (fun kind => Demo.demo_builder kind)
    "refcoco+" "train" tt = Ok "refcoco+/train"%string.
Proof.
  assert (Hout : "coco" ∉ dataset_kinds) by compute_done.
  assert (Hin : "refcoco+" ∈ refexp_kinds) by compute_done.
  split; [exact Hout |].
  pose proof (build_dataset_dispatch (Demo.demo_builder "mevis")
                (Demo.demo_builder "ytvos") (Demo.demo_builder "davis")
                (fun kind => Demo.demo_builder kind) "train" tt) as H.
  cbv zeta in H. destruct H as (_ & _ & _ & Href & Hother).
  split; [exact (Hother "coco" Hout) | exact (Href "refcoco+" Hin)].
Defined.

(** ** Bookkeeping lemmas on results and loops *)

Lemma rbind_Ok {A B} (r : result A) (k : A -> result B) (b : B) :
  r ≫= k = Ok b -> exists a, r = Ok a /\ k a = Ok b.
Proof. destruct r as [a | e]; [eauto | discriminate]. Qed.

Lemma rmap_Ok {A B} (f : A -> result B) (xs : list A) (ys : list B) :
  rmap f xs = Ok ys -> Forall2 (fun x y => f x = Ok y) xs ys.
Proof.
  revert ys. induction xs as [| x xs IH]; intros ys H; simpl in H.
  - injection H as <-. constructor.
  - apply rbind_Ok in H as (y & Hy & H).
    apply rbind_Ok in H as (ys' & Hys & H).
    injection H as <-. constructor; auto.
Qed.

Lemma rmap_Ok_length {A B} (f : A -> result B) (xs : list A) (ys : list B) :
  rmap f xs = Ok ys -> length ys = length xs.
Proof. intros H. symmetry. exact (Forall2_length _ _ _ (rmap_Ok _ _ _ H)). Qed.

Lemma torch_stack_Ok {A S} `{EqDecision S} (shape_of : A -> S)
    (xs ys : list A) :
  torch_stack shape_of xs = Ok ys ->
  ys = xs /\ xs <> [] /\
  forall x y, x ∈ xs -> y ∈ xs -> shape_of x = shape_of y.
Proof.
  destruct xs as [| x rest]; simpl; [discriminate |].
  destruct (forallb _ rest) eqn:Hall; [| discriminate].
  intros [= <-]. split; [reflexivity |]. split; [discriminate |].
  assert (Hx : forall y, y ∈ x :: rest -> shape_of y = shape_of x).
  { intros y [-> | Hy]%elem_of_cons; [reflexivity |].
    rewrite forallb_forall in Hall.
    apply list_elem_of_In in Hy. apply Hall in Hy.
    by apply bool_decide_eq_true in Hy. }
  intros y z Hy Hz. rewrite (Hx y Hy), (Hx z Hz). reflexivity.
Qed.

Lemma py_range_length (n : Z) : length (py_range n) = Z.to_nat n.
Proof. unfold py_range. by rewrite length_map, length_seq. Qed.

Lemma py_index_Ok {A} (l : list A) (i : Z) (a : A) :
  py_index l i = Ok a ->
  (0 <= i < len l /\ l !! Z.to_nat i = Some a) \/
  (- len l <= i < 0 /\ l !! Z.to_nat (i + len l) = Some a).
Proof.
  unfold py_index. destruct (i <? 0) eqn:Hneg.
  - apply Z.ltb_lt in Hneg.
    destruct (_ && _) eqn:Hrange; [| discriminate].
    apply andb_true_iff in Hrange as [?%Z.leb_le ?%Z.ltb_lt].
    destruct (l !! _) eqn:Hl; [| discriminate]. intros [= ->]. right.
    split; [lia | done].
  - apply Z.ltb_ge in Hneg.
    destruct (_ && _) eqn:Hrange; [| discriminate].
    apply andb_true_iff in Hrange as [?%Z.leb_le ?%Z.ltb_lt].
    destruct (l !! _) eqn:Hl; [| discriminate]. intros [= ->]. left.
    split; [lia | done].
Qed.

Lemma py_index_elem_of {A} (l : list A) (i : Z) (a : A) :
  py_index l i = Ok a -> a ∈ l.
Proof.
  intros [[_ H] | [_ H]]%py_index_Ok; by eapply list_elem_of_lookup_2.
Qed.

(** ** The shape of a successful pass *)

Section LoaderFacts.
Context `{E : Env}.

Lemma assemble_Ok (self : MeViSDataset) (idx : Z) (meta : Meta)
    (sample_indx : list Z) (imgs : list Image) (tgt : target box array) :
  assemble self idx meta sample_indx = Ok (imgs, tgt) ->
  exists outs img,
    rmap (frame_step self meta sample_indx 0) (py_range (num_frames self))
      = Ok outs /\
    last (map f_img outs) = Some img /\
    (forall o1 o2, o1 ∈ outs -> o2 ∈ outs ->
       shape (f_mask o1) = shape (f_mask o2)) /\
    imgs = map f_img outs /\
    tgt = target_of idx meta sample_indx outs img.
Proof.
  unfold assemble. intros H.
  apply rbind_Ok in H as (outs & Houts & H).
  apply rbind_Ok in H as (img & Himg & H).
  destruct (last (map f_img outs)) as [img' |] eqn:Hlast; [| discriminate].
  injection Himg as ->.
  destruct (im_size img) as [w h] eqn:Hsize.
  apply rbind_Ok in H as (ls & Hls & H).
  apply rbind_Ok in H as (bs & Hbs & H).
  apply rbind_Ok in H as (ms & Hms & H).
  apply torch_stack_Ok in Hls as (-> & _ & _).
  apply torch_stack_Ok in Hbs as (-> & _ & _).
  apply torch_stack_Ok in Hms as (-> & _ & Hshape).
  injection H as <- <-.
  exists outs, img. repeat split; try done.
  - intros o1 o2 H1 H2. apply Hshape; by apply list_elem_of_fmap_2.
  - unfold target_of. by rewrite Hsize.
Qed.

Lemma build_target_Ok (self : MeViSDataset) (idx : Z) (w w' : World)
    (imgs : list Image) (tgt : target box array) :
  build_target self idx w = (Ok (imgs, tgt), w') ->
  exists meta sample_indx,
    py_index (metas self) idx = Ok meta /\
    sample_global_frames (m_frame_id meta) (len (m_frames meta))
      (num_frames self) w = (Ok sample_indx, w') /\
    assemble self idx meta sample_indx = Ok (imgs, tgt).
Proof.
  unfold build_target, M_bind, lift. intros H.
  destruct (py_index (metas self) idx) as [meta |]; [| discriminate].
  destruct (sample_global_frames _ _ _ w) as [[si |] w1] eqn:Hs;
    [| discriminate].
  injection H as H <-. eauto.
Qed.

Lemma iteration_Ok (self : MeViSDataset) (idx : Z) (w w' : World)
    (imgs' : list TImg) (tgt' : target TBox TMask) :
  iteration self idx w = (Ok (imgs', tgt'), w') ->
  exists imgs tgt w1,
    build_target self idx w = (Ok (imgs, tgt), w1) /\
    _transforms self imgs tgt w1 = (Ok (imgs', tgt'), w') /\
    imgs' <> [].
Proof.
  unfold iteration, M_bind, M_ret, lift. intros H.
  destruct (build_target self idx w) as [[[imgs tgt] |] w1] eqn:Hb;
    [| discriminate].
  destruct (_transforms self imgs tgt w1) as [[[imgs2 tgt2] |] w2] eqn:Ht;
    [| discriminate].
  destruct (torch_stack timg_shape imgs2) as [imgs3 |] eqn:Hst;
    [| discriminate].
  apply torch_stack_Ok in Hst as (-> & Hne & _).
  injection H as <- <- <-. exists imgs, tgt, w1. done.
Qed.

End LoaderFacts.

(** ** The retry loop *)

Section RetryLoop.
Context `{E : Env}.

Lemma has_valid_true {B Mk} (t : target B Mk) :
  has_valid t = true <-> exists p, valid t !! p = Some 1.
Proof.
  unfold has_valid. rewrite existsb_exists. split.
  - intros (v & Hin & Hv). apply Z.eqb_eq in Hv. subst v.
    apply list_elem_of_In, list_elem_of_lookup in Hin. exact Hin.
  - intros (p & Hp). exists 1. split; [| reflexivity].
    apply list_elem_of_In. by eapply list_elem_of_lookup_2.
Qed.

Lemma has_valid_false {B Mk} (t : target B Mk) :
  has_valid t = false <-> forall p, valid t !! p <> Some 1.
Proof.
  rewrite <- not_true_iff_false, has_valid_true. split.
  - intros Hno p Hp. apply Hno. by exists p.
  - intros Hno (p & Hp). by apply (Hno p).
Qed.

(** The draw of a retry: the catalog is not empty when a pass succeeded. *)
Lemma randint_catalog (self : MeViSDataset) (w1 : World) :
  0 <= __len__ self - 1 ->
  randint 0 (__len__ self - 1) w1 =
    (Ok (fst (draw 0 (__len__ self - 1) w1)),
     snd (draw 0 (__len__ self - 1) w1)).
Proof.
  intros Hpos. unfold randint.
  destruct (Z.leb_spec 0 (__len__ self - 1)) as [_ | Hlt]; [| lia].
  by destruct (draw 0 (__len__ self - 1) w1).
Qed.

Lemma iteration_catalog_nonempty (self : MeViSDataset) (idx : Z)
    (w w' : World) (imgs : list TImg) (tgt : target TBox TMask) :
  iteration self idx w = (Ok (imgs, tgt), w') -> 0 <= __len__ self - 1.
Proof.
  intros (imgs0 & tgt0 & w1 & Hb & _)%iteration_Ok.
  apply build_target_Ok in Hb as (meta & si & Hmeta & _).
  apply py_index_Ok in Hmeta. unfold __len__. lia.
Qed.

(** One unfolding of the loop after a pass that leaves no valid frame. *)
Lemma getitem_retry (fuel : nat) (self : MeViSDataset) (idx : Z)
    (w w1 : World) (imgs : list TImg) (tgt : target TBox TMask) :
  iteration self idx w = (Ok (imgs, tgt), w1) ->
  has_valid tgt = false ->
  __getitem__ (S fuel) self idx w =
  __getitem__ fuel self (fst (draw 0 (__len__ self - 1) w1))
    (snd (draw 0 (__len__ self - 1) w1)).
Proof.
  intros Hit Hv. simpl. rewrite Hit, Hv.
  rewrite randint_catalog by (by eapply iteration_catalog_nonempty).
  reflexivity.
Qed.

Lemma getitem_return (fuel : nat) (self : MeViSDataset) (idx : Z)
    (w w1 : World) (imgs : list TImg) (tgt : target TBox TMask) :
  iteration self idx w = (Ok (imgs, tgt), w1) ->
  has_valid tgt = true ->
  __getitem__ (S fuel) self idx w = Some (Ok (imgs, tgt), w1).
Proof. intros Hit Hv. simpl. by rewrite Hit, Hv. Qed.

Lemma getitem_Ok (fuel : nat) (self : MeViSDataset) (idx : Z)
    (w w' : World) (imgs : list TImg) (tgt : target TBox TMask) :
  __getitem__ fuel self idx w = Some (Ok (imgs, tgt), w') ->
  exists idx_last w_last,
    reaches self idx w idx_last w_last /\
    iteration self idx_last w_last = (Ok (imgs, tgt), w') /\
    has_valid tgt = true.
Proof.
  revert idx w. induction fuel as [| fuel IH]; intros idx w H;
    [discriminate |].
  destruct (iteration self idx w) as [[[imgs1 tgt1] | e] w1] eqn:Hit.
  - destruct (has_valid tgt1) eqn:Hv.
    + rewrite (getitem_return _ _ _ _ _ _ _ Hit Hv) in H.
      injection H as <- <- <-. exists idx, w. split; [constructor | done].
    + rewrite (getitem_retry _ _ _ _ _ _ _ Hit Hv) in H.
      apply IH in H as (idxL & wL & Hreach & Hlast).
      exists idxL, wL. split; [| exact Hlast].
      eapply reaches_retry; [| exact Hreach].
      exists imgs1, tgt1, w1. repeat split; try done.
      * apply draw_range. by eapply iteration_catalog_nonempty.
      * apply draw_range. by eapply iteration_catalog_nonempty.
      * by destruct (draw 0 (__len__ self - 1) w1).
  - simpl in H. rewrite Hit in H. discriminate.
Qed.

Lemma getitem_more_fuel (fuel fuel' : nat) (self : MeViSDataset) (idx : Z)
    (w : World) (r : result (list TImg * target TBox TMask) * World) :
  __getitem__ fuel self idx w = Some r -> (fuel <= fuel')%nat ->
  __getitem__ fuel' self idx w = Some r.
Proof.
  revert fuel' idx w. induction fuel as [| fuel IH]; intros fuel' idx w H Hle;
    [discriminate |].
  destruct fuel' as [| fuel']; [lia |].
  simpl in *. destruct (iteration self idx w) as [[[imgs tgt] | e] w1];
    [| exact H].
  destruct (has_valid tgt); [exact H |].
  destruct (randint 0 (__len__ self - 1) w1) as [[idx' | e] w2]; [| exact H].
  apply IH; [exact H | lia].
Qed.

Lemma getitem_runs_on (self : MeViSDataset) :
  (forall i w0, 0 <= i < __len__ self ->
     exists imgs tgt w1,
       iteration self i w0 = (Ok (imgs, tgt), w1) /\ has_valid tgt = false) ->
  forall fuel idx w, 0 <= idx < __len__ self ->
    __getitem__ fuel self idx w = None.
Proof.
  intros Hall. induction fuel as [| fuel IH]; intros idx w Hidx;
    [reflexivity |].
  destruct (Hall idx w Hidx) as (imgs & tgt & w1 & Hit & Hv).
  rewrite (getitem_retry _ _ _ _ _ _ _ Hit Hv). apply IH.
  pose proof (draw_range 0 (__len__ self - 1) w1). lia.
Qed.

(** The loop returns once the chain of retries reaches a valid pass. *)
Lemma getitem_reaches_returns (self : MeViSDataset) (idx idx_last : Z)
    (w w_last w' : World) (imgs : list TImg) (tgt : target TBox TMask) :
  reaches self idx w idx_last w_last ->
  iteration self idx_last w_last = (Ok (imgs, tgt), w') ->
  has_valid tgt = true ->
  exists fuel, __getitem__ fuel self idx w = Some (Ok (imgs, tgt), w').
Proof.
  induction 1 as [idx w | idx w idx1 w1 idx2 w2 Hretry _ IH]; intros Hit Hv.
  - exists 1%nat. by apply getitem_return.
  - destruct (IH Hit Hv) as [fuel Hfuel].
    destruct Hretry as (imgs0 & tgt0 & w0 & Hit0 & Hv0 & _ & Hdraw).
    exists (S fuel). rewrite (getitem_retry _ _ _ _ _ _ _ Hit0 Hv0).
    by rewrite Hdraw.
Qed.

End RetryLoop.

(** ** The sample builder returns a sample with a valid frame, or retries *)

(** C1. A sample that [__getitem__] returns has a position whose [valid]
    flag is 1. A pass whose augmented target has no such position is
    discarded: the loop goes on from the index that [random.randint] draws
    with the bounds 0 and [len - 1] of the whole catalog, an index of the
    catalog; a pass with such a position is returned at once. The loop has
    no bound of its own: on a dataset where every pass leaves no valid
    position it is still running after any number of passes; a result
    reached within some number of passes is the result for every larger
    number, and the loop returns as soon as its chain of retries reaches a
    pass with a valid position. *)
Theorem getitem_valid_or_retry `{E : Env} (self : MeViSDataset) :
  (forall fuel idx w imgs tgt w',
     __getitem__ fuel self idx w = Some (Ok (imgs, tgt), w') ->
     exists p, valid tgt !! p = Some 1) /\
  (forall fuel idx w imgs tgt w1,
     iteration self idx w = (Ok (imgs, tgt), w1) ->
     (forall p, valid tgt !! p <> Some 1) ->
     let drawn := draw 0 (__len__ self - 1) w1 in
     0 <= fst drawn <= __len__ self - 1 /\
     __getitem__ (S fuel) self idx w =
       __getitem__ fuel self (fst drawn) (snd drawn)) /\
  (forall fuel idx w imgs tgt w1,
     iteration self idx w = (Ok (imgs, tgt), w1) ->
     (exists p, valid tgt !! p = Some 1) ->
     __getitem__ (S fuel) self idx w = Some (Ok (imgs, tgt), w1)) /\
  ((forall i w0, 0 <= i < __len__ self ->
      exists imgs tgt w1,
        iteration self i w0 = (Ok (imgs, tgt), w1) /\
        forall p, valid tgt !! p <> Some 1) ->
   forall fuel idx w, 0 <= idx < __len__ self ->
     __getitem__ fuel self idx w = None) /\
  (forall fuel fuel' idx w r,
     __getitem__ fuel self idx w = Some r -> (fuel <= fuel')%nat ->
     __getitem__ fuel' self idx w = Some r) /\
  (forall idx w idx_last w_last imgs tgt w',
     reaches self idx w idx_last w_last ->
     iteration self idx_last w_last = (Ok (imgs, tgt), w') ->
     (exists p, valid tgt !! p = Some 1) ->
     exists fuel, __getitem__ fuel self idx w = Some (Ok (imgs, tgt), w')).
Proof.
  repeat split.
  - intros fuel idx w imgs tgt w' H.
    apply getitem_Ok in H as (idxL & wL & _ & _ & Hv).
    by apply has_valid_true.
  - apply draw_range. by eapply iteration_catalog_nonempty.
  - apply draw_range. by eapply iteration_catalog_nonempty.
  - apply getitem_retry with (imgs := imgs) (tgt := tgt); [done |].
    by apply has_valid_false.
  - intros fuel idx w imgs tgt w1 Hit Hv.
    apply getitem_return; [done |]. by apply has_valid_true.
  - intros Hall. apply getitem_runs_on. intros i w0 Hi.
    destruct (Hall i w0 Hi) as (imgs & tgt & w1 & Hit & Hv).
    exists imgs, tgt, w1. split; [done |]. by apply has_valid_false.
  - intros fuel fuel' idx w r. apply getitem_more_fuel.
  - intros idx w idxL wL imgs tgt w' Hreach Hit Hv%has_valid_true.
    by eapply getitem_reaches_returns.
Qed.

Lemma getitem_valid_or_retry_witness :
  (exists p, valid (Demo.target_in (iteration Demo.dataset 0 1%nat)) !! p
             = Some 1) /\
  __getitem__ 2 Demo.dataset 4 0%nat = __getitem__ 1 Demo.dataset 0 1%nat /\
  __getitem__ 1 Demo.dataset 0 1%nat
    = Some (iteration Demo.dataset 0 1%nat) /\
  __getitem__ 7 Demo.dataset_empty_masks 0 0%nat = None /\
  __getitem__ 5 Demo.dataset 4 0%nat = Some (iteration Demo.dataset 0 1%nat).
Proof.
  destruct (getitem_valid_or_retry Demo.dataset)
    as (Hvalid & Hretry & Hreturn & _ & Hfuel & _).
  destruct (getitem_valid_or_retry Demo.dataset_empty_masks)
    as (_ & _ & _ & Hruns & _).
  assert (Hpass0 : iteration Demo.dataset 0 1%nat =
            (Ok (Demo.imgs_of (iteration Demo.dataset 0 1%nat),
                 Demo.target_in (iteration Demo.dataset 0 1%nat)), 1%nat))
    by (vm_compute; reflexivity).
  assert (Hpass4 : iteration Demo.dataset 4 0%nat =
            (Ok (Demo.imgs_of (iteration Demo.dataset 4 0%nat),
                 Demo.target_in (iteration Demo.dataset 4 0%nat)), 0%nat))
    by (vm_compute; reflexivity).
  assert (Hv0 : exists p,
            valid (Demo.target_in (iteration Demo.dataset 0 1%nat)) !! p
            = Some 1) by (exists 1%nat; vm_compute; reflexivity).
  assert (Hv4 : forall p,
            valid (Demo.target_in (iteration Demo.dataset 4 0%nat)) !! p
            <> Some 1).
  { intros [| [| p]]; vm_compute; discriminate. }
  assert (Hone : __getitem__ 1 Demo.dataset 0 1%nat
                 = Some (iteration Demo.dataset 0 1%nat)).
  { etrans; [exact (Hreturn 0%nat 0 1%nat _ _ _ Hpass0 Hv0) |].
    exact (eq_sym (f_equal Some Hpass0)). }
  assert (Htwo : __getitem__ 2 Demo.dataset 4 0%nat
                 = __getitem__ 1 Demo.dataset 0 1%nat).
  { exact (proj2 (Hretry 1%nat 4 0%nat _ _ _ Hpass4 Hv4)). }
  split.
  { exact (Hvalid 1%nat 0 1%nat _ _ _
             (Hreturn 0%nat 0 1%nat _ _ _ Hpass0 Hv0)). }
  split; [exact Htwo |].
  split; [exact Hone |].
  split.
  { assert (Hlen : __len__ Demo.dataset_empty_masks = 1) by reflexivity.
    apply Hruns; [| rewrite Hlen; lia].
    intros i w0 Hi. rewrite Hlen in Hi.
    assert (i = 0) as -> by lia.
    exists (Demo.imgs_of (iteration Demo.dataset_empty_masks 0 w0)),
           (Demo.target_in (iteration Demo.dataset_empty_masks 0 w0)), w0.
    split; [vm_compute; reflexivity |].
    intros [| [| p]]; vm_compute; discriminate. }
  apply (Hfuel 2%nat 5%nat); [| lia]. by rewrite Htwo.
Defined.

(** ** Which task the returned sample describes *)

Lemma reaches_no_retry `{E : Env} (self : MeViSDataset) (idx idx' : Z)
    (w w' w1 : World) (imgs : list TImg) (tgt : target TBox TMask) :
  reaches self idx w idx' w' ->
  iteration self idx w = (Ok (imgs, tgt), w1) ->
  has_valid tgt = true ->
  idx' = idx /\ w' = w.
Proof.
  intros Hreach Hit Hv.
  inversion Hreach as [| i0 v0 i1 v1 i2 v2 Hretry Hrest]; subst; [done |].
  destruct Hretry as (imgs0 & tgt0 & v3 & Hit0 & Hv0 & _).
  rewrite Hit in Hit0. injection Hit0 as <- <- <-. congruence.
Qed.

Lemma build_target_identity `{E : Env} (self : MeViSDataset) (idx : Z)
    (w w' : World) (imgs : list Image) (tgt : target box array) :
  build_target self idx w = (Ok (imgs, tgt), w') ->
  exists meta,
    py_index (metas self) idx = Ok meta /\
    exp_id tgt = idx /\
    caption tgt = clean_caption (m_exp meta) /\
    video_id tgt = m_video meta.
Proof.
  intros (meta & si & Hmeta & _ & Has)%build_target_Ok.
  apply assemble_Ok in Has as (outs & img & _ & _ & _ & _ & ->).
  exists meta. done.
Qed.

(** C10 (as the code has it). The sample that [__getitem__] returns is the
    augmentation of the target built in the last pass of the retry loop:
    its pre-augmentation target carries as [exp_id] the index of that last
    pass, and its caption (for an ASCII expression), video id, boxes, masks
    and valid flags are those built from the catalog entry at that index.
    The index of the last pass is the requested one when the first pass
    already has a valid frame; after a retry it is an index drawn from the
    catalog, whichever it is. Whenever the augmentation leaves [exp_id],
    [caption] and [video_id] untouched, the returned target carries them as
    well. And the loop does return that sample: once the chain of retries
    of a call reaches a pass with a valid frame, the call returns the
    outcome of that pass. *)
Theorem returned_sample_is_of_last_index `{E : Env} (self : MeViSDataset) :
  (forall fuel idx w imgs' tgt' w',
     __getitem__ fuel self idx w = Some (Ok (imgs', tgt'), w') ->
     exists idx_last w_last meta imgs tgt w1,
       reaches self idx w idx_last w_last /\
       py_index (metas self) idx_last = Ok meta /\
       build_target self idx_last w_last = (Ok (imgs, tgt), w1) /\
       _transforms self imgs tgt w1 = (Ok (imgs', tgt'), w') /\
       (exp_id tgt = idx_last /\
        video_id tgt = m_video meta /\
        (isascii (m_exp meta) = true ->
         caption tgt = clean_caption (m_exp meta))) /\
       (keeps_identity (_transforms self) ->
        exp_id tgt' = idx_last /\
        video_id tgt' = m_video meta /\
        caption tgt' = caption tgt /\
        (isascii (m_exp meta) = true ->
         caption tgt' = clean_caption (m_exp meta))) /\
       (forall imgs0 tgt0 w0,
          iteration self idx w = (Ok (imgs0, tgt0), w0) ->
          (exists p, valid tgt0 !! p = Some 1) ->
          idx_last = idx) /\
       (forall imgs0 tgt0 w0,
          iteration self idx w = (Ok (imgs0, tgt0), w0) ->
          (forall p, valid tgt0 !! p <> Some 1) ->
          let drawn := draw 0 (__len__ self - 1) w0 in
          0 <= fst drawn <= __len__ self - 1 /\
          reaches self (fst drawn) (snd drawn) idx_last w_last)) /\
  (forall idx w idx_last w_last imgs' tgt' w',
     reaches self idx w idx_last w_last ->
     iteration self idx_last w_last = (Ok (imgs', tgt'), w') ->
     (exists p, valid tgt' !! p = Some 1) ->
     exists fuel,
       __getitem__ fuel self idx w = Some (Ok (imgs', tgt'), w') /\
       (keeps_identity (_transforms self) -> exp_id tgt' = idx_last)).
Proof.
  split.
  - intros fuel idx w imgs' tgt' w' H.
    apply getitem_Ok in H as (idxL & wL & Hreach & Hit & Hv).
    pose proof Hit as (imgs & tgt & w1 & Hb & Htr & _)%iteration_Ok.
    pose proof Hb as (meta & Hmeta & Hid & Hcap & Hvid)%build_target_identity.
    exists idxL, wL, meta, imgs, tgt, w1.
    split; [exact Hreach |]. split; [exact Hmeta |]. split; [exact Hb |].
    split; [exact Htr |]. split; [done |]. split; [| split].
    + intros Hkeep. destruct (Hkeep _ _ _ _ _ _ Htr) as (-> & Hc & ->).
      repeat split; try done. intros _. by rewrite Hc.
    + intros imgs0 tgt0 w0 Hit0 Hv0%has_valid_true.
      by destruct (reaches_no_retry _ _ _ _ _ _ _ _ Hreach Hit0 Hv0).
    + intros imgs0 tgt0 w0 Hit0 Hv0%has_valid_false.
      inversion Hreach as [| i0 v0 i1 v1 i2 v2 Hretry Hrest]; subst.
      * rewrite Hit in Hit0. injection Hit0 as <- <- <-. congruence.
      * destruct Hretry as (j1 & t1 & v3 & Hit1 & _ & Hrange & Hdraw).
        rewrite Hit0 in Hit1. injection Hit1 as <- <- <-.
        cbv zeta. rewrite Hdraw. simpl. done.
  - intros idx w idxL wL imgs' tgt' w' Hreach Hit Hv%has_valid_true.
    destruct (getitem_reaches_returns _ _ _ _ _ _ _ _ Hreach Hit Hv)
      as [fuel Hfuel].
    exists fuel. split; [exact Hfuel |]. intros Hkeep.
    apply iteration_Ok in Hit as (imgs & tgt & w1 & Hb & Htr & _).
    apply build_target_identity in Hb as (meta & _ & Hid & _).
    destruct (Hkeep _ _ _ _ _ _ Htr) as (-> & _). exact Hid.
Qed.

Lemma returned_sample_is_of_last_index_witness :
  exists imgs tgt,
    __getitem__ 2 Demo.dataset 4 2%nat = Some (Ok (imgs, tgt), 3%nat) /\
    exp_id tgt = 2 /\
    caption tgt = "two things"%string /\
    video_id tgt = "v1"%string /\
    valid tgt = [0; 1].
Proof.
  assert (Hkeep : keeps_identity (_transforms Demo.dataset)).
  { intros imgs t w imgs' t' w' H. injection H as <- <- <-. done. }
  assert (Hpass4 : iteration Demo.dataset 4 2%nat =
            (Ok (Demo.imgs_of (iteration Demo.dataset 4 2%nat),
                 Demo.target_in (iteration Demo.dataset 4 2%nat)), 2%nat))
    by (vm_compute; reflexivity).
  assert (Hpass2 : iteration Demo.dataset 2 3%nat =
            (Ok (Demo.imgs_of (iteration Demo.dataset 2 3%nat),
                 Demo.target_in (iteration Demo.dataset 2 3%nat)), 3%nat))
    by (vm_compute; reflexivity).
  assert (Hreach : reaches Demo.dataset 4 2%nat 2 3%nat).
  { eapply reaches_retry; [| apply reaches_here].
    eexists _, _, _. split; [exact Hpass4 |].
    split; [vm_compute; reflexivity |].
    split; [change (0 <= 2 <= 8 - 1); lia | vm_compute; reflexivity]. }
  destruct (returned_sample_is_of_last_index Demo.dataset) as (_ & Hreturns).
  destruct (Hreturns 4 2%nat 2 3%nat _ _ _ Hreach Hpass2) as (fuel & _ & Hid).
  { exists 1%nat. vm_compute. reflexivity. }
  eexists _, _. split; [vm_compute; reflexivity |].
  split; [exact (Hid Hkeep) |].
  split; [vm_compute; reflexivity |].
  split; vm_compute; reflexivity.
Defined.

(** C10, refuted as stated: the returned [exp_id] equals the requested
    index also after a retry. The augmentation of this installation loses
    every instance in the generator state 6 and changes nothing otherwise.
    A call for the index 6 in the state 6 discards its first pass and
    draws; the draw returns 6 again, and the second pass, at the index 6,
    is returned with [exp_id] 6. *)
Lemma retry_can_return_requested_index :
  exists imgs tgt,
    retries Demo.dataset_cropping 6 6%nat 6 7%nat /\
    __getitem__ 1 Demo.dataset_cropping 6 6%nat = None /\
    __getitem__ 2 Demo.dataset_cropping 6 6%nat
      = Some (Ok (imgs, tgt), 7%nat) /\
    exp_id tgt = 6.
Proof.
  eexists _, _. split; [| split; [| split]].
  - eexists _, _, _. split; [vm_compute; reflexivity |].
    split; [vm_compute; reflexivity |].
    split; [change (0 <= 6 <= 8 - 1); lia | vm_compute; reflexivity].
  - vm_compute. reflexivity.
  - vm_compute. reflexivity.
  - reflexivity.
Qed.

(** ** The per-frame sequences and the boxes of an assembled sample *)

Section Assembled.
Context `{E : Env}.

Lemma assemble_lengths (self : MeViSDataset) (idx : Z) (meta : Meta)
    (sample_indx : list Z) (imgs : list Image) (tgt : target box array) :
  assemble self idx meta sample_indx = Ok (imgs, tgt) ->
  1 <= num_frames self /\
  len imgs = num_frames self /\
  len (labels tgt) = num_frames self /\
  len (boxes tgt) = num_frames self /\
  len (masks tgt) = num_frames self /\
  len (valid tgt) = num_frames self.
Proof.
  intros (outs & img & Houts & Hlast & _ & -> & ->)%assemble_Ok.
  apply rmap_Ok_length in Houts. rewrite py_range_length in Houts.
  assert (Hne : length outs <> 0%nat).
  { destruct outs; [discriminate | simpl; lia]. }
  unfold len, target_of. simpl. rewrite !length_map. lia.
Qed.

Lemma build_target_lengths (self : MeViSDataset) (idx : Z) (w w1 : World)
    (imgs : list Image) (tgt : target box array) :
  build_target self idx w = (Ok (imgs, tgt), w1) ->
  len imgs = num_frames self /\
  len (labels tgt) = num_frames self /\
  len (boxes tgt) = num_frames self /\
  len (masks tgt) = num_frames self /\
  len (valid tgt) = num_frames self.
Proof.
  intros (meta & si & _ & _ & Has)%build_target_Ok.
  by apply assemble_lengths in Has as (_ & ?).
Qed.



End Assembled.

(** C8. The five per-frame sequences of the target that the sample builder
    assembles, and the image list that goes with it, all have exactly
    [num_frames] entries; the sample that [__getitem__] returns is the
    augmentation of such a target, and its sequences have [num_frames]
    entries whenever the augmentation keeps the number of entries. *)
Theorem sample_sequences_have_clip_length `{E : Env} (self : MeViSDataset) :
  (forall idx w w1 imgs tgt,
     build_target self idx w = (Ok (imgs, tgt), w1) ->
     len imgs = num_frames self /\
     len (labels tgt) = num_frames self /\
     len (boxes tgt) = num_frames self /\
     len (masks tgt) = num_frames self /\
     len (valid tgt) = num_frames self) /\
  (forall fuel idx w w' imgs' tgt',
     __getitem__ fuel self idx w = Some (Ok (imgs', tgt'), w') ->
     exists idx_last w_last imgs tgt w1,
       build_target self idx_last w_last = (Ok (imgs, tgt), w1) /\
       _transforms self imgs tgt w1 = (Ok (imgs', tgt'), w') /\
       (keeps_lengths (_transforms self) ->
        len imgs' = num_frames self /\
        len (labels tgt') = num_frames self /\
        len (boxes tgt') = num_frames self /\
        len (masks tgt') = num_frames self /\
        len (valid tgt') = num_frames self)).
Proof.
  assert (Hpre : forall idx w w1 imgs tgt,
     build_target self idx w = (Ok (imgs, tgt), w1) ->
     len imgs = num_frames self /\
     len (labels tgt) = num_frames self /\
     len (boxes tgt) = num_frames self /\
     len (masks tgt) = num_frames self /\
     len (valid tgt) = num_frames self).
  { intros idx w w1 imgs tgt. apply build_target_lengths. }
  split; [exact Hpre |].
  intros fuel idx w w' imgs' tgt' H.
  apply getitem_Ok in H as (idxL & wL & _ & Hit & _).
  apply iteration_Ok in Hit as (imgs & tgt & w1 & Hb & Htr & _).
  exists idxL, wL, imgs, tgt, w1. split; [exact Hb |]. split; [exact Htr |].
  intros Hkeep. destruct (Hkeep _ _ _ _ _ _ Htr) as (Hi & Hl & Hbx & Hm & Hv).
  destruct (Hpre _ _ _ _ _ Hb) as (? & ? & ? & ? & ?).
  unfold len in *. rewrite Hi, Hl, Hbx, Hm, Hv. done.
Qed.

Lemma sample_sequences_have_clip_length_witness :
  let tgt := Demo.target_in (default (Raise IndexError, 0%nat)
                               (__getitem__ 2 Demo.dataset 4 0%nat)) in
  len (labels tgt) = 2 /\ len (boxes tgt) = 2 /\ len (masks tgt) = 2 /\
  len (valid tgt) = 2 /\
  len (masks (Demo.target_in (build_target Demo.dataset 2 0%nat))) = 2.
Proof.
  assert (Hkeep : keeps_lengths (_transforms Demo.dataset)).
  { intros imgs t w imgs' t' w' H. injection H as <- <- <-. done. }
  assert (Hret : __getitem__ 2 Demo.dataset 4 0%nat =
            Some (Ok (Demo.imgs_of (iteration Demo.dataset 0 1%nat),
                      Demo.target_in (iteration Demo.dataset 0 1%nat)),
                  1%nat)) by (vm_compute; reflexivity).
  assert (Hpre : build_target Demo.dataset 2 0%nat =
            (Ok (Demo.imgs_of (build_target Demo.dataset 2 0%nat),
                 Demo.target_in (build_target Demo.dataset 2 0%nat)), 0%nat))
    by (vm_compute; reflexivity).
  destruct (sample_sequences_have_clip_length Demo.dataset) as [Hb Hg].
  destruct (Hg 2%nat 4 0%nat _ _ _ Hret)
    as (idxL & wL & imgs & tgt & w1 & _ & _ & Hlen).
  destruct (Hlen Hkeep) as (_ & Hl & Hbx & Hm & Hv).
  destruct (Hb 2 0%nat _ _ _ Hpre) as (_ & _ & _ & Hm2 & _).
  cbv zeta. rewrite Hret. simpl default.
  change (num_frames Demo.dataset) with 2 in *. done.
Defined.



(** ** Metadata preparation *)

Lemma py_range3_nonzero (vid_len nf : Z) :
  nf <> 0 -> py_range3 0 vid_len nf = Ok (anchors_code vid_len nf).
Proof.
  intros Hnf. unfold py_range3.
  destruct (Z.eqb_spec nf 0) as [| _]; [contradiction | reflexivity].
Qed.

Lemma metas_of_video_nonzero (nf : Z) (vid : string) (vid_data : VideoData)
    (acc : list Meta) :
  nf <> 0 ->
  metas_of_video nf vid vid_data acc =
  Ok (acc ++
      flat_map (fun '(_, exp_dict) =>
         map (make_meta vid exp_dict (sorted (v_frames vid_data)))
             (anchors_code (len (sorted (v_frames vid_data))) nf))
        (v_expressions vid_data)).
Proof.
  intros Hnf. unfold metas_of_video.
  generalize (sorted (v_frames vid_data)) as frames. intros frames.
  rewrite (py_range3_nonzero (len frames) nf Hnf).
  revert acc.
  induction (v_expressions vid_data) as [| [exp_id exp_dict] exps IH];
    intros acc; simpl.
  - by rewrite app_nil_r.
  - etrans; [apply IH |]. by rewrite <- app_assoc.
Qed.

Lemma prepare_metas_nonzero (nf : Z) (manifest : Manifest) :
  nf <> 0 ->
  prepare_metas nf manifest = Ok (map fst manifest, catalog_code nf manifest).
Proof.
  intros Hnf. unfold prepare_metas.
  assert (Hfold : forall acc,
    rfold (fun acc '(vid, vid_data) => metas_of_video nf vid vid_data acc)
          manifest acc = Ok (acc ++ catalog_code nf manifest)).
  { induction manifest as [| [vid vid_data] rest IH]; intros acc; simpl.
    - by rewrite app_nil_r.
    - rewrite metas_of_video_nonzero by done. simpl.
      etrans; [apply IH |]. by rewrite <- app_assoc. }
  rewrite Hfold. reflexivity.
Qed.

Lemma StronglySorted_seq (j n : nat) : StronglySorted lt (seq j n).
Proof.
  revert j. induction n as [| n IH]; intros j; simpl; constructor.
  - apply IH.
  - apply Forall_forall. intros k Hk%elem_of_seq. lia.
Qed.

Lemma StronglySorted_filter {A} (R : relation A) (P : A -> Prop)
    `{forall x, Decision (P x)} (l : list A) :
  StronglySorted R l -> StronglySorted R (filter P l).
Proof.
  induction 1 as [| x l Hl IH Hx]; [constructor |].
  rewrite filter_cons. destruct (decide (P x)); [| exact IH].
  constructor; [exact IH |].
  apply Forall_forall. intros y [_ Hy]%list_elem_of_filter.
  rewrite Forall_forall in Hx. by apply Hx.
Qed.

Lemma StronglySorted_lt_NoDup (l : list Z) : StronglySorted Z.lt l -> NoDup l.
Proof.
  induction 1 as [| x l Hl IH Hx]; constructor; [| exact IH].
  intros Hin. rewrite Forall_forall in Hx. specialize (Hx x Hin). lia.
Qed.

Lemma anchors_code_sorted (vid_len nf : Z) :
  0 < nf -> StronglySorted Z.lt (anchors_code vid_len nf).
Proof.
  intros Hnf. unfold anchors_code.
  apply (StronglySorted_fmap _ lt Z.lt); [| apply StronglySorted_seq].
  intros x y Hxy. nia.
Qed.

Lemma anchors_spec_sorted (vid_len nf : Z) :
  StronglySorted Z.lt (anchors_spec vid_len nf).
Proof.
  unfold anchors_spec, py_range. apply StronglySorted_filter.
  apply (StronglySorted_fmap _ lt Z.lt); [| apply StronglySorted_seq].
  intros x y Hxy. lia.
Qed.

Lemma elem_of_anchors_code (vid_len nf a : Z) :
  0 < nf ->
  a ∈ anchors_code vid_len nf <->
  0 <= a < vid_len /\ exists k, 0 <= k /\ a = k * nf.
Proof.
  intros Hnf. unfold anchors_code, range_count.
  destruct (Z.ltb_spec 0 nf) as [_ | ?]; [| lia].
  rewrite list_elem_of_fmap. setoid_rewrite elem_of_seq.
  replace (vid_len - 0 + nf - 1) with (vid_len + nf - 1) by lia.
  pose proof (Z.div_mod (vid_len + nf - 1) nf) as Hdm.
  pose proof (Z.mod_pos_bound (vid_len + nf - 1) nf Hnf) as Hmb.
  split.
  - intros (k & -> & _ & Hk). split; [nia | exists (Z.of_nat k); lia].
  - intros (Ha & k & Hk & ->). exists (Z.to_nat k). split; [lia |].
    split; [lia |].
    assert (k + 1 <= (vid_len + nf - 1) / nf)
      by (apply Z.div_le_lower_bound; nia).
    lia.
Qed.

Lemma elem_of_anchors_spec (vid_len nf a : Z) :
  0 < nf ->
  a ∈ anchors_spec vid_len nf <->
  0 <= a < vid_len /\ exists k, 0 <= k /\ a = k * nf.
Proof.
  intros Hnf. unfold anchors_spec, py_range.
  rewrite list_elem_of_filter, list_elem_of_fmap.
  setoid_rewrite elem_of_seq. split.
  - intros (Hmod & j & -> & Hj). split; [lia |].
    exists (Z.of_nat j / nf). split; [apply Z.div_pos; lia |].
    pose proof (Z.div_mod (Z.of_nat j) nf). lia.
  - intros (Ha & k & Hk & ->). split; [apply Z.mod_mul; lia |].
    exists (Z.to_nat (k * nf)). lia.
Qed.

Lemma anchors_code_spec (vid_len nf : Z) :
  0 < nf -> anchors_code vid_len nf = anchors_spec vid_len nf.
Proof.
  intros Hnf.
  apply (StronglySorted_unique_strong Z.lt).
  - intros; lia.
  - by apply anchors_code_sorted.
  - apply anchors_spec_sorted.
  - apply NoDup_Permutation.
    + by apply StronglySorted_lt_NoDup, anchors_code_sorted.
    + apply StronglySorted_lt_NoDup, anchors_spec_sorted.
    + intros a. by rewrite elem_of_anchors_code, elem_of_anchors_spec.
Qed.

Lemma catalog_code_spec (nf : Z) (manifest : Manifest) :
  0 < nf -> catalog_code nf manifest = catalog_spec nf manifest.
Proof.
  intros Hnf. unfold catalog_code, catalog_spec.
  apply flat_map_ext. intros [vid vid_data]. cbv zeta.
  apply flat_map_ext. intros [exp_id exp_dict].
  rewrite anchors_code_spec by done. apply map_ext. intros anchor.
  unfold make_meta, int_, str_. by rewrite !map_id.
Qed.

Lemma elem_of_catalog_code (nf : Z) (manifest : Manifest) (m : Meta) :
  m ∈ catalog_code nf manifest ->
  exists vid vid_data exp_id exp_dict anchor,
    (vid, vid_data) ∈ manifest /\
    (exp_id, exp_dict) ∈ v_expressions vid_data /\
    anchor ∈ anchors_code (len (sorted (v_frames vid_data))) nf /\
    m = make_meta vid exp_dict (sorted (v_frames vid_data)) anchor.
Proof.
  unfold catalog_code. rewrite list_elem_of_In, in_flat_map.
  intros ([vid vid_data] & Hvid & Hm). cbv zeta in Hm.
  apply in_flat_map in Hm as ([exp_id exp_dict] & Hexp & Hm).
  apply in_map_iff in Hm as (anchor & <- & Hanchor).
  exists vid, vid_data, exp_id, exp_dict, anchor.
  rewrite !list_elem_of_In. done.
Qed.

(** C4. For a positive clip length, [prepare_metas] returns the videos of
    the manifest and the catalog that has, for every video and every
    expression of it, in manifest order, exactly one entry per anchor, the
    anchors being the multiples 0, clip_length, 2 * clip_length, ... of the
    clip length below the number of frames, each once and in increasing
    order; the entry carries the video, the expression text, the object
    ids, the annotation ids, the frame names sorted lexicographically, and
    the anchor. *)
Theorem prepare_metas_catalog (nf : Z) (manifest : Manifest) :
  0 < nf ->
  prepare_metas nf manifest = Ok (map fst manifest, catalog_spec nf manifest)
  /\
  (forall names : list string,
     Sorted String.le (sorted names) /\ sorted names ≡ₚ names) /\
  (forall vid_len,
     StronglySorted Z.lt (anchors_spec vid_len nf) /\
     forall a, a ∈ anchors_spec vid_len nf <->
               0 <= a < vid_len /\ exists k, 0 <= k /\ a = k * nf).
Proof.
  intros Hnf. split; [| split].
  - rewrite prepare_metas_nonzero by lia. by rewrite catalog_code_spec.
  - intros names. unfold sorted. split.
    + apply Sorted_merge_sort. apply _.
    + apply merge_sort_Permutation.
  - intros vid_len. split; [apply anchors_spec_sorted |].
    intros a. by apply elem_of_anchors_spec.
Qed.

Lemma prepare_metas_catalog_witness :
  prepare_metas 5 Demo.ten_frames =
  Ok (["v1"],
      [ {| m_video := "v1"; m_exp := "A  Person"; m_obj_id := [1];
           m_anno_id := ["1"];
           m_frames := ["00"; "01"; "02"; "03"; "04";
                        "05"; "06"; "07"; "08"; "09"];
           m_frame_id := 0; m_category := 0 |};
        {| m_video := "v1"; m_exp := "A  Person"; m_obj_id := [1];
           m_anno_id := ["1"];
           m_frames := ["00"; "01"; "02"; "03"; "04";
                        "05"; "06"; "07"; "08"; "09"];
           m_frame_id := 5; m_category := 0 |} ]) /\
  sorted ["f3"; "f1"; "f0"; "f2"] = ["f0"; "f1"; "f2"; "f3"].
Proof.
  assert (Hnf : 0 < 5) by lia.
  destruct (prepare_metas_catalog 5 Demo.ten_frames Hnf) as (Hcat & _ & _).
  split; [| reflexivity].
  etrans; [exact Hcat |]. reflexivity.
Defined.

(** C5 (as the code has it). [prepare_metas] does not compare the two id
    lists of an expression: for every non-zero clip length it succeeds on
    every manifest, and the catalog holds exactly the entries made from an
    expression of a video of the manifest at an anchor; each entry carries
    the object ids and the annotation ids of the manifest expression it was
    made from, unchanged, each list with its own length. So the two lists
    of every entry have equal lengths when those of every manifest
    expression do. *)
Theorem prepare_metas_keeps_id_lengths (nf : Z) (manifest : Manifest) :
  nf <> 0 ->
  exists ms,
    prepare_metas nf manifest = Ok (map fst manifest, ms) /\
    (forall m, m ∈ ms <->
       exists vid vid_data exp_id e anchor,
         (vid, vid_data) ∈ manifest /\
         (exp_id, e) ∈ v_expressions vid_data /\
         anchor ∈ anchors_code (len (sorted (v_frames vid_data))) nf /\
         m = {| m_video := vid;
                m_exp := e_exp e;
                m_obj_id := e_obj_id e;
                m_anno_id := e_anno_id e;
                m_frames := sorted (v_frames vid_data);
                m_frame_id := anchor;
                m_category := 0 |}) /\
    (forall m, m ∈ ms ->
       exists e, from_expression manifest m e /\
         m_obj_id m = e_obj_id e /\
         m_anno_id m = e_anno_id e /\
         length (m_obj_id m) = length (e_obj_id e) /\
         length (m_anno_id m) = length (e_anno_id e)) /\
    ((forall vid vid_data exp_id e,
        (vid, vid_data) ∈ manifest ->
        (exp_id, e) ∈ v_expressions vid_data ->
        length (e_obj_id e) = length (e_anno_id e)) ->
     forall m, m ∈ ms -> length (m_obj_id m) = length (m_anno_id m)).
Proof.
  intros Hnf. exists (catalog_code nf manifest).
  split; [by apply prepare_metas_nonzero |].
  assert (Hmeta : forall vid e frames anchor,
     make_meta vid e frames anchor =
     {| m_video := vid; m_exp := e_exp e; m_obj_id := e_obj_id e;
        m_anno_id := e_anno_id e; m_frames := frames;
        m_frame_id := anchor; m_category := 0 |}).
  { intros vid e frames anchor. unfold make_meta, int_, str_.
    by rewrite !map_id. }
  assert (Hfrom : forall m, m ∈ catalog_code nf manifest ->
     exists e, from_expression manifest m e /\
       m_obj_id m = e_obj_id e /\ m_anno_id m = e_anno_id e /\
       length (m_obj_id m) = length (e_obj_id e) /\
       length (m_anno_id m) = length (e_anno_id e)).
  { intros m (vid & vd & eid & e & a & Hvid & Hexp & _ & ->)
             %elem_of_catalog_code.
    exists e. split; [by exists vid, vd, eid |].
    rewrite Hmeta. simpl. done. }
  split; [| split; [exact Hfrom |]].
  - intros m. split.
    + intros (vid & vd & eid & e & a & Hvid & Hexp & Ha & ->)
             %elem_of_catalog_code.
      exists vid, vd, eid, e, a. by rewrite Hmeta.
    + intros (vid & vd & eid & e & a & Hvid & Hexp & Ha & ->).
      rewrite <- Hmeta. unfold catalog_code.
      rewrite list_elem_of_In, in_flat_map.
      exists (vid, vd). split; [by apply list_elem_of_In |]. cbv zeta.
      apply in_flat_map. exists (eid, e).
      split; [by apply list_elem_of_In |].
      apply in_map. by apply list_elem_of_In.
  - intros Heq m Hm.
    destruct (Hfrom m Hm)
      as (e & (vid & vd & eid & Hvid & Hexp & _) & _ & _ & -> & ->).
    by eapply Heq.
Qed.

Lemma prepare_metas_keeps_id_lengths_witness :
  exists ms,
    prepare_metas 2 Demo.manifest = Ok (["v1"], ms) /\
    make_meta "v1" Demo.two_things ["f0"; "f1"; "f2"; "f3"] 2 ∈ ms /\
    forall m, m ∈ ms -> length (m_obj_id m) = length (m_anno_id m).
Proof.
  assert (Hnf : 2 <> 0) by lia.
  destruct (prepare_metas_keeps_id_lengths 2 Demo.manifest Hnf)
    as (ms & Hms & Hiff & _ & Heq).
  exists ms. split; [exact Hms |]. split.
  - apply Hiff.
    exists "v1"%string,
      {| v_frames := ["f3"; "f1"; "f0"; "f2"];
         v_expressions :=
           [("0", Demo.person); ("1", Demo.two_things);
            ("2", Demo.nothing); ("3", Demo.everywhere)]%string |},
      "1"%string, Demo.two_things, 2.
    split; [by left |]. split; [right; by left |].
    split; [| reflexivity].
    change (2 ∈ [0; 2]). right. by left.
  - apply Heq.
    intros vid vd eid e Hvid Hexp.
    apply list_elem_of_singleton in Hvid. injection Hvid as -> ->.
    simpl in Hexp.
    repeat (apply elem_of_cons in Hexp as [[= -> ->] | Hexp]; [reflexivity |]).
    by apply elem_of_nil in Hexp.
Defined.

(** C5, refuted as stated: on a manifest whose only expression has two
    object ids and one annotation id, [prepare_metas] succeeds and the
    catalog has an entry whose two id lists differ in length. *)
Lemma prepare_metas_mismatch_accepted :
  exists ms,
    prepare_metas 2 Demo.manifest_mismatched = Ok (["v1"], ms) /\
    exists m, m ∈ ms /\ length (m_obj_id m) <> length (m_anno_id m).
Proof.
  eexists. split; [vm_compute; reflexivity |].
  eexists. split; [left |]. simpl. lia.
Qed.

(** ** Accumulating masks *)

Lemma broadcast_length {A} (n : nat) (l l' : list A) :
  broadcast n l = Some l' -> length l' = n.
Proof.
  unfold broadcast. destruct (decide (length l = n)) as [Hn | _].
  - by intros [= <-].
  - destruct l as [| x [| y l]]; try discriminate.
    intros [= <-]. apply length_replicate.
Qed.

Lemma broadcast_Forall {A} (P : A -> Prop) (n : nat) (l l' : list A) :
  broadcast n l = Some l' -> Forall P l -> Forall P l'.
Proof.
  unfold broadcast. destruct (decide (length l = n)) as [Hn | _].
  - by intros [= <-].
  - destruct l as [| x [| y l]]; try discriminate.
    intros [= <-] Hx. apply Forall_replicate. by inversion Hx.
Qed.

Lemma broadcast_same {A} (n : nat) (l : list A) :
  length l = n -> broadcast n l = Some l.
Proof. intros Hn. unfold broadcast. by rewrite decide_True. Qed.

Lemma well_shaped_zeros (h w : nat) : well_shaped h w (zeros h w).
Proof.
  unfold well_shaped, zeros. split; [apply length_replicate |].
  apply Forall_replicate, length_replicate.
Qed.

Lemma well_shaped_shape (h w : nat) (m : array) :
  well_shaped h w m -> (0 < h)%nat -> shape m = (h, w).
Proof.
  intros [Hh Hw] Hpos. unfold shape. destruct m as [| row m]; simpl in *.
  - lia.
  - inversion Hw; subst. done.
Qed.

(** What [iadd] returns: the entrywise sum with the broadcast operand. *)
Lemma iadd_Ok (acc d r : array) :
  iadd acc d = Ok r ->
  exists rows,
    length rows = length acc /\
    Forall (fun row => length row = length (hd [] acc)) rows /\
    (forall P, Forall (Forall P) d -> Forall (Forall P) rows) /\
    r = zip_with (zip_with Z.add) acc rows.
Proof.
  unfold iadd, shape. intros H.
  destruct (broadcast (length acc) d) as [rows0 |] eqn:Hb; [| discriminate].
  destruct (mapM _ rows0) as [rows |] eqn:Hm; [| discriminate].
  injection H as <-. exists rows.
  apply mapM_Some in Hm. pose proof (Forall2_length _ _ _ Hm) as Hlen.
  apply broadcast_length in Hb as Hlen0.
  split; [lia |]. split; [| split; [| reflexivity]].
  - apply (Forall2_Forall_r _ _ _ _ Hm). apply Forall_true. intros x y Hxy.
    by apply broadcast_length in Hxy.
  - intros P HP. apply (broadcast_Forall _ _ _ _ Hb) in HP.
    clear -Hm HP. induction Hm as [| x y l k Hxy Hm IH]; [constructor |].
    inversion HP; subst. constructor; [| by apply IH].
    by eapply broadcast_Forall.
Qed.

Lemma iadd_well_shaped (h w : nat) (acc d r : array) :
  well_shaped h w acc -> iadd acc d = Ok r -> well_shaped h w r.
Proof.
  intros [Hh Hw] (rows & Hlen & Hrows & _ & ->)%iadd_Ok. split.
  - rewrite length_zip_with_l_eq; done.
  - apply Forall_lookup. intros i row Hi.
    apply lookup_zip_with_Some in Hi as (a & b & -> & Ha & Hb).
    rewrite Forall_lookup in Hw, Hrows.
    pose proof (Hw _ _ Ha) as Hla. pose proof (Hrows _ _ Hb) as Hlb.
    rewrite length_zip_with_l_eq; [done |].
    destruct acc as [| a0 acc]; [done |]. simpl in Hlb.
    rewrite Hla, Hlb. symmetry. apply (Hw 0%nat a0). reflexivity.
Qed.

Lemma zip_with_add_zeros (w : nat) (row : list Z) :
  length row = w -> zip_with Z.add (replicate w 0) row = row.
Proof.
  revert w. induction row as [| x row IH]; intros [| w] Hw; simpl in *;
    try done.
  f_equal. apply IH. lia.
Qed.

(** Adding a mask of the frame's shape to the zero accumulator gives the
    mask. *)
Lemma iadd_zeros (h w : nat) (d : array) :
  well_shaped h w d -> iadd (zeros h w) d = Ok d.
Proof.
  intros [Hh Hw]. unfold iadd, shape.
  assert (Hlz : length (zeros h w) = h) by apply length_replicate.
  rewrite Hlz. rewrite (broadcast_same h d Hh).
  assert (Hm : mapM (broadcast (length (hd [] (zeros h w)))) d = Some d).
  { apply mapM_Some. apply Forall2_same_length_lookup_2; [done |].
    intros i x y Hx Hy. rewrite Hx in Hy. injection Hy as <-.
    apply broadcast_same. rewrite Forall_lookup in Hw. rewrite (Hw _ _ Hx).
    destruct h; [| simpl; by rewrite length_replicate].
    destruct d; [done | discriminate]. }
  rewrite Hm. f_equal. clear Hm Hlz. unfold zeros. revert h Hh.
  induction d as [| row d IH]; intros [| h] Hh; simpl in *; try done.
  inversion Hw; subst. f_equal.
  - by apply zip_with_add_zeros.
  - apply IH; [done | lia].
Qed.

Lemma bounded_by_zeros (h w : nat) : bounded_by 0 (zeros h w).
Proof.
  unfold bounded_by, zeros. apply Forall_replicate, Forall_replicate. lia.
Qed.

Lemma binary_bounded (m : array) : binary m <-> bounded_by 1 m.
Proof.
  unfold binary, bounded_by. split; intros H;
    (eapply Forall_impl; [exact H |]); intros row Hrow;
    (eapply Forall_impl; [exact Hrow |]); simpl; lia.
Qed.

Lemma iadd_bounded (n : Z) (acc d r : array) :
  bounded_by n acc -> binary d -> iadd acc d = Ok r -> bounded_by (n + 1) r.
Proof.
  intros Hacc Hd (rows & _ & _ & Hrows & ->)%iadd_Ok.
  specialize (Hrows _ Hd). unfold bounded_by in *.
  apply Forall_lookup. intros i row Hi.
  apply lookup_zip_with_Some in Hi as (a & b & -> & Ha & Hb).
  rewrite Forall_lookup in Hacc, Hrows.
  pose proof (Hacc _ _ Ha) as Hba. pose proof (Hrows _ _ Hb) as Hbb.
  apply Forall_lookup. intros j p Hj.
  apply lookup_zip_with_Some in Hj as (x & y & -> & Hx & Hy).
  rewrite Forall_lookup in Hba, Hbb.
  specialize (Hba _ _ Hx). specialize (Hbb _ _ Hy). simpl in *. lia.
Qed.

Lemma bounded_by_mono (n n' : Z) (m : array) :
  n <= n' -> bounded_by n m -> bounded_by n' m.
Proof.
  intros Hn H. unfold bounded_by in *.
  eapply Forall_impl; [exact H |]. intros row Hrow.
  eapply Forall_impl; [exact Hrow |]. simpl. lia.
Qed.

Lemma any_positive_zeros (h w : nat) : any_positive (zeros h w) = false.
Proof.
  unfold any_positive, zeros. apply not_true_iff_false.
  rewrite existsb_exists. intros (row & Hrow & Hex).
  apply list_elem_of_In, elem_of_replicate_inv in Hrow. subst row.
  apply existsb_exists in Hex as (p & Hp & Hpos).
  apply list_elem_of_In, elem_of_replicate_inv in Hp. subst p. done.
Qed.

Section Accumulate.
Context `{E : Env}.

Lemma accumulate_step_Ok (self : MeViSDataset) (frame_indx : Z)
    (mask r : array) (x : string) :
  accumulate_step self frame_indx mask x = Ok r ->
  exists per_frame frm_anno,
    mask_dict self !! x = Some per_frame /\
    py_index per_frame frame_indx = Ok frm_anno /\
    match frm_anno with
    | Some rle => iadd mask (coco_decode rle) = Ok r
    | None => r = mask
    end.
Proof.
  unfold accumulate_step, py_getitem. intros H.
  destruct (mask_dict self !! x) as [per_frame |]; [| discriminate].
  simpl in H. apply rbind_Ok in H as (frm_anno & Hfrm & H).
  exists per_frame, frm_anno. split; [done |]. split; [done |].
  destruct frm_anno; [done | by injection H].
Qed.

Lemma accumulate_step_present (self : MeViSDataset) (frame_indx : Z)
    (mask : array) (x : string) (per_frame : list (option Rle)) (rle : Rle) :
  mask_dict self !! x = Some per_frame ->
  py_index per_frame frame_indx = Ok (Some rle) ->
  accumulate_step self frame_indx mask x = iadd mask (coco_decode rle).
Proof.
  intros Hx Hfrm. unfold accumulate_step, py_getitem. rewrite Hx. simpl.
  by rewrite Hfrm.
Qed.

Lemma accumulate_step_null (self : MeViSDataset) (frame_indx : Z)
    (mask : array) (x : string) (per_frame : list (option Rle)) :
  mask_dict self !! x = Some per_frame ->
  py_index per_frame frame_indx = Ok None ->
  accumulate_step self frame_indx mask x = Ok mask.
Proof.
  intros Hx Hfrm. unfold accumulate_step, py_getitem. rewrite Hx. simpl.
  by rewrite Hfrm.
Qed.

Lemma accumulate_mask_cons (self : MeViSDataset) (x : string)
    (xs : list string) (frame_indx : Z) (mask : array) :
  accumulate_mask self (x :: xs) frame_indx mask =
  accumulate_step self frame_indx mask x ≫=
    accumulate_mask self xs frame_indx.
Proof. reflexivity. Qed.

Lemma accumulate_mask_all_null (self : MeViSDataset) (ids : list string)
    (frame_indx : Z) (mask : array) :
  (forall x, x ∈ ids ->
     exists per_frame, mask_dict self !! x = Some per_frame /\
                       py_index per_frame frame_indx = Ok None) ->
  accumulate_mask self ids frame_indx mask = Ok mask.
Proof.
  induction ids as [| x ids IH]; intros Hall; [reflexivity |].
  rewrite accumulate_mask_cons.
  destruct (Hall x) as (per_frame & Hx & Hfrm); [by left |].
  rewrite (accumulate_step_null _ _ _ _ _ Hx Hfrm). simpl.
  apply IH. intros y Hy. apply Hall. by right.
Qed.

Lemma accumulate_mask_well_shaped (self : MeViSDataset) (ids : list string)
    (frame_indx : Z) (h w : nat) (mask r : array) :
  well_shaped h w mask ->
  accumulate_mask self ids frame_indx mask = Ok r -> well_shaped h w r.
Proof.
  revert mask. induction ids as [| x ids IH]; intros mask Hws H.
  - by injection H as <-.
  - rewrite accumulate_mask_cons in H.
    apply rbind_Ok in H as (mask' & Hstep & H).
    apply (IH mask'); [| exact H].
    apply accumulate_step_Ok in Hstep as (pf & [rle |] & _ & _ & Hr).
    + by eapply iadd_well_shaped.
    + by subst.
Qed.

Lemma accumulate_mask_bounded (self : MeViSDataset) (ids : list string)
    (frame_indx : Z) (n : Z) (mask r : array) :
  (forall rle, binary (coco_decode rle)) ->
  bounded_by n mask ->
  accumulate_mask self ids frame_indx mask = Ok r ->
  bounded_by (n + len ids) r.
Proof.
  intros Hbin. revert n mask. induction ids as [| x ids IH];
    intros n mask Hb H.
  - injection H as <-. unfold len. simpl. by rewrite Z.add_0_r.
  - rewrite accumulate_mask_cons in H.
    apply rbind_Ok in H as (mask' & Hstep & H).
    replace (n + len (x :: ids)) with ((n + 1) + len ids)
      by (unfold len; simpl length; lia).
    apply (IH _ mask'); [| exact H].
    apply accumulate_step_Ok in Hstep as (pf & [rle |] & _ & _ & Hr).
    + by eapply iadd_bounded.
    + subst. eapply bounded_by_mono; [| exact Hb]. lia.
Qed.

End Accumulate.

Lemma frame_step_Ok `{E : Env} (self : MeViSDataset) (meta : Meta)
    (sample_indx : list Z) (category_id j : Z) (out : FrameOut) :
  frame_step self meta sample_indx category_id j = Ok out ->
  exists frame_indx frame_name,
    py_index sample_indx j = Ok frame_indx /\
    py_index (m_frames meta) frame_indx = Ok frame_name /\
    image_open (img_path self (m_video meta) frame_name) = Ok (f_img out) /\
    accumulate_mask self (m_anno_id meta) frame_indx
      (zeros (snd (im_size (f_img out))) (fst (im_size (f_img out))))
      = Ok (f_mask out) /\
    box_and_valid (f_mask out) = Ok (f_box out, f_valid out) /\
    f_label out = category_id.
Proof.
  unfold frame_step. intros H.
  apply rbind_Ok in H as (frame_indx & Hfi & H).
  apply rbind_Ok in H as (frame_name & Hname & H).
  apply rbind_Ok in H as (img & Himg & H).
  destruct (im_size img) as [iw ih] eqn:Hsize.
  apply rbind_Ok in H as (mask & Hmask & H).
  apply rbind_Ok in H as ([bx v] & Hbox & H).
  injection H as <-. simpl. rewrite Hsize. simpl.
  exists frame_indx, frame_name. done.
Qed.

(** ** The frames of a successful pass *)

Lemma build_target_frames `{E : Env} (self : MeViSDataset) (idx : Z)
    (w0 w1 : World) (imgs : list Image) (tgt : target box array) :
  build_target self idx w0 = (Ok (imgs, tgt), w1) ->
  exists meta sample_indx outs img,
    py_index (metas self) idx = Ok meta /\
    Forall2 (fun j out => frame_step self meta sample_indx 0 j = Ok out)
      (py_range (num_frames self)) outs /\
    last (map f_img outs) = Some img /\
    (forall o1 o2, o1 ∈ outs -> o2 ∈ outs ->
       shape (f_mask o1) = shape (f_mask o2)) /\
    imgs = map f_img outs /\
    tgt = target_of idx meta sample_indx outs img.
Proof.
  intros (meta & si & Hmeta & _ & Has)%build_target_Ok.
  apply assemble_Ok in Has as (outs & img & Houts & Hlast & Hsh & -> & ->).
  exists meta, si, outs, img. repeat split; try done.
  by apply rmap_Ok.
Qed.

Lemma frame_mask_well_shaped `{E : Env} (self : MeViSDataset) (meta : Meta)
    (sample_indx : list Z) (category_id j : Z) (out : FrameOut) :
  frame_step self meta sample_indx category_id j = Ok out ->
  well_shaped (snd (im_size (f_img out))) (fst (im_size (f_img out)))
    (f_mask out).
Proof.
  intros (fi & name & _ & _ & _ & Hacc & _)%frame_step_Ok.
  eapply accumulate_mask_well_shaped; [| exact Hacc].
  apply well_shaped_zeros.
Qed.

(** ** The bounding box of a mask *)

Lemma elem_of_np_where_from (i : Z) (flags : list bool) (a : Z) :
  a ∈ np_where_from i flags <->
  exists k, flags !! k = Some true /\ a = i + Z.of_nat k.
Proof.
  revert i. induction flags as [| b flags IH]; intros i; simpl.
  - split; [by intros ?%elem_of_nil | by intros (k & ? & _)].
  - assert (Htail : a ∈ np_where_from (i + 1) flags <->
              exists k, (b :: flags) !! S k = Some true /\
                        a = i + Z.of_nat (S k)).
    { rewrite IH. split; intros (k & Hk & ->); exists k; split; try done; lia. }
    destruct b.
    + rewrite elem_of_cons, Htail. split.
      * intros [-> | (k & Hk & ->)]; [exists 0%nat | exists (S k)];
          split; try done; lia.
      * intros ([| k] & Hk & ->); [left; lia | right; by exists k].
    + rewrite Htail. split.
      * intros (k & Hk & ->). by exists (S k).
      * intros ([| k] & Hk & ->); [discriminate | by exists k].
Qed.

Lemma np_where_from_sorted (i : Z) (flags : list bool) :
  StronglySorted Z.lt (np_where_from i flags).
Proof.
  revert i. induction flags as [| b flags IH]; intros i; simpl;
    [constructor |].
  destruct b; [| apply IH]. constructor; [apply IH |].
  apply Forall_forall. intros a (k & _ & ->)%elem_of_np_where_from. lia.
Qed.

Lemma elem_of_np_where (flags : list bool) (a : Z) :
  a ∈ np_where flags <-> 0 <= a /\ flags !! Z.to_nat a = Some true.
Proof.
  unfold np_where. rewrite elem_of_np_where_from. split.
  - intros (k & Hk & ->). split; [lia |]. by rewrite Z.add_0_l, Nat2Z.id.
  - intros [Ha Hk]. exists (Z.to_nat a). split; [done | lia].
Qed.

(** On an increasing list, [xs[[0, -1]]] are the least and the greatest
    entry. *)
Lemma first_last_Ok (xs : list Z) (a b : Z) :
  StronglySorted Z.lt xs -> first_last xs = Ok (a, b) ->
  a ∈ xs /\ b ∈ xs /\ forall x, x ∈ xs -> a <= x <= b.
Proof.
  intros Hs H. unfold first_last in H.
  apply rbind_Ok in H as (a' & Ha & H).
  apply rbind_Ok in H as (b' & Hb & H). injection H as -> ->.
  split; [by eapply py_index_elem_of |].
  split; [by eapply py_index_elem_of |].
  intros x Hx.
  apply py_index_Ok in Ha as [[_ Ha] | [? _]]; [| lia].
  apply py_index_Ok in Hb as [[? _] | [Hlen Hb]]; [lia |].
  split.
  - destruct xs as [| a0 xs]; [discriminate |]. injection Ha as ->.
    apply StronglySorted_cons in Hs as [Hall _].
    apply elem_of_cons in Hx as [-> | Hx]; [lia |].
    rewrite Forall_forall in Hall. specialize (Hall x Hx). lia.
  - assert (Hlast : last xs = Some b).
    { rewrite last_lookup. rewrite <- Hb. f_equal. unfold len. lia. }
    apply last_Some in Hlast as (xs' & ->).
    apply elem_of_app in Hx as [Hx | Hx%list_elem_of_singleton]; [| lia].
    assert (x < b); [| lia].
    eapply StronglySorted_app_1_elem_of; [exact Hs | exact Hx |].
    by apply list_elem_of_singleton.
Qed.

Lemma py_index_total {A} (l : list A) (i : Z) :
  - len l <= i < len l -> exists a, py_index l i = Ok a.
Proof.
  intros Hi. unfold py_index.
  set (j := if i <? 0 then i + len l else i).
  assert (Hj : 0 <= j < len l).
  { unfold j. destruct (Z.ltb_spec i 0); lia. }
  destruct (Z.leb_spec 0 j); [| lia]. destruct (Z.ltb_spec j (len l)); [| lia].
  simpl. destruct (lookup_lt_is_Some_2 l (Z.to_nat j)) as [a Ha].
  { unfold len in Hj. lia. }
  exists a. by rewrite Ha.
Qed.

Lemma first_last_nonempty (xs : list Z) (x : Z) :
  x ∈ xs -> exists a b, first_last xs = Ok (a, b).
Proof.
  intros Hx. assert (Hlen : 0 < len xs).
  { destruct xs; [by apply elem_of_nil in Hx |]. unfold len. simpl. lia. }
  destruct (py_index_total xs 0) as [a Ha]; [lia |].
  destruct (py_index_total xs (-1)) as [b Hb]; [lia |].
  exists a, b. unfold first_last. rewrite Ha. simpl. by rewrite Hb.
Qed.

Lemma existsb_nonzero (row : list Z) :
  existsb nonzero row = true <-> exists c, nth c row 0 <> 0.
Proof.
  rewrite existsb_exists. unfold nonzero. split.
  - intros (p & Hin & Hp). apply (In_nth _ _ 0) in Hin as (c & _ & Hc).
    exists c. rewrite Hc. apply negb_true_iff in Hp. by apply Z.eqb_neq.
  - intros (c & Hc). exists (nth c row 0). split.
    + apply nth_In. destruct (le_lt_dec (length row) c) as [Hle | Hlt];
        [| exact Hlt].
      by rewrite nth_overflow in Hc.
    + apply negb_true_iff. by apply Z.eqb_neq.
Qed.

Lemma pixel_nonzero_in (h w : nat) (m : array) (r c : nat) :
  well_shaped h w m -> pixel m r c <> 0 -> (r < h)%nat /\ (c < w)%nat.
Proof.
  intros [Hh Hw] Hp. unfold pixel in Hp.
  destruct (le_lt_dec (length m) r) as [Hle | Hlt].
  { rewrite (nth_overflow m [] Hle) in Hp. by destruct c. }
  split; [lia |].
  destruct (le_lt_dec w c) as [Hle | Hlt']; [| exact Hlt'].
  rewrite Forall_forall in Hw.
  assert (Hrow : length (nth r m []) = w).
  { apply Hw, list_elem_of_In, nth_In. exact Hlt. }
  rewrite nth_overflow in Hp; [done | lia].
Qed.

Lemma any_axis1_lookup (m : array) (r : nat) :
  any_axis1 m !! r = Some true <-> exists c, pixel m r c <> 0.
Proof.
  unfold any_axis1, pixel.
  change (map (existsb nonzero) m) with (existsb nonzero <$> m).
  rewrite list_lookup_fmap_Some. split.
  - intros (row & Hex & Hrow). rewrite (nth_lookup_Some _ _ _ _ Hrow).
    by apply existsb_nonzero.
  - intros (c & Hc). exists (nth r m []). split.
    + symmetry. apply existsb_nonzero. by exists c.
    + destruct (nth_lookup_or_length m r []) as [Hrow | Hlen]; [exact Hrow |].
      rewrite (nth_overflow m [] Hlen) in Hc. by destruct c.
Qed.

Lemma any_axis0_lookup (h w : nat) (m : array) (c : nat) :
  well_shaped h w m ->
  any_axis0 m !! c = Some true <-> exists r, pixel m r c <> 0.
Proof.
  intros Hws. unfold any_axis0, pixel, shape. cbn [snd].
  set (f := fun c => existsb (fun row => nonzero (nth c row 0)) m).
  change (map f (seq 0 (length (hd [] m))))
    with (f <$> seq 0 (length (hd [] m))).
  assert (Hf : f c = true <-> exists r, nth c (nth r m []) 0 <> 0).
  { unfold f. rewrite existsb_exists. unfold nonzero. split.
    - intros (row & Hin & Hp). apply (In_nth _ _ []) in Hin as (r & _ & Hr).
      exists r. rewrite Hr. apply negb_true_iff in Hp. by apply Z.eqb_neq.
    - intros (r & Hr). exists (nth r m []). split.
      + apply nth_In. destruct (le_lt_dec (length m) r) as [Hle | Hlt];
          [| exact Hlt].
        rewrite (nth_overflow m [] Hle) in Hr. by destruct c.
      + apply negb_true_iff. by apply Z.eqb_neq. }
  rewrite list_lookup_fmap_Some. split.
  - intros (c' & Hfc & Hc). apply lookup_seq in Hc as [-> _].
    by apply Hf.
  - intros (r & Hr). exists c. split; [symmetry; apply Hf; by exists r |].
    destruct (pixel_nonzero_in h w m r c Hws Hr) as [Hrh Hcw].
    assert (Hhd : length (hd [] m) = w).
    { pose proof (well_shaped_shape h w m Hws ltac:(lia)) as Hsh.
      unfold shape in Hsh. by injection Hsh. }
    apply lookup_seq. lia.
Qed.

Lemma bounding_box_tight (h w : nat) (m : array) (rmin rmax cmin cmax : Z) :
  well_shaped h w m ->
  bounding_box m = Ok (rmin, rmax, cmin, cmax) ->
  tight_bbox m (cmin, rmin, cmax, rmax) /\
  rmax < Z.of_nat h /\ cmax < Z.of_nat w.
Proof.
  intros Hws H. unfold bounding_box in H.
  apply rbind_Ok in H as ([r1 r2] & Hrows & H).
  apply rbind_Ok in H as ([c1 c2] & Hcols & H).
  injection H as -> -> -> ->.
  apply first_last_Ok in Hrows as (Hrmin & Hrmax & Hrall);
    [| apply np_where_from_sorted].
  apply first_last_Ok in Hcols as (Hcmin & Hcmax & Hcall);
    [| apply np_where_from_sorted].
  apply elem_of_np_where in Hrmin as [Hrmin0 Hrmin].
  apply elem_of_np_where in Hrmax as [Hrmax0 Hrmax].
  apply elem_of_np_where in Hcmin as [Hcmin0 Hcmin].
  apply elem_of_np_where in Hcmax as [Hcmax0 Hcmax].
  apply any_axis1_lookup in Hrmin, Hrmax.
  apply (any_axis0_lookup h w m _ Hws) in Hcmin, Hcmax.
  split.
  - unfold tight_bbox. repeat split; try done.
    + apply Hrall, elem_of_np_where. split; [lia |].
      rewrite Nat2Z.id. apply any_axis1_lookup. by exists c.
    + apply Hrall, elem_of_np_where. split; [lia |].
      rewrite Nat2Z.id. apply any_axis1_lookup. by exists c.
    + apply Hcall, elem_of_np_where. split; [lia |].
      rewrite Nat2Z.id. apply (any_axis0_lookup h w m _ Hws). by exists r.
    + apply Hcall, elem_of_np_where. split; [lia |].
      rewrite Nat2Z.id. apply (any_axis0_lookup h w m _ Hws). by exists r.
  - destruct Hrmax as (c & Hc). destruct Hcmax as (r & Hr).
    apply (pixel_nonzero_in h w m _ _ Hws) in Hc, Hr. lia.
Qed.

Lemma any_positive_pixel (m : array) :
  any_positive m = true <-> exists r c, 0 < pixel m r c.
Proof.
  unfold any_positive, pixel. rewrite existsb_exists. split.
  - intros (row & Hrow & Hex). apply existsb_exists in Hex as (p & Hp & Hpos).
    apply (In_nth _ _ []) in Hrow as (r & _ & Hr).
    apply (In_nth _ _ 0) in Hp as (c & _ & Hc).
    exists r, c. rewrite Hr, Hc. by apply Z.ltb_lt.
  - intros (r & c & Hpos).
    assert (Hr : (r < length m)%nat).
    { destruct (le_lt_dec (length m) r) as [Hle | Hlt]; [| exact Hlt].
      rewrite (nth_overflow m [] Hle) in Hpos. destruct c; simpl in Hpos; lia. }
    assert (Hc : (c < length (nth r m []))%nat).
    { destruct (le_lt_dec (length (nth r m [])) c) as [Hle | Hlt];
        [| exact Hlt].
      rewrite (nth_overflow _ 0 Hle) in Hpos. lia. }
    exists (nth r m []). split; [by apply nth_In |].
    apply existsb_exists. exists (nth c (nth r m []) 0).
    split; [by apply nth_In | by apply Z.ltb_lt].
Qed.

(** On a mask with a positive entry [bounding_box] raises nothing. *)
Lemma bounding_box_total (h w : nat) (m : array) :
  well_shaped h w m -> any_positive m = true ->
  exists b, bounding_box m = Ok b.
Proof.
  intros Hws (r & c & Hpos)%any_positive_pixel.
  assert (Hnz : pixel m r c <> 0) by lia.
  destruct (first_last_nonempty (np_where (any_axis1 m)) (Z.of_nat r))
    as (r1 & r2 & Hrows).
  { apply elem_of_np_where. split; [lia |]. rewrite Nat2Z.id.
    apply any_axis1_lookup. by exists c. }
  destruct (first_last_nonempty (np_where (any_axis0 m)) (Z.of_nat c))
    as (c1 & c2 & Hcols).
  { apply elem_of_np_where. split; [lia |]. rewrite Nat2Z.id.
    apply (any_axis0_lookup h w m _ Hws). by exists r. }
  exists (r1, r2, c1, c2). unfold bounding_box. rewrite Hrows. simpl.
  by rewrite Hcols.
Qed.

Lemma box_and_valid_Ok (m : array) (b : box) (v : Z) :
  box_and_valid m = Ok (b, v) ->
  if any_positive m
  then (exists y1 y2 x1 x2,
          bounding_box m = Ok (y1, y2, x1, x2) /\ b = (x1, y1, x2, y2))
       /\ v = 1
  else b = (0, 0, 0, 0) /\ v = 0.
Proof.
  unfold box_and_valid. destruct (any_positive m).
  - intros ([[[y1 y2] x1] x2] & Hbb & H)%rbind_Ok. injection H as <- <-.
    split; [| reflexivity]. by exists y1, y2, x1, x2.
  - by intros [= <- <-].
Qed.

Lemma box_and_valid_total (h w : nat) (m : array) :
  well_shaped h w m -> exists b v, box_and_valid m = Ok (b, v).
Proof.
  intros Hws. unfold box_and_valid. destruct (any_positive m) eqn:Hpos.
  - destruct (bounding_box_total h w m Hws Hpos) as ([[[y1 y2] x1] x2] & ->).
    simpl. eauto.
  - eauto.
Qed.

Lemma clamp_id (hi x : Z) : 0 <= x <= hi -> clamp 0 hi x = x.
Proof. unfold clamp. lia. Qed.

(** ** Boxes and validity flags of a built sample *)

Section BoxesAndValid.
Context `{E : Env}.

(** The box of a frame after clamping with the size of an image whose mask
    has the shape of the frame's mask. *)
Lemma frame_box_valid (self : MeViSDataset) (meta : Meta)
    (sample_indx : list Z) (category_id j : Z) (out : FrameOut)
    (W H : nat) (m_last : array) :
  frame_step self meta sample_indx category_id j = Ok out ->
  well_shaped H W m_last ->
  shape (f_mask out) = shape m_last ->
  if any_positive (f_mask out)
  then tight_bbox (f_mask out)
         (clamp_box (Z.of_nat W) (Z.of_nat H) (f_box out)) /\ f_valid out = 1
  else clamp_box (Z.of_nat W) (Z.of_nat H) (f_box out) = (0, 0, 0, 0) /\
       f_valid out = 0.
Proof.
  intros Hstep Hlast Hshape.
  pose proof (frame_mask_well_shaped _ _ _ _ _ _ Hstep) as Hws.
  apply frame_step_Ok in Hstep as (_ & _ & _ & _ & _ & _ & Hbv & _).
  apply box_and_valid_Ok in Hbv.
  destruct (any_positive (f_mask out)) eqn:Hpos.
  - destruct Hbv as [(y1 & y2 & x1 & x2 & Hbb & Hbox) ->].
    split; [| reflexivity].
    destruct (bounding_box_tight _ _ _ _ _ _ _ Hws Hbb) as (Htight & Hy & Hx).
    pose proof Htight as (Hx1 & Hy1 & Hin & _ & _ & (r & Hr) & _).
    destruct (Hin _ _ Hr) as [Hrow Hcol].
    apply any_positive_pixel in Hpos as (r0 & c0 & Hpos).
    destruct (pixel_nonzero_in _ _ _ r0 c0 Hws) as [Hr0 Hc0]; [lia |].
    rewrite (well_shaped_shape _ _ _ Hws) in Hshape by lia.
    assert (HH : (0 < H)%nat).
    { destruct Hlast as [<- _]. unfold shape in Hshape.
      injection Hshape as Hh _. lia. }
    rewrite (well_shaped_shape _ _ _ Hlast HH) in Hshape.
    injection Hshape as Hh Hw.
    rewrite Hbox. unfold clamp_box. rewrite !clamp_id by lia. exact Htight.
  - destruct Hbv as [-> ->]. split; [| reflexivity].
    unfold clamp_box. rewrite !clamp_id by lia. reflexivity.
Qed.

Lemma build_target_boxes (self : MeViSDataset) (idx : Z) (w0 w1 : World)
    (imgs : list Image) (tgt : target box array) :
  build_target self idx w0 = (Ok (imgs, tgt), w1) ->
  length (boxes tgt) = length (masks tgt) /\
  length (valid tgt) = length (masks tgt) /\
  Forall2 (fun mask '(b, v) =>
             if any_positive mask then tight_bbox mask b /\ v = 1
             else b = (0, 0, 0, 0) /\ v = 0)
    (masks tgt) (zip (boxes tgt) (valid tgt)).
Proof.
  intros (meta & si & outs & img & _ & Houts & Hlast & Hshape & -> & ->)
         %build_target_frames.
  unfold target_of. cbn [boxes masks valid].
  rewrite !length_map. split; [reflexivity |]. split; [reflexivity |].
  change (map f_img outs) with (f_img <$> outs) in Hlast.
  rewrite fmap_last in Hlast.
  destruct (last outs) as [o_last |] eqn:Hol; [| discriminate].
  injection Hlast as <-.
  assert (Hin_last : o_last ∈ outs) by (by eapply last_Some_elem_of).
  assert (Hws_last : well_shaped (snd (im_size (f_img o_last)))
                       (fst (im_size (f_img o_last))) (f_mask o_last)).
  { apply list_elem_of_lookup in Hin_last as (i & Hi).
    destruct (Forall2_lookup_r _ _ _ _ _ Houts Hi) as (jz & _ & Hstep).
    by eapply frame_mask_well_shaped. }
  assert (Hall : Forall (fun out =>
            if any_positive (f_mask out)
            then tight_bbox (f_mask out)
                   (clamp_box (Z.of_nat (fst (im_size (f_img o_last))))
                      (Z.of_nat (snd (im_size (f_img o_last)))) (f_box out))
                 /\ f_valid out = 1
            else clamp_box (Z.of_nat (fst (im_size (f_img o_last))))
                   (Z.of_nat (snd (im_size (f_img o_last)))) (f_box out)
                 = (0, 0, 0, 0) /\ f_valid out = 0) outs).
  { apply Forall_lookup. intros i out Hi.
    destruct (Forall2_lookup_r _ _ _ _ _ Houts Hi) as (jz & _ & Hstep).
    eapply frame_box_valid; [exact Hstep | exact Hws_last |].
    apply Hshape; [| exact Hin_last]. by eapply list_elem_of_lookup_2. }
  clear -Hall. induction Hall as [| out outs Hout _ IH]; simpl;
    constructor; done.
Qed.

End BoxesAndValid.

(** ** Entries of an accumulated mask *)

Lemma nonneg_pixel (m : array) (r c : nat) : nonneg m -> 0 <= pixel m r c.
Proof.
  intros Hm. unfold pixel. rewrite !nth_lookup.
  destruct (m !! r) as [row |] eqn:Hrow; simpl.
  - unfold nonneg in Hm. rewrite Forall_lookup in Hm.
    specialize (Hm _ _ Hrow). destruct (row !! c) as [p |] eqn:Hp; simpl.
    + rewrite Forall_lookup in Hm. exact (Hm _ _ Hp).
    + lia.
  - destruct c; simpl; lia.
Qed.

Lemma nonneg_zeros (h w : nat) : nonneg (zeros h w).
Proof.
  unfold nonneg, zeros. apply Forall_replicate, Forall_replicate. lia.
Qed.

Lemma binary_nonneg (m : array) : binary m -> nonneg m.
Proof.
  intros H. unfold binary, nonneg in *.
  eapply Forall_impl; [exact H |]. intros row Hrow.
  eapply Forall_impl; [exact Hrow |]. simpl. lia.
Qed.

Lemma zip_with_add_nth (a b : list Z) (j : nat) :
  length a = length b ->
  nth j (zip_with Z.add a b) 0 = nth j a 0 + nth j b 0.
Proof.
  intros Hlen. rewrite !nth_lookup, lookup_zip_with.
  destruct (a !! j) as [x |] eqn:Ha; simpl.
  - destruct (lookup_lt_is_Some_2 b j) as [y Hy].
    { apply lookup_lt_Some in Ha. lia. }
    by rewrite Hy.
  - apply lookup_ge_None in Ha.
    rewrite (lookup_ge_None_2 b j) by lia. reflexivity.
Qed.

Lemma pixel_zip_with_add (acc rows : array) (i j : nat) :
  length rows = length acc ->
  (forall a b, acc !! i = Some a -> rows !! i = Some b ->
     length a = length b) ->
  pixel (zip_with (zip_with Z.add) acc rows) i j
  = pixel acc i j + pixel rows i j.
Proof.
  intros Hlen Hrow. unfold pixel.
  rewrite (nth_lookup (zip_with _ acc rows)), lookup_zip_with.
  rewrite (nth_lookup acc), (nth_lookup rows).
  destruct (acc !! i) as [a |] eqn:Ha; simpl.
  - destruct (lookup_lt_is_Some_2 rows i) as [b Hb].
    { apply lookup_lt_Some in Ha. lia. }
    rewrite Hb. simpl. apply zip_with_add_nth. by eapply Hrow.
  - apply lookup_ge_None in Ha.
    rewrite (lookup_ge_None_2 rows i) by lia. simpl. by destruct j.
Qed.

(** Adding non-negative entries lowers no entry. *)
Lemma iadd_pixel_ge (h w : nat) (acc d r : array) (i j : nat) :
  well_shaped h w acc -> nonneg d -> iadd acc d = Ok r ->
  pixel acc i j <= pixel r i j.
Proof.
  intros [Hh Hw] Hd (rows & Hlen & Hrows & Hall & ->)%iadd_Ok.
  rewrite pixel_zip_with_add; [| exact Hlen |].
  - pose proof (nonneg_pixel rows i j (Hall _ Hd)). lia.
  - intros a b Ha Hb. rewrite Forall_lookup in Hw, Hrows.
    rewrite (Hw _ _ Ha), (Hrows _ _ Hb).
    destruct acc as [| a0 acc]; [done |]. simpl.
    symmetry. apply (Hw 0%nat a0). reflexivity.
Qed.

(** Adding a mask of the accumulator's shape adds entry by entry. *)
Lemma iadd_same_shape (h w : nat) (acc d : array) :
  well_shaped h w acc -> well_shaped h w d ->
  iadd acc d = Ok (zip_with (zip_with Z.add) acc d).
Proof.
  intros [Hh Hw] [Hdh Hdw]. unfold iadd, shape.
  rewrite (broadcast_same (length acc) d) by lia.
  assert (Hm : mapM (broadcast (length (hd [] acc))) d = Some d).
  { apply mapM_Some. apply Forall2_same_length_lookup_2; [done |].
    intros i x y Hx Hy. rewrite Hx in Hy. injection Hy as <-.
    apply broadcast_same. rewrite Forall_lookup in Hdw.
    rewrite (Hdw _ _ Hx).
    destruct acc as [| a0 acc].
    - apply lookup_lt_Some in Hx. simpl in *. lia.
    - simpl. rewrite Forall_lookup in Hw. symmetry.
      apply (Hw 0%nat a0). reflexivity. }
  by rewrite Hm.
Qed.

Lemma iadd_pixel_sum (h w : nat) (acc d r : array) (i j : nat) :
  well_shaped h w acc -> well_shaped h w d -> iadd acc d = Ok r ->
  pixel r i j = pixel acc i j + pixel d i j.
Proof.
  intros Hacc Hd H. rewrite (iadd_same_shape h w _ _ Hacc Hd) in H.
  injection H as <-. destruct Hacc as [Hh Hw], Hd as [Hdh Hdw].
  apply pixel_zip_with_add; [lia |].
  intros a b Ha Hb. rewrite Forall_lookup in Hw, Hdw.
  by rewrite (Hw _ _ Ha), (Hdw _ _ Hb).
Qed.

Section AccumulatedEntries.
Context `{E : Env}.

Lemma accumulate_mask_pixel_ge (self : MeViSDataset) (ids : list string)
    (frame_indx : Z) (h w : nat) (mask r : array) (i j : nat) :
  (forall rle, nonneg (coco_decode rle)) ->
  well_shaped h w mask ->
  accumulate_mask self ids frame_indx mask = Ok r ->
  pixel mask i j <= pixel r i j.
Proof.
  intros Hnn. revert mask. induction ids as [| x ids IH]; intros mask Hws H.
  - injection H as <-. lia.
  - rewrite accumulate_mask_cons in H.
    apply rbind_Ok in H as (mask' & Hstep & H).
    apply accumulate_step_Ok in Hstep as (pf & [rle |] & _ & _ & Hr).
    + pose proof (iadd_pixel_ge h w _ _ _ i j Hws (Hnn rle) Hr).
      pose proof (iadd_well_shaped h w _ _ _ Hws Hr) as Hws'.
      specialize (IH mask' Hws' H). lia.
    + subst. by apply IH.
Qed.

Lemma pixel_zeros (h w r c : nat) : pixel (zeros h w) r c = 0.
Proof.
  pose proof (nonneg_pixel (zeros h w) r c (nonneg_zeros h w)) as Hge.
  pose proof (bounded_by_zeros h w) as Hb. unfold pixel in *.
  rewrite !nth_lookup in *.
  destruct (zeros h w !! r) as [row |] eqn:Hrow; simpl in *.
  - unfold bounded_by in Hb. rewrite Forall_lookup in Hb.
    specialize (Hb _ _ Hrow).
    destruct (row !! c) as [p |] eqn:Hp; simpl in *; [| reflexivity].
    rewrite Forall_lookup in Hb. specialize (Hb _ _ Hp). simpl in Hb. lia.
  - by destruct c.
Qed.

(** Each entry of the accumulated mask is the entry of the initial
    accumulator plus the sum of the decoded masks present at the frame. *)
Lemma accumulate_mask_pixel_sum (self : MeViSDataset) (ids : list string)
    (frame_indx : Z) (h w : nat) (mask r : array) (i j : nat) :
  well_shaped h w mask ->
  (forall x d, x ∈ ids -> decoded_at self x frame_indx = Some d ->
     well_shaped h w d) ->
  accumulate_mask self ids frame_indx mask = Ok r ->
  pixel r i j = pixel mask i j + covering self ids frame_indx i j.
Proof.
  revert mask. induction ids as [| x ids IH]; intros mask Hws Hshape H.
  - injection H as <-. simpl. lia.
  - rewrite accumulate_mask_cons in H.
    apply rbind_Ok in H as (mask' & Hstep & H).
    assert (Hrest : forall y d, y ∈ ids ->
              decoded_at self y frame_indx = Some d -> well_shaped h w d).
    { intros y d Hy. apply Hshape. by right. }
    apply accumulate_step_Ok in Hstep as (pf & frm & Hpf & Hfrm & Hr).
    cbn [covering foldr]. fold (covering self ids frame_indx i j).
    assert (Hdec : decoded_at self x frame_indx
                   = match frm with
                     | Some rle => Some (coco_decode rle)
                     | None => None
                     end).
    { unfold decoded_at. rewrite Hpf, Hfrm. reflexivity. }
    rewrite Hdec. destruct frm as [rle |].
    + assert (Hd : well_shaped h w (coco_decode rle)).
      { apply (Hshape x); [by left |]. by rewrite Hdec. }
      rewrite (IH mask' (iadd_well_shaped h w _ _ _ Hws Hr) Hrest H).
      rewrite (iadd_pixel_sum h w _ _ _ i j Hws Hd Hr). lia.
    + subst mask'. exact (IH mask Hws Hrest H).
Qed.

End AccumulatedEntries.

(** ** The fold over the annotation ids *)

(** The fold raises nothing when every annotation id is in the mask store
    with an entry at the frame, and the masks it decodes have the shape of
    the accumulator. *)
Lemma accumulate_mask_total `{E : Env} (self : MeViSDataset)
    (ids : list string) (frame_indx : Z) (h w : nat) (mask : array) :
  well_shaped h w mask ->
  (forall x, x ∈ ids ->
     exists per_frame frm_anno,
       mask_dict self !! x = Some per_frame /\
       py_index per_frame frame_indx = Ok frm_anno /\
       forall rle, frm_anno = Some rle -> well_shaped h w (coco_decode rle)) ->
  exists r, accumulate_mask self ids frame_indx mask = Ok r.
Proof.
  revert mask. induction ids as [| x ids IH]; intros mask Hws Hall;
    [by exists mask |].
  rewrite accumulate_mask_cons.
  destruct (Hall x) as (pf & frm & Hpf & Hfrm & Hshape); [by left |].
  assert (Hrest : forall y, y ∈ ids ->
     exists per_frame frm_anno,
       mask_dict self !! y = Some per_frame /\
       py_index per_frame frame_indx = Ok frm_anno /\
       forall rle, frm_anno = Some rle -> well_shaped h w (coco_decode rle)).
  { intros y Hy. apply Hall. by right. }
  destruct frm as [rle |].
  - rewrite (accumulate_step_present _ _ _ _ _ _ Hpf Hfrm).
    rewrite (iadd_same_shape h w _ _ Hws (Hshape rle eq_refl)). simpl.
    apply IH; [| exact Hrest].
    eapply iadd_well_shaped; [exact Hws |].
    exact (iadd_same_shape h w _ _ Hws (Hshape rle eq_refl)).
  - rewrite (accumulate_step_null _ _ _ _ _ Hpf Hfrm). simpl.
    by apply IH.
Qed.

(** C2. The mask of a frame is a fold over the annotation ids of the task
    that starts from the all-zero array of the frame's shape: each step
    looks up the entry of the annotation id at the sampled frame index;
    a present entry is decoded and added to the accumulator, a null entry
    leaves the accumulator as it is and raises nothing. Adding is the
    entrywise sum: after a step with a present entry every entry of the
    accumulator is what it was plus the entry of the decoded mask, and the
    fold over the ids ends with the sum, entry by entry, of the decoded
    masks that are present at the frame (for decoded masks of the frame's
    shape, on which the fold raises nothing). With two annotation ids of
    which one has a mask of the frame's shape at the frame and the other is
    null there, the result is the decoded mask, in either order of the ids;
    with only null entries the result is the all-zero array. *)
Theorem mask_accumulation_fold `{E : Env} (self : MeViSDataset) :
  (forall meta sample_indx category_id j out,
     frame_step self meta sample_indx category_id j = Ok out ->
     exists frame_indx,
       py_index sample_indx j = Ok frame_indx /\
       accumulate_mask self (m_anno_id meta) frame_indx
         (zeros (snd (im_size (f_img out))) (fst (im_size (f_img out))))
         = Ok (f_mask out)) /\
  (forall frame_indx mask,
     accumulate_mask self [] frame_indx mask = Ok mask) /\
  (forall x xs frame_indx mask,
     accumulate_mask self (x :: xs) frame_indx mask =
     accumulate_step self frame_indx mask x ≫=
       accumulate_mask self xs frame_indx) /\
  (forall x per_frame frame_indx rle mask,
     mask_dict self !! x = Some per_frame ->
     py_index per_frame frame_indx = Ok (Some rle) ->
     accumulate_step self frame_indx mask x = iadd mask (coco_decode rle)) /\
  (forall x per_frame frame_indx mask,
     mask_dict self !! x = Some per_frame ->
     py_index per_frame frame_indx = Ok None ->
     accumulate_step self frame_indx mask x = Ok mask) /\
  (forall x y per_x per_y frame_indx rle h w,
     mask_dict self !! x = Some per_x ->
     mask_dict self !! y = Some per_y ->
     py_index per_x frame_indx = Ok (Some rle) ->
     py_index per_y frame_indx = Ok None ->
     well_shaped h w (coco_decode rle) ->
     accumulate_mask self [x; y] frame_indx (zeros h w)
       = Ok (coco_decode rle) /\
     accumulate_mask self [y; x] frame_indx (zeros h w)
       = Ok (coco_decode rle)) /\
  (forall ids frame_indx h w,
     (forall x, x ∈ ids ->
        exists per_frame, mask_dict self !! x = Some per_frame /\
                          py_index per_frame frame_indx = Ok None) ->
     accumulate_mask self ids frame_indx (zeros h w) = Ok (zeros h w)) /\
  (forall x per_frame frame_indx rle mask h w,
     mask_dict self !! x = Some per_frame ->
     py_index per_frame frame_indx = Ok (Some rle) ->
     well_shaped h w mask ->
     well_shaped h w (coco_decode rle) ->
     exists r,
       accumulate_step self frame_indx mask x = Ok r /\
       well_shaped h w r /\
       forall i j,
         pixel r i j = pixel mask i j + pixel (coco_decode rle) i j) /\
  (forall ids frame_indx h w,
     (forall x, x ∈ ids ->
        exists per_frame frm_anno,
          mask_dict self !! x = Some per_frame /\
          py_index per_frame frame_indx = Ok frm_anno /\
          forall rle, frm_anno = Some rle ->
                      well_shaped h w (coco_decode rle)) ->
     exists r,
       accumulate_mask self ids frame_indx (zeros h w) = Ok r /\
       well_shaped h w r /\
       forall i j, pixel r i j = covering self ids frame_indx i j).
Proof.
  split; [| split; [| split; [| split; [| split; [| split; [| split;
    [| split]]]]]]].
  - intros meta si cat j out H.
    apply frame_step_Ok in H as (fi & name & Hfi & _ & _ & Hacc & _).
    by exists fi.
  - reflexivity.
  - reflexivity.
  - intros. by eapply accumulate_step_present.
  - intros. by eapply accumulate_step_null.
  - intros x y px py frame_indx rle h w Hx Hy Hpx Hpy Hws.
    split.
    + rewrite accumulate_mask_cons.
      rewrite (accumulate_step_present _ _ _ _ _ _ Hx Hpx).
      rewrite (iadd_zeros h w _ Hws).
      change (accumulate_mask self [y] frame_indx (coco_decode rle)
              = Ok (coco_decode rle)).
      rewrite accumulate_mask_cons.
      by rewrite (accumulate_step_null _ _ _ _ _ Hy Hpy).
    + rewrite accumulate_mask_cons.
      rewrite (accumulate_step_null _ _ _ _ _ Hy Hpy).
      change (accumulate_mask self [x] frame_indx (zeros h w)
              = Ok (coco_decode rle)).
      rewrite accumulate_mask_cons.
      rewrite (accumulate_step_present _ _ _ _ _ _ Hx Hpx).
      by rewrite (iadd_zeros h w _ Hws).
  - intros ids fi h w Hall. by apply accumulate_mask_all_null.
  - intros x pf fi rle mask h w Hx Hpx Hws Hd.
    exists (zip_with (zip_with Z.add) mask (coco_decode rle)).
    rewrite (accumulate_step_present _ _ _ _ _ _ Hx Hpx).
    pose proof (iadd_same_shape h w _ _ Hws Hd) as Hadd.
    split; [exact Hadd |].
    split; [exact (iadd_well_shaped h w _ _ _ Hws Hadd) |].
    intros i j. exact (iadd_pixel_sum h w _ _ _ i j Hws Hd Hadd).
  - intros ids fi h w Hall.
    destruct (accumulate_mask_total self ids fi h w (zeros h w)
                (well_shaped_zeros h w) Hall) as [r Hr].
    exists r. split; [exact Hr |].
    split.
    { exact (accumulate_mask_well_shaped self ids fi h w _ _
               (well_shaped_zeros h w) Hr). }
    intros i j.
    rewrite (accumulate_mask_pixel_sum self ids fi h w (zeros h w) r i j
               (well_shaped_zeros h w)); [by rewrite pixel_zeros | | exact Hr].
    intros x d Hx Hd. destruct (Hall x Hx) as (pf & frm & Hpf & Hfrm & Hshape).
    unfold decoded_at in Hd. rewrite Hpf, Hfrm in Hd.
    destruct frm as [rle |]; [| discriminate].
    injection Hd as <-. by apply Hshape.
Qed.

Lemma mask_accumulation_fold_witness :
  accumulate_mask Demo.dataset ["1"; "2"] 2 (zeros 2 3)
    = Ok [[0; 1; 1]; [0; 0; 0]] /\
  accumulate_mask Demo.dataset ["2"; "1"] 2 (zeros 2 3)
    = Ok [[0; 1; 1]; [0; 0; 0]] /\
  accumulate_mask Demo.dataset ["1"; "2"; "3"] 3 (zeros 2 3)
    = Ok [[0; 0; 0]; [0; 0; 0]] /\
  accumulate_step Demo.dataset 3 [[0; 1; 1]; [0; 0; 0]] "1"
    = Ok [[0; 1; 1]; [0; 0; 0]] /\
  (exists r,
     accumulate_step Demo.dataset 1 [[0; 1; 1]; [0; 0; 0]] "2" = Ok r /\
     pixel r 0 1 = 1 /\ pixel r 0 2 = 2 /\ pixel r 1 1 = 1) /\
  (exists r,
     accumulate_mask Demo.dataset ["1"; "2"] 1 (zeros 2 3) = Ok r /\
     pixel r 0 1 = 1 /\ pixel r 0 2 = 2 /\ pixel r 1 1 = 1 /\
     pixel r 1 2 = 0).
Proof.
  destruct (mask_accumulation_fold Demo.dataset)
    as (_ & _ & _ & _ & Hnull & Htwo & Hall & Hstep & Hfold).
  assert (H1 : mask_dict Demo.dataset !! "1"
               = Some [None; Some Demo.m1; Some Demo.m1; None])
    by reflexivity.
  assert (H2 : mask_dict Demo.dataset !! "2"
               = Some [None; Some Demo.m2; None; None]) by reflexivity.
  assert (Hws1 : well_shaped 2 3 (@coco_decode Demo.env Demo.m1)).
  { split; [reflexivity |]. repeat constructor. }
  assert (Hws2 : well_shaped 2 3 (@coco_decode Demo.env Demo.m2)).
  { split; [reflexivity |]. repeat constructor. }
  destruct (Htwo "1" "2" _ _ 2 Demo.m1 2%nat 3%nat H1 H2 eq_refl eq_refl Hws1)
    as [H12 H21].
  split; [exact H12 |]. split; [exact H21 |]. split; [| split; [| split]].
  - apply (Hall ["1"; "2"; "3"] 3 2%nat 3%nat). intros x Hx.
    repeat (apply elem_of_cons in Hx as [-> | Hx];
            [eexists; split; reflexivity |]).
    by apply elem_of_nil in Hx.
  - exact (Hnull "1" _ 3 _ H1 eq_refl).
  - destruct (Hstep "2" _ 1 Demo.m2 [[0; 1; 1]; [0; 0; 0]] 2%nat 3%nat
                H2 eq_refl) as (r & Hr & _ & Hpix); [| exact Hws2 |].
    { split; [reflexivity |]. repeat constructor. }
    exists r. split; [exact Hr |]. rewrite !Hpix. repeat split.
  - destruct (Hfold ["1"; "2"] 1 2%nat 3%nat) as (r & Hr & _ & Hpix).
    { intros x Hx.
      apply elem_of_cons in Hx as [-> | Hx].
      - exists [None; Some Demo.m1; Some Demo.m1; None], (Some Demo.m1).
        split; [reflexivity |]. split; [reflexivity |].
        intros rle [= <-]. exact Hws1.
      - apply list_elem_of_singleton in Hx as ->.
        exists [None; Some Demo.m2; None; None], (Some Demo.m2).
        split; [reflexivity |]. split; [reflexivity |].
        intros rle [= <-]. exact Hws2. }
    exists r. split; [exact Hr |]. rewrite !Hpix. repeat split.
Defined.

(** C6 (as the code has it). Every mask of the pre-augmentation target is a
    two-dimensional array of the shape of its frame. Decoded masks being
    binary, each of its entries is an integer between 0 and the number of
    annotation ids of the task, and is 0 or 1 when the task has at most one
    annotation id; when the decoded masks present at the frame have the
    shape of the frame, the entry is their sum at that pixel. *)
Theorem masks_sum_decoded_annotations `{E : Env} (self : MeViSDataset)
    (idx : Z) (w0 w1 : World) (imgs : list Image) (tgt : target box array) :
  (forall rle, binary (coco_decode rle)) ->
  build_target self idx w0 = (Ok (imgs, tgt), w1) ->
  exists meta,
    py_index (metas self) idx = Ok meta /\
    Forall (bounded_by (len (m_anno_id meta))) (masks tgt) /\
    (len (m_anno_id meta) <= 1 -> Forall binary (masks tgt)) /\
    (forall j mask img,
       masks tgt !! j = Some mask -> imgs !! j = Some img ->
       let h := snd (im_size img) in
       let w := fst (im_size img) in
       well_shaped h w mask /\
       exists frame_indx,
         frames_idx tgt !! j = Some frame_indx /\
         ((forall x d, x ∈ m_anno_id meta ->
             decoded_at self x frame_indx = Some d -> well_shaped h w d) ->
          forall r c,
            pixel mask r c = covering self (m_anno_id meta) frame_indx r c)).
Proof.
  intros Hbin (meta & si & outs & img & Hmeta & Houts & _ & _ & -> & ->)
              %build_target_frames.
  exists meta. split; [exact Hmeta |].
  assert (Hb : Forall (bounded_by (len (m_anno_id meta)))
                 (map f_mask outs)).
  { apply Forall_fmap. apply (Forall2_Forall_r _ _ _ _ Houts).
    apply Forall_true. intros j out Hout. simpl.
    apply frame_step_Ok in Hout as (fi & name & _ & _ & _ & Hacc & _).
    apply (accumulate_mask_bounded _ _ _ 0) in Hacc;
      [exact Hacc | exact Hbin | apply bounded_by_zeros]. }
  split; [exact Hb |]. split.
  - intros Hone. eapply Forall_impl; [exact Hb |]. intros m Hm.
    apply binary_bounded. eapply bounded_by_mono; [exact Hone | exact Hm].
  - intros j mask img0 Hmask Himg.
    change ((f_mask <$> outs) !! j = Some mask) in Hmask.
    change ((f_img <$> outs) !! j = Some img0) in Himg.
    rewrite list_lookup_fmap in Hmask. rewrite list_lookup_fmap in Himg.
    destruct (outs !! j) as [out |] eqn:Hout; [| discriminate].
    injection Hmask as <-. injection Himg as <-.
    destruct (Forall2_lookup_r _ _ _ _ _ Houts Hout) as (jz & Hjz & Hstep).
    cbv zeta. split; [by eapply frame_mask_well_shaped |].
    apply frame_step_Ok in Hstep as (fi & name & Hfi & _ & _ & Hacc & _).
    exists fi. split.
    + unfold py_range in Hjz.
      change (map Z.of_nat (seq 0 (Z.to_nat (num_frames self))))
        with (Z.of_nat <$> seq 0 (Z.to_nat (num_frames self))) in Hjz.
      apply list_lookup_fmap_Some in Hjz as (k & -> & Hk).
      apply lookup_seq in Hk as [-> _].
      apply py_index_Ok in Hfi as [[_ Hfi] | [? _]]; [| lia].
      cbn [frames_idx target_of]. by rewrite Nat2Z.id in Hfi.
    + intros Hshape r c.
      rewrite (accumulate_mask_pixel_sum _ _ _ _ _ _ _ r c
                 (well_shaped_zeros _ _) Hshape Hacc).
      rewrite pixel_zeros. lia.
Qed.

Lemma demo_decode_binary (rle : list (list bool)) :
  binary (@coco_decode Demo.env rle).
Proof.
  unfold binary. simpl. apply Forall_fmap, Forall_true. intros row. simpl.
  apply Forall_fmap, Forall_true. intros [|]; simpl; lia.
Qed.

Lemma masks_sum_decoded_annotations_witness :
  Forall (bounded_by 2)
    (masks (Demo.target_in (build_target Demo.dataset 2 0%nat))) /\
  Forall binary
    (masks (Demo.target_in (build_target Demo.dataset 0 0%nat))) /\
  covering Demo.dataset ["1"; "2"] 1 0 2 = 2.
Proof.
  assert (Hpre2 : build_target Demo.dataset 2 0%nat =
            (Ok (Demo.imgs_of (build_target Demo.dataset 2 0%nat),
                 Demo.target_in (build_target Demo.dataset 2 0%nat)), 0%nat))
    by (vm_compute; reflexivity).
  assert (Hpre0 : build_target Demo.dataset 0 0%nat =
            (Ok (Demo.imgs_of (build_target Demo.dataset 0 0%nat),
                 Demo.target_in (build_target Demo.dataset 0 0%nat)), 0%nat))
    by (vm_compute; reflexivity).
  destruct (masks_sum_decoded_annotations Demo.dataset 2 0%nat 0%nat _ _
              demo_decode_binary Hpre2) as (meta2 & Hmeta2 & Hb & _ & Hsum).
  assert (meta2 = make_meta "v1" Demo.two_things
                    ["f0"; "f1"; "f2"; "f3"] 0) as ->.
  { vm_compute in Hmeta2. by injection Hmeta2 as <-. }
  split; [exact Hb |]. split.
  - destruct (masks_sum_decoded_annotations Demo.dataset 0 0%nat 0%nat _ _
                demo_decode_binary Hpre0) as (meta & Hmeta & _ & Hbin & _).
    apply Hbin. vm_compute in Hmeta. injection Hmeta as <-.
    vm_compute. discriminate.
  - destruct (Hsum 1%nat [[0; 1; 2]; [0; 1; 0]]
                {| im_file := "data/JPEGImages/v1/f1.jpg";
                   im_size := (3%nat, 2%nat) |} eq_refl eq_refl)
      as (_ & fi & Hfi & Hpix).
    vm_compute in Hfi. injection Hfi as <-.
    symmetry. refine (Hpix _ 0%nat 2%nat).
    intros x d Hx Hd. simpl in Hx.
    repeat (apply elem_of_cons in Hx as [-> | Hx];
            [vm_compute in Hd; injection Hd as <-;
             split; [reflexivity | repeat constructor] |]).
    by apply elem_of_nil in Hx.
Defined.

(** C6, refuted as stated: the task of the expression bound to the
    annotation ids "1" and "2", whose binary masks overlap at one pixel of
    frame 1, gets a mask with the value 2 at that pixel. *)
Lemma overlapping_masks_not_binary :
  (forall rle, binary (@coco_decode Demo.env rle)) /\
  exists imgs tgt mask,
    build_target Demo.dataset 2 0%nat = (Ok (imgs, tgt), 0%nat) /\
    m_anno_id <$> Demo.dataset.(metas) !! 2%nat = Some ["1"; "2"] /\
    masks tgt !! 1%nat = Some mask /\
    pixel mask 0 2 = 2 /\
    ~ Forall binary (masks tgt).
Proof.
  split; [exact demo_decode_binary |].
  eexists _, _, _. split; [vm_compute; reflexivity |].
  split; [reflexivity |]. split; [reflexivity |]. split; [reflexivity |].
  intros H. rewrite Forall_lookup in H.
  specialize (H 1%nat _ eq_refl). unfold binary in H.
  rewrite Forall_lookup in H. specialize (H 0%nat _ eq_refl).
  rewrite Forall_lookup in H. specialize (H 2%nat _ eq_refl).
  simpl in H. lia.
Qed.

(** ** Broadcasting *)

Lemma broadcast_is_Some {A} (n : nat) (l : list A) :
  is_Some (broadcast n l) <-> length l = n \/ length l = 1%nat.
Proof.
  unfold broadcast. destruct (decide (length l = n)) as [Hn | Hn].
  - split; [by left | by eexists].
  - destruct l as [| x [| y l]]; simpl; split.
    + by intros [? ?].
    + intros [? | ?]; [done | discriminate].
    + by right.
    + by eexists.
    + by intros [? ?].
    + intros [? | ?]; [done | discriminate].
Qed.

Lemma broadcast_nth {A} (n : nat) (l l' : list A) (i : nat) (dflt : A) :
  broadcast n l = Some l' -> (i < n)%nat ->
  nth i l' dflt = nth (if decide (length l = 1%nat) then 0%nat else i) l dflt.
Proof.
  unfold broadcast. intros H Hi.
  destruct (decide (length l = n)) as [Hn | Hn].
  - injection H as <-. destruct (decide (length l = 1%nat)); [| done].
    by replace i with 0%nat by lia.
  - destruct l as [| x [| y l]]; try discriminate. injection H as <-.
    simpl. rewrite nth_lookup, lookup_replicate_2 by done. reflexivity.
Qed.

Lemma broadcast_Forall_inv {A} (P : A -> Prop) (n : nat) (l l' : list A) :
  broadcast n l = Some l' -> (0 < n)%nat -> Forall P l' -> Forall P l.
Proof.
  unfold broadcast. destruct (decide (length l = n)) as [Hn | _].
  - by intros [= <-].
  - destruct l as [| x [| y l]]; try discriminate.
    intros [= <-] Hn Hall. constructor; [| constructor].
    rewrite Forall_forall in Hall. apply Hall.
    apply elem_of_replicate. split; [done | lia].
Qed.

Lemma broadcasts_to_true (h w : nat) (d : array) :
  broadcasts_to h w d = true <->
  (length d = h \/ length d = 1%nat) /\
  Forall (fun row => length row = w \/ length row = 1%nat) d.
Proof.
  unfold broadcasts_to.
  rewrite andb_true_iff, orb_true_iff, !Nat.eqb_eq, forallb_forall,
    Forall_forall.
  split; intros [Hl Hr]; (split; [exact Hl |]); intros row Hrow.
  - apply list_elem_of_In, Hr in Hrow.
    by rewrite orb_true_iff, !Nat.eqb_eq in Hrow.
  - rewrite orb_true_iff, !Nat.eqb_eq. by apply Hr, list_elem_of_In.
Qed.

(** [acc += d] on an accumulator of [h > 0] rows of [w] entries: shapes
    that broadcast are added entry by entry, stretched; any other shape
    raises. *)
Lemma iadd_broadcasts (h w : nat) (acc d : array) :
  well_shaped h w acc -> (0 < h)%nat ->
  if broadcasts_to h w d
  then exists r,
         iadd acc d = Ok r /\ well_shaped h w r /\
         forall i j, (i < h)%nat -> (j < w)%nat ->
           pixel r i j = pixel acc i j + stretched d i j
  else iadd acc d
       = Raise (ValueError "operands could not be broadcast together").
Proof.
  intros Hws Hh.
  assert (Hiadd : iadd acc d =
            match broadcast h d with
            | None =>
                Raise (ValueError "operands could not be broadcast together")
            | Some rows =>
                match mapM (broadcast w) rows with
                | None =>
                    Raise
                      (ValueError "operands could not be broadcast together")
                | Some rows' => Ok (zip_with (zip_with Z.add) acc rows')
                end
            end).
  { unfold iadd. by rewrite (well_shaped_shape h w acc Hws Hh). }
  destruct (broadcast h d) as [rows0 |] eqn:Hb0.
  - assert (Hlen : length d = h \/ length d = 1%nat).
    { apply broadcast_is_Some. by eexists. }
    destruct (mapM (broadcast w) rows0) as [rows |] eqn:Hm.
    + apply mapM_Some in Hm.
      assert (Hrows0 : Forall (fun row => length row = w \/ length row = 1%nat)
                         rows0).
      { apply (Forall2_Forall_l _ _ _ _ Hm). apply Forall_true.
        intros x y Hxy. apply broadcast_is_Some. by eexists. }
      apply (broadcast_Forall_inv _ _ _ _ Hb0 Hh) in Hrows0.
      rewrite (proj2 (broadcasts_to_true h w d) (conj Hlen Hrows0)).
      exists (zip_with (zip_with Z.add) acc rows).
      split; [exact Hiadd |].
      split; [exact (iadd_well_shaped h w _ _ _ Hws Hiadd) |].
      intros i j Hi Hj.
      pose proof (Forall2_length _ _ _ Hm) as Hlrows.
      pose proof (broadcast_length _ _ _ Hb0) as Hl0.
      destruct Hws as [Hacc Hrow].
      destruct (lookup_lt_is_Some_2 rows i) as [row' Hrow']; [lia |].
      destruct (Forall2_lookup_r _ _ _ _ _ Hm Hrow') as (row0 & Hrow0 & Hbr).
      rewrite pixel_zip_with_add; [| lia |].
      * f_equal. unfold pixel, stretched. cbv zeta.
        rewrite (nth_lookup_Some _ _ _ _ Hrow').
        rewrite (broadcast_nth _ _ _ _ 0 Hbr Hj).
        rewrite <- (broadcast_nth _ _ _ _ [] Hb0 Hi).
        by rewrite (nth_lookup_Some _ _ _ _ Hrow0).
      * intros a b Ha Hb. rewrite Forall_lookup in Hrow.
        rewrite (Hrow _ _ Ha). rewrite Hb in Hrow'. injection Hrow' as ->.
        symmetry. by eapply broadcast_length.
    + destruct (broadcasts_to h w d) eqn:Hbt; [| exact Hiadd].
      apply broadcasts_to_true in Hbt as [_ Hrows]. exfalso.
      apply (broadcast_Forall _ _ _ _ Hb0) in Hrows.
      assert (Hsome : is_Some (mapM (broadcast w) rows0)).
      { apply mapM_is_Some. eapply Forall_impl; [exact Hrows |].
        intros row Hr. by apply broadcast_is_Some. }
      rewrite Hm in Hsome. by destruct Hsome.
  - destruct (broadcasts_to h w d) eqn:Hbt; [| exact Hiadd].
    apply broadcasts_to_true in Hbt as [Hlen _]. exfalso.
    apply broadcast_is_Some in Hlen. rewrite Hb0 in Hlen. by destruct Hlen.
Qed.

(** A positive entry of a mask that broadcasts shows in the stretched
    mask. *)
Lemma stretched_positive (h w : nat) (d : array) :
  broadcasts_to h w d = true -> (0 < h)%nat -> (0 < w)%nat ->
  any_positive d = true ->
  exists i j, (i < h)%nat /\ (j < w)%nat /\ 0 < stretched d i j.
Proof.
  intros [Hlen Hrows]%broadcasts_to_true Hh Hw
         (i0 & j0 & Hpos)%any_positive_pixel.
  unfold pixel in Hpos.
  assert (Hi0 : (i0 < length d)%nat).
  { destruct (le_lt_dec (length d) i0) as [Hle | Hlt]; [| exact Hlt].
    rewrite (nth_overflow d [] Hle) in Hpos. destruct j0; simpl in Hpos; lia. }
  assert (Hj0 : (j0 < length (nth i0 d []))%nat).
  { destruct (le_lt_dec (length (nth i0 d [])) j0) as [Hle | Hlt];
      [| exact Hlt].
    rewrite (nth_overflow _ 0 Hle) in Hpos. lia. }
  assert (Hrow : length (nth i0 d []) = w \/ length (nth i0 d []) = 1%nat).
  { rewrite Forall_forall in Hrows. apply Hrows, list_elem_of_In, nth_In.
    exact Hi0. }
  destruct (decide (length d = 1%nat)) as [Hd1 | Hd1];
    destruct (decide (length (nth i0 d []) = 1%nat)) as [Hr1 | Hr1].
  - exists 0%nat, 0%nat. split; [lia |]. split; [lia |].
    unfold stretched. cbv zeta. rewrite (decide_True _ _ Hd1).
    replace i0 with 0%nat in * by lia. rewrite (decide_True _ _ Hr1).
    by replace j0 with 0%nat in Hpos by lia.
  - exists 0%nat, j0. split; [lia |]. split; [lia |].
    unfold stretched. cbv zeta. rewrite (decide_True _ _ Hd1).
    replace i0 with 0%nat in * by lia. by rewrite (decide_False _ _ Hr1).
  - exists i0, 0%nat. split; [lia |]. split; [lia |].
    unfold stretched. cbv zeta. rewrite (decide_False _ _ Hd1).
    rewrite (decide_True _ _ Hr1). by replace j0 with 0%nat in Hpos by lia.
  - exists i0, j0. split; [lia |]. split; [lia |].
    unfold stretched. cbv zeta. rewrite (decide_False _ _ Hd1).
    by rewrite (decide_False _ _ Hr1).
Qed.

Lemma any_positive_false (m : array) :
  any_positive m = false <-> Forall (Forall (fun p => p <= 0)) m.
Proof.
  unfold any_positive. rewrite <- not_true_iff_false, existsb_exists. split.
  - intros Hno. apply Forall_forall. intros row Hrow.
    apply Forall_forall. intros p Hp.
    destruct (Z.ltb_spec 0 p) as [Hpos | Hle]; [| exact Hle].
    exfalso. apply Hno. exists row. split; [by apply list_elem_of_In |].
    apply existsb_exists. exists p.
    split; [by apply list_elem_of_In | by apply Z.ltb_lt].
  - intros Hall (row & Hrow & Hex).
    apply existsb_exists in Hex as (p & Hp & Hpos).
    rewrite Forall_forall in Hall.
    apply list_elem_of_In in Hrow. specialize (Hall row Hrow).
    rewrite Forall_forall in Hall.
    apply list_elem_of_In in Hp. specialize (Hall p Hp).
    apply Z.ltb_lt in Hpos. lia.
Qed.

(** A property of entries that sums keep is kept by [iadd]. *)
Lemma iadd_Forall (P : Z -> Prop) (acc d r : array) :
  (forall a b, P a -> P b -> P (a + b)) ->
  Forall (Forall P) acc -> Forall (Forall P) d -> iadd acc d = Ok r ->
  Forall (Forall P) r.
Proof.
  intros Hsum Hacc Hd (rows & _ & _ & Hall & ->)%iadd_Ok.
  specialize (Hall _ Hd).
  apply Forall_lookup. intros i row Hi.
  apply lookup_zip_with_Some in Hi as (a & b & -> & Ha & Hb).
  rewrite Forall_lookup in Hacc, Hall.
  pose proof (Hacc _ _ Ha) as Hna. pose proof (Hall _ _ Hb) as Hnb.
  apply Forall_lookup. intros k p Hk.
  apply lookup_zip_with_Some in Hk as (u & v & -> & Hu & Hv).
  rewrite Forall_lookup in Hna, Hnb.
  apply Hsum; [exact (Hna _ _ Hu) | exact (Hnb _ _ Hv)].
Qed.

Section PresentAbsent.
Context `{E : Env}.

(** An annotation whose decoded mask has a positive entry leaves a positive
    entry in the accumulated mask of a frame of positive size. *)
Lemma accumulate_mask_visible (self : MeViSDataset) (ids : list string)
    (frame_indx : Z) (h w : nat) (mask r : array) (x : string)
    (per_frame : list (option Rle)) (rle : Rle) :
  (forall rle, nonneg (coco_decode rle)) ->
  well_shaped h w mask -> nonneg mask -> (0 < h)%nat -> (0 < w)%nat ->
  x ∈ ids ->
  mask_dict self !! x = Some per_frame ->
  py_index per_frame frame_indx = Ok (Some rle) ->
  any_positive (coco_decode rle) = true ->
  accumulate_mask self ids frame_indx mask = Ok r ->
  any_positive r = true.
Proof.
  intros Hnn Hws Hmask Hh Hw Hx Hpf Hentry Hpos. revert mask Hws Hmask.
  induction ids as [| y ids IH]; intros mask Hws Hmask H;
    [by apply elem_of_nil in Hx |].
  rewrite accumulate_mask_cons in H.
  apply rbind_Ok in H as (mask' & Hstep & H).
  apply elem_of_cons in Hx as [<- | Hx].
  - rewrite (accumulate_step_present _ _ _ _ _ _ Hpf Hentry) in Hstep.
    pose proof (iadd_broadcasts h w mask (coco_decode rle) Hws Hh) as Hadd.
    destruct (broadcasts_to h w (coco_decode rle)) eqn:Hbt;
      [| rewrite Hadd in Hstep; discriminate].
    destruct Hadd as (r0 & Hr0 & Hws' & Hpix).
    rewrite Hr0 in Hstep. injection Hstep as ->.
    destruct (stretched_positive h w _ Hbt Hh Hw Hpos)
      as (i & j & Hi & Hj & Hij).
    apply any_positive_pixel. exists i, j.
    pose proof (Hpix i j Hi Hj) as Hsum.
    pose proof (nonneg_pixel mask i j Hmask).
    pose proof (accumulate_mask_pixel_ge _ _ _ h w _ _ i j Hnn Hws' H).
    lia.
  - apply accumulate_step_Ok in Hstep as (pf & [rle' |] & _ & _ & Hr).
    + apply (IH Hx mask'); [by eapply iadd_well_shaped | | exact H].
      apply (iadd_Forall (fun p => 0 <= p) mask (coco_decode rle') mask');
        [lia | exact Hmask | exact (Hnn rle') | exact Hr].
    + subst. by apply (IH Hx mask).
Qed.

(** Annotations without a positive entry at the frame leave no positive
    entry in the accumulated mask. *)
Lemma accumulate_mask_not_visible (self : MeViSDataset) (ids : list string)
    (frame_indx : Z) (mask r : array) :
  any_positive mask = false ->
  (forall x per_frame rle, x ∈ ids ->
     mask_dict self !! x = Some per_frame ->
     py_index per_frame frame_indx = Ok (Some rle) ->
     any_positive (coco_decode rle) = false) ->
  accumulate_mask self ids frame_indx mask = Ok r ->
  any_positive r = false.
Proof.
  revert mask. induction ids as [| x ids IH]; intros mask Hmask Hall H.
  - by injection H as <-.
  - rewrite accumulate_mask_cons in H.
    apply rbind_Ok in H as (mask' & Hstep & H).
    apply accumulate_step_Ok in Hstep as (pf & frm & Hpf & Hfrm & Hr).
    apply (IH mask'); [| | exact H].
    + destruct frm as [rle |]; [| by subst].
      apply any_positive_false.
      apply (iadd_Forall (fun p => p <= 0) mask (coco_decode rle) mask');
        [lia | by apply any_positive_false | | exact Hr].
      apply any_positive_false. eapply Hall; [by left | exact Hpf | exact Hfrm].
    + intros y pf' rle' Hy. apply Hall. by right.
Qed.

(** Annotations that are null at the frame leave the accumulator as it
    is. *)
Lemma accumulate_mask_absent (self : MeViSDataset) (ids : list string)
    (frame_indx : Z) (mask r : array) :
  (forall x per_frame, x ∈ ids -> mask_dict self !! x = Some per_frame ->
     py_index per_frame frame_indx = Ok None) ->
  accumulate_mask self ids frame_indx mask = Ok r -> r = mask.
Proof.
  revert mask. induction ids as [| x ids IH]; intros mask Hall H.
  - by injection H.
  - rewrite accumulate_mask_cons in H.
    apply rbind_Ok in H as (mask' & Hstep & H).
    apply accumulate_step_Ok in Hstep as (pf & frm & Hpf & Hfrm & Hr).
    assert (frm = None) as ->.
    { assert (Hnone : py_index pf frame_indx = Ok None)
        by (eapply Hall; [by left | done]).
      rewrite Hfrm in Hnone. by injection Hnone. }
    subst mask'. apply IH; [| exact H].
    intros y pf' Hy. apply Hall. by right.
Qed.

Lemma build_target_visible (self : MeViSDataset) (idx : Z) (w0 w1 : World)
    (imgs : list Image) (tgt : target box array) (meta : Meta) :
  build_target self idx w0 = (Ok (imgs, tgt), w1) ->
  py_index (metas self) idx = Ok meta ->
  (forall rle, nonneg (coco_decode rle)) ->
  0 < fst (orig_size tgt) -> 0 < snd (orig_size tgt) ->
  (forall frame_indx, frame_indx ∈ frames_idx tgt ->
     visible_at self meta frame_indx) ->
  Forall (fun mask => any_positive mask = true) (masks tgt).
Proof.
  intros (meta' & si & outs & img & Hmeta & Houts & Hlast & Hshape & -> & ->)
         %build_target_frames Hmeta' Hnn Hheight Hwidth Hvisible.
  rewrite Hmeta in Hmeta'. injection Hmeta' as ->.
  unfold target_of in *. cbn [masks frames_idx orig_size fst snd] in *.
  change (map f_img outs) with (f_img <$> outs) in Hlast.
  rewrite fmap_last in Hlast.
  destruct (last outs) as [o_last |] eqn:Hol; [| discriminate].
  injection Hlast as <-.
  assert (Hin_last : o_last ∈ outs) by (by eapply last_Some_elem_of).
  assert (Hws_last : well_shaped (snd (im_size (f_img o_last)))
                       (fst (im_size (f_img o_last))) (f_mask o_last)).
  { apply list_elem_of_lookup in Hin_last as (i & Hi).
    destruct (Forall2_lookup_r _ _ _ _ _ Houts Hi) as (jz & _ & Hstep).
    by eapply frame_mask_well_shaped. }
  apply Forall_fmap, Forall_lookup. intros i out Hi. simpl.
  destruct (Forall2_lookup_r _ _ _ _ _ Houts Hi) as (jz & _ & Hstep).
  pose proof (frame_mask_well_shaped _ _ _ _ _ _ Hstep) as Hws.
  apply frame_step_Ok in Hstep as (fi & name & Hfi & _ & _ & Hacc & _).
  destruct (Hvisible fi) as (x & pf & rle & Hx & Hpf & Hentry & Hpos).
  { by eapply py_index_elem_of. }
  assert (Hsame : shape (f_mask out) = shape (f_mask o_last)).
  { apply Hshape; [by eapply list_elem_of_lookup_2 | exact Hin_last]. }
  rewrite (well_shaped_shape _ _ _ Hws_last) in Hsame by lia.
  assert (Hh : snd (im_size (f_img out)) = snd (im_size (f_img o_last))).
  { destruct Hws as [Hlen _]. unfold shape in Hsame.
    injection Hsame as Hl _. lia. }
  rewrite (well_shaped_shape _ _ _ Hws) in Hsame by lia.
  injection Hsame as _ Hw.
  rewrite Hh, Hw in Hacc.
  eapply (accumulate_mask_visible self _ fi _ _ _ _ x pf rle Hnn
            (well_shaped_zeros _ _) (nonneg_zeros _ _)); [| | done ..]; lia.
Qed.

Lemma build_target_not_visible (self : MeViSDataset) (idx : Z)
    (w0 w1 : World) (imgs : list Image) (tgt : target box array)
    (meta : Meta) :
  build_target self idx w0 = (Ok (imgs, tgt), w1) ->
  py_index (metas self) idx = Ok meta ->
  (forall frame_indx, frame_indx ∈ frames_idx tgt ->
     ~ visible_at self meta frame_indx) ->
  Forall (fun mask => any_positive mask = false) (masks tgt).
Proof.
  intros (meta' & si & outs & img & Hmeta & Houts & _ & _ & -> & ->)
         %build_target_frames Hmeta' Hquiet.
  rewrite Hmeta in Hmeta'. injection Hmeta' as ->.
  unfold target_of in *. cbn [masks frames_idx] in *.
  apply Forall_fmap, Forall_lookup. intros i out Hi. simpl.
  destruct (Forall2_lookup_r _ _ _ _ _ Houts Hi) as (jz & _ & Hstep).
  apply frame_step_Ok in Hstep as (fi & name & Hfi & _ & _ & Hacc & _).
  eapply accumulate_mask_not_visible; [apply any_positive_zeros | | exact Hacc].
  intros x pf rle Hx Hpf Hentry. apply not_true_iff_false. intros Hpos.
  apply (Hquiet fi); [by eapply py_index_elem_of |].
  by exists x, pf, rle.
Qed.

Lemma absent_not_visible (self : MeViSDataset) (meta : Meta)
    (frame_indx : Z) :
  absent_at self meta frame_indx -> ~ visible_at self meta frame_indx.
Proof.
  intros Habs (x & pf & rle & Hx & Hpf & Hentry & _).
  rewrite (Habs x pf Hx Hpf) in Hentry. discriminate.
Qed.

End PresentAbsent.

Lemma flags_follow_masks (ms : list array) (bs : list box) (vs : list Z) :
  length bs = length ms -> length vs = length ms ->
  Forall2 (fun mask '(b, v) =>
             if any_positive mask then tight_bbox mask b /\ v = 1
             else b = (0, 0, 0, 0) /\ v = 0) ms (zip bs vs) ->
  (forall j mask, ms !! j = Some mask ->
     exists b v, bs !! j = Some b /\ vs !! j = Some v /\
       if any_positive mask then tight_bbox mask b /\ v = 1
       else b = (0, 0, 0, 0) /\ v = 0) /\
  (Forall (fun mask => any_positive mask = true) ms ->
   vs = replicate (length ms) 1) /\
  (Forall (fun mask => any_positive mask = false) ms ->
   vs = replicate (length ms) 0 /\ bs = replicate (length ms) (0, 0, 0, 0)).
Proof.
  revert bs vs. induction ms as [| m ms IH]; intros bs vs Hb Hv H.
  - destruct bs, vs; try discriminate. repeat split; try done.
  - destruct bs as [| b bs], vs as [| v vs]; try discriminate.
    simpl in *. apply Forall2_cons in H as [Hm H].
    destruct (IH bs vs) as (Hlook & Hpos & Hneg); [lia | lia | exact H |].
    split; [| split].
    + intros [| j] mask Hj; simpl in *.
      * injection Hj as <-. by exists b, v.
      * by apply Hlook.
    + intros [Hm1 Hms]%Forall_cons. rewrite Hm1 in Hm.
      destruct Hm as [_ ->]. f_equal. by apply Hpos.
    + intros [Hm0 Hms]%Forall_cons. rewrite Hm0 in Hm.
      destruct Hm as [-> ->]. destruct (Hneg Hms) as [Hvs Hbs].
      split; simpl; f_equal; assumption.
Qed.

(** C3 (as the code has it). For each of the [num_frames] positions of the
    target that the sample builder assembles: when the accumulated mask of
    the position has a strictly positive entry, the box is the tight
    bounding box of its non-zero entries, as (x1, y1, x2, y2), and the flag
    is 1; otherwise the box is (0, 0, 0, 0) and the flag is 0; computing
    the box and the flag of a mask raises nothing. Hence a task that has,
    at every sampled frame, an annotation whose decoded mask has a strictly
    positive entry gets flags that are all 1 (frames of positive size,
    decoded masks without negative entries); a task whose annotations are
    null at every sampled frame gets flags that are all 0 and boxes that
    are all (0, 0, 0, 0); and so does every task none of whose annotations
    has a decoded mask with a positive entry at a sampled frame, whether
    its entries are null or not. *)
Theorem boxes_and_valid_follow_masks `{E : Env} (self : MeViSDataset)
    (idx : Z) (w0 w1 : World) (imgs : list Image) (tgt : target box array) :
  build_target self idx w0 = (Ok (imgs, tgt), w1) ->
  let n := Z.to_nat (num_frames self) in
  (length (masks tgt) = n /\ length (boxes tgt) = n /\
   length (valid tgt) = n) /\
  (forall j mask, masks tgt !! j = Some mask ->
     exists b v, boxes tgt !! j = Some b /\ valid tgt !! j = Some v /\
       if any_positive mask then tight_bbox mask b /\ v = 1
       else b = (0, 0, 0, 0) /\ v = 0) /\
  (forall h w mask, well_shaped h w mask ->
     exists b v, box_and_valid mask = Ok (b, v)) /\
  (forall meta,
     py_index (metas self) idx = Ok meta ->
     (forall rle, nonneg (coco_decode rle)) ->
     0 < fst (orig_size tgt) -> 0 < snd (orig_size tgt) ->
     (forall frame_indx, frame_indx ∈ frames_idx tgt ->
        visible_at self meta frame_indx) ->
     valid tgt = replicate n 1) /\
  (forall meta,
     py_index (metas self) idx = Ok meta ->
     (forall frame_indx, frame_indx ∈ frames_idx tgt ->
        absent_at self meta frame_indx) ->
     valid tgt = replicate n 0 /\ boxes tgt = replicate n (0, 0, 0, 0)) /\
  (forall meta,
     py_index (metas self) idx = Ok meta ->
     (forall frame_indx, frame_indx ∈ frames_idx tgt ->
        ~ visible_at self meta frame_indx) ->
     valid tgt = replicate n 0 /\ boxes tgt = replicate n (0, 0, 0, 0)).
Proof.
  intros Hb. cbv zeta.
  pose proof (build_target_boxes _ _ _ _ _ _ Hb) as (Hlb & Hlv & Hall).
  destruct (flags_follow_masks _ _ _ Hlb Hlv Hall) as (Hlook & Hpos & Hneg).
  assert (Hn : length (masks tgt) = Z.to_nat (num_frames self)).
  { destruct (build_target_lengths _ _ _ _ _ _ Hb) as (_ & _ & _ & Hm & _).
    unfold len in Hm. lia. }
  rewrite <- Hn. split; [by rewrite Hlb, Hlv |]. split; [exact Hlook |].
  split; [intros h w mask; apply box_and_valid_total |].
  split; [| split].
  - intros meta Hmeta Hnn Hheight Hwidth Hvisible. apply Hpos.
    by eapply build_target_visible.
  - intros meta Hmeta Habsent. apply Hneg.
    eapply build_target_not_visible; [exact Hb | exact Hmeta |].
    intros fi Hfi. by apply absent_not_visible, Habsent.
  - intros meta Hmeta Hquiet. apply Hneg.
    by eapply build_target_not_visible.
Qed.

Lemma boxes_and_valid_follow_masks_witness :
  valid (Demo.target_in (build_target Demo.dataset 6 0%nat)) = [1; 1] /\
  (frames_idx (Demo.target_in (build_target Demo.dataset_second 1 0%nat))
     = [2; 3] /\
   mask_dict Demo.dataset_second !! "2"
     = Some [None; Some Demo.m2; None; None] /\
   valid (Demo.target_in (build_target Demo.dataset_second 1 0%nat))
     = [0; 0] /\
   boxes (Demo.target_in (build_target Demo.dataset_second 1 0%nat))
     = [(0, 0, 0, 0); (0, 0, 0, 0)]) /\
  valid (Demo.target_in (build_target Demo.dataset_blank 0 0%nat)) = [0; 0] /\
  tight_bbox [[0; 1; 1]; [0; 0; 0]] (1, 0, 2, 0).
Proof.
  assert (Hpre : forall idx,
            idx = 0 \/ idx = 6 ->
            build_target Demo.dataset idx 0%nat =
            (Ok (Demo.imgs_of (build_target Demo.dataset idx 0%nat),
                 Demo.target_in (build_target Demo.dataset idx 0%nat)),
             0%nat)).
  { intros idx [-> | ->]; vm_compute; reflexivity. }
  assert (Hsecond : build_target Demo.dataset_second 1 0%nat =
            (Ok (Demo.imgs_of (build_target Demo.dataset_second 1 0%nat),
                 Demo.target_in (build_target Demo.dataset_second 1 0%nat)),
             0%nat)) by (vm_compute; reflexivity).
  assert (Hblank : build_target Demo.dataset_blank 0 0%nat =
            (Ok (Demo.imgs_of (build_target Demo.dataset_blank 0 0%nat),
                 Demo.target_in (build_target Demo.dataset_blank 0 0%nat)),
             0%nat)) by (vm_compute; reflexivity).
  assert (Hnn : forall rle, nonneg (@coco_decode Demo.env rle)).
  { intros rle. apply binary_nonneg, demo_decode_binary. }
  split; [| split; [| split]].
  - destruct (boxes_and_valid_follow_masks Demo.dataset 6 0%nat 0%nat _ _
                (Hpre 6 ltac:(lia))) as (_ & _ & _ & Hvisible & _).
    apply (Hvisible (make_meta "v1" Demo.everywhere
                       ["f0"; "f1"; "f2"; "f3"] 0));
      [reflexivity | exact Hnn | reflexivity | reflexivity |].
    intros fi Hfi.
    assert (fi = 0 \/ fi = 1) as [-> | ->].
    { vm_compute in Hfi.
      repeat (apply elem_of_cons in Hfi as [-> | Hfi]; [lia |]).
      by apply elem_of_nil in Hfi. }
    + exists "4", [Some Demo.m1; Some Demo.m2; Some Demo.m2; Some Demo.m1],
        Demo.m1.
      split; [by left |]. split; [reflexivity |]. split; reflexivity.
    + exists "4", [Some Demo.m1; Some Demo.m2; Some Demo.m2; Some Demo.m1],
        Demo.m2.
      split; [by left |]. split; [reflexivity |]. split; reflexivity.
  - split; [reflexivity |]. split; [reflexivity |].
    destruct (boxes_and_valid_follow_masks Demo.dataset_second 1 0%nat 0%nat
                _ _ Hsecond) as (_ & _ & _ & _ & Habsent & _).
    apply (Habsent (make_meta "v1" Demo.second
                      ["f0"; "f1"; "f2"; "f3"] 2)); [reflexivity |].
    intros fi Hfi.
    assert (fi = 2 \/ fi = 3) as Hcases.
    { vm_compute in Hfi.
      repeat (apply elem_of_cons in Hfi as [-> | Hfi]; [lia |]).
      by apply elem_of_nil in Hfi. }
    intros x pf Hx Hpf. apply list_elem_of_singleton in Hx. subst x.
    vm_compute in Hpf. injection Hpf as <-.
    destruct Hcases as [-> | ->]; reflexivity.
  - destruct (boxes_and_valid_follow_masks Demo.dataset_blank 0 0%nat 0%nat
                _ _ Hblank) as (_ & _ & _ & _ & _ & Hquiet).
    apply (Hquiet (make_meta "v1" Demo.blank ["f0"; "f1"] 0));
      [reflexivity |].
    intros fi Hfi (x & pf & rle & Hx & Hpf & Hentry & Hpos).
    assert (fi = 0 \/ fi = 1) as Hcases.
    { vm_compute in Hfi.
      repeat (apply elem_of_cons in Hfi as [-> | Hfi]; [lia |]).
      by apply elem_of_nil in Hfi. }
    apply list_elem_of_singleton in Hx. subst x.
    vm_compute in Hpf. injection Hpf as <-.
    destruct Hcases as [-> | ->]; vm_compute in Hentry;
      injection Hentry as <-; vm_compute in Hpos; discriminate.
  - destruct (boxes_and_valid_follow_masks Demo.dataset 0 0%nat 0%nat _ _
                (Hpre 0 ltac:(lia))) as (_ & Hlook & _).
    destruct (Hlook 1%nat [[0; 1; 1]; [0; 0; 0]] eq_refl)
      as (b & v & Hb & _ & Htight).
    vm_compute in Hb. injection Hb as <-.
    change (any_positive [[0; 1; 1]; [0; 0; 0]]) with true in Htight.
    exact (proj1 Htight).
Defined.

(** C3, refuted as stated: the only annotation of the expression is
    present at both sampled frames, with a decoded mask that has no
    positive entry, and both flags are 0. *)
Lemma present_masks_without_pixels_are_invalid :
  exists imgs tgt meta,
    build_target Demo.dataset_blank 0 0%nat = (Ok (imgs, tgt), 0%nat) /\
    py_index (metas Demo.dataset_blank) 0 = Ok meta /\
    frames_idx tgt = [0; 1] /\
    present_at Demo.dataset_blank meta 0 /\
    present_at Demo.dataset_blank meta 1 /\
    valid tgt = [0; 0].
Proof.
  eexists _, _, _. split; [vm_compute; reflexivity |].
  split; [vm_compute; reflexivity |]. split; [reflexivity |].
  split; [| split; [| reflexivity]].
  - exists "5", [Some Demo.m0; Some Demo.m0], Demo.m0.
    split; [by left |]. split; reflexivity.
  - exists "5", [Some Demo.m0; Some Demo.m0], Demo.m0.
    split; [by left |]. split; reflexivity.
Qed.

(** * Further properties of the loaders *)

(** ** Unwrapping subsets *)

Section CocoApiFacts.
Context {Coco Other : Type}.
Implicit Types (d : torch_dataset Coco Other) (layers : list (list Z)).

Lemma unwrap_subsets_wrap (n : nat) layers d :
  unwrap_once d = d ->
  unwrap_subsets n (wrap_subsets layers d) = wrap_subsets (drop n layers) d.
Proof.
  intros Hd. revert layers. induction n as [| n IH]; intros layers.
  - by rewrite drop_0.
  - destruct layers as [| indices layers]; simpl.
    + rewrite Hd. specialize (IH []). by rewrite drop_nil in IH.
    + apply IH.
Qed.

Lemma unwrap_subsets_coco (n : nat) d (coco : Coco) :
  unwrap_subsets n d = CocoDetection coco ->
  exists layers,
    (length layers <= n)%nat /\ d = wrap_subsets layers (CocoDetection coco).
Proof.
  revert d. induction n as [| n IH]; intros d H; simpl in H.
  - exists []. split; [reflexivity | exact H].
  - destruct (IH _ H) as (layers & Hlen & Hd).
    destruct d as [inner indices | coco' | other]; simpl in Hd.
    + exists (indices :: layers). split; [simpl; lia | by rewrite Hd].
    + exists []. split; [simpl; lia |].
      destruct layers; [exact Hd | discriminate].
    + destruct layers; discriminate.
Qed.

End CocoApiFacts.

(** X1. [get_coco_api_from_dataset] looks through at most ten nested
    [Subset] wrappers: it returns the COCO handle exactly for a
    [CocoDetection] dataset wrapped in ten or fewer subsets; under eleven or
    more wrappers, and for every dataset that is not built on a
    [CocoDetection], it returns [None]. *)
Theorem get_coco_api_looks_ten_deep {Coco Other : Type}
    (d : torch_dataset Coco Other) :
  (forall coco,
     get_coco_api_from_dataset d = Some coco <->
     exists layers,
       (length layers <= 10)%nat /\
       d = wrap_subsets layers (CocoDetection coco)) /\
  (forall layers coco,
     (10 < length layers)%nat ->
     d = wrap_subsets layers (CocoDetection coco) ->
     get_coco_api_from_dataset d = None) /\
  (forall layers other,
     d = wrap_subsets layers (OtherDataset other) ->
     get_coco_api_from_dataset d = None).
Proof.
  split; [| split].
  - intros coco. unfold get_coco_api_from_dataset. split.
    + destruct (unwrap_subsets 10 d) as [| coco' |] eqn:Hun; try discriminate.
      intros [= ->]. by apply unwrap_subsets_coco.
    + intros (layers & Hlen & ->).
      rewrite unwrap_subsets_wrap by reflexivity.
      by rewrite drop_ge by lia.
  - intros layers coco Hlen ->. unfold get_coco_api_from_dataset.
    rewrite unwrap_subsets_wrap by reflexivity.
    destruct (drop 10 layers) as [| indices rest] eqn:Hdrop; [| reflexivity].
    apply (f_equal length) in Hdrop. rewrite length_drop in Hdrop.
    simpl in Hdrop. lia.
  - intros layers other ->. unfold get_coco_api_from_dataset.
    rewrite unwrap_subsets_wrap by reflexivity.
    by destruct (drop 10 layers).
Qed.

Lemma get_coco_api_looks_ten_deep_witness :
  get_coco_api_from_dataset
    (wrap_subsets (replicate 10 [0; 1])
       (CocoDetection "coco" : torch_dataset string unit)) = Some "coco"%string
  /\
  get_coco_api_from_dataset
    (wrap_subsets (replicate 11 [0; 1])
       (CocoDetection "coco" : torch_dataset string unit)) = None /\
  get_coco_api_from_dataset
    (wrap_subsets [[0]] (OtherDataset tt : torch_dataset string unit)) = None.
Proof.
  split; [| split].
  - apply (proj1 (get_coco_api_looks_ten_deep _)).
    exists (replicate 10 [0; 1]). split; [simpl; lia | reflexivity].
  - apply (proj1 (proj2 (get_coco_api_looks_ten_deep _))
             (replicate 11 [0; 1]) "coco"%string); [simpl; lia | reflexivity].
  - apply (proj2 (proj2 (get_coco_api_looks_ten_deep _)) [[0]] tt).
    reflexivity.
Defined.

(** ** More on the catalog *)

Lemma len_sorted (names : list string) : len (sorted names) = len names.
Proof.
  unfold len, sorted. f_equal. apply Permutation_length.
  apply merge_sort_Permutation.
Qed.

Lemma sorted_Permutation (names names' : list string) :
  names ≡ₚ names' -> sorted names = sorted names'.
Proof.
  intros Hperm. unfold sorted. apply (Sorted_unique String.le).
  - apply Sorted_merge_sort. apply _.
  - apply Sorted_merge_sort. apply _.
  - by rewrite !merge_sort_Permutation.
Qed.

Lemma clips_of_nonneg (vid_len nf : Z) :
  0 < nf -> 0 <= vid_len -> 0 <= clips_of vid_len nf.
Proof. intros Hnf Hlen. unfold clips_of. apply Z.div_pos; lia. Qed.

Lemma len_anchors_code (vid_len nf : Z) :
  0 < nf -> 0 <= vid_len ->
  len (anchors_code vid_len nf) = clips_of vid_len nf.
Proof.
  intros Hnf Hlen. pose proof (clips_of_nonneg vid_len nf Hnf Hlen) as Hc.
  unfold len, anchors_code, range_count, clips_of in *.
  rewrite length_map, length_seq.
  destruct (Z.ltb_spec 0 nf); [| lia].
  replace (vid_len - 0 + nf - 1) with (vid_len + nf - 1) by lia. lia.
Qed.

Lemma anchors_code_negative (vid_len nf : Z) :
  nf < 0 -> 0 <= vid_len -> anchors_code vid_len nf = [].
Proof.
  intros Hnf Hlen. unfold anchors_code, range_count.
  destruct (Z.ltb_spec 0 nf); [lia |].
  assert ((0 - vid_len - nf - 1) / - nf < 1)
    by (apply Z.div_lt_upper_bound; lia).
  replace (Z.to_nat (Z.max 0 ((0 - vid_len - nf - 1) / - nf))) with 0%nat
    by lia.
  reflexivity.
Qed.

Lemma len_video_entries (nf : Z) (vid : string) (frames : list string)
    (exps : list (string * Expression)) :
  len (flat_map (fun '(_, exp_dict) =>
                   map (make_meta vid exp_dict frames)
                       (anchors_code (len frames) nf)) exps)
  = len exps * len (anchors_code (len frames) nf).
Proof.
  induction exps as [| [exp_id exp_dict] exps IH]; [reflexivity |].
  cbn [flat_map]. unfold len in *.
  rewrite length_app, Nat2Z.inj_add, IH, length_map. simpl length. lia.
Qed.

Lemma len_catalog_code (nf : Z) (manifest : Manifest) :
  0 < nf -> len (catalog_code nf manifest) = catalog_size nf manifest.
Proof.
  intros Hnf. induction manifest as [| [vid vid_data] rest IH];
    [reflexivity |].
  unfold catalog_code, catalog_size in *. cbn [flat_map foldr]. cbv zeta.
  rewrite <- IH. unfold len at 1. rewrite length_app, Nat2Z.inj_add.
  fold (len (flat_map
          (fun '(_, exp_dict) =>
             map (make_meta vid exp_dict (sorted (v_frames vid_data)))
                 (anchors_code (len (sorted (v_frames vid_data))) nf))
          (v_expressions vid_data))).
  rewrite len_video_entries.
  rewrite len_anchors_code; [| done | unfold len; lia].
  rewrite len_sorted. reflexivity.
Qed.

(** X2. For a positive clip length the constructor builds a dataset whose
    length is the sum, over the videos of the manifest, of the number of
    expressions times the number of clips of the video (its frame count
    divided by the clip length, rounded up); its video list is the list of
    the manifest's videos, also of those that contribute no entry. *)
Theorem dataset_length_counts_clips `{E : Env} (img_folder : string)
    (manifest : Manifest)
    (transforms :
       list Image -> target box array -> M (list TImg * target TBox TMask))
    (nf : Z) (mask_json : gmap string (list (option Rle))) :
  0 < nf ->
  exists self,
    __init__ img_folder manifest transforms nf mask_json = Ok self /\
    __len__ self = catalog_size nf manifest /\
    videos self = map fst manifest.
Proof.
  intros Hnf. unfold __init__. rewrite prepare_metas_nonzero by lia.
  eexists. split; [reflexivity |]. split; [| reflexivity].
  unfold __len__. simpl. by apply len_catalog_code.
Qed.

Lemma dataset_length_counts_clips_witness :
  __len__ Demo.dataset = 8 /\ catalog_size 2 Demo.manifest = 8 /\
  catalog_size 3 Demo.ten_frames = 4.
Proof.
  assert (Hnf : 0 < 2) by lia.
  destruct (dataset_length_counts_clips "data" Demo.manifest
              Demo.identity_transforms 2 Demo.mask_json Hnf)
    as (self & Hinit & Hlen & _).
  assert (self = Demo.dataset) as ->.
  { unfold Demo.dataset, Demo.dataset_of. by rewrite Hinit. }
  split; [| split; reflexivity].
  rewrite Hlen. reflexivity.
Defined.

(** X3. For a positive clip length every catalog entry is anchored inside
    its own frame list: its video is one of the dataset's videos, its frame
    names are sorted, its anchor is a multiple of the clip length that is a
    position of the frame list (so indexing the frames at the anchor
    raises nothing), and its category is 0. *)
Theorem catalog_entries_are_anchored (nf : Z) (manifest : Manifest)
    (vs : list string) (ms : list Meta) :
  0 < nf ->
  prepare_metas nf manifest = Ok (vs, ms) ->
  forall m, m ∈ ms ->
    m_video m ∈ vs /\
    Sorted String.le (m_frames m) /\
    0 <= m_frame_id m < len (m_frames m) /\
    m_frame_id m mod nf = 0 /\
    (exists name, py_index (m_frames m) (m_frame_id m) = Ok name) /\
    m_category m = 0.
Proof.
  intros Hnf H m Hm. rewrite prepare_metas_nonzero in H by lia.
  injection H as <- <-.
  apply elem_of_catalog_code in Hm
    as (vid & vd & eid & e & a & Hvid & Hexp & Ha & ->).
  apply elem_of_anchors_code in Ha as (Hrange & k & Hk & ->); [| done].
  cbn [make_meta m_video m_frames m_frame_id m_category].
  split; [| split; [| split; [| split; [| split]]]].
  - apply list_elem_of_fmap. by exists (vid, vd).
  - unfold sorted. apply Sorted_merge_sort. apply _.
  - exact Hrange.
  - apply Z.mod_mul. lia.
  - apply py_index_total. lia.
  - reflexivity.
Qed.

Lemma catalog_entries_are_anchored_witness :
  0 < 2 /\
  prepare_metas 2 Demo.manifest
  = Ok (videos Demo.dataset, metas Demo.dataset) /\
  Forall (fun m => 0 <= m_frame_id m < len (m_frames m) /\
                   m_frame_id m mod 2 = 0)
    (metas Demo.dataset).
Proof.
  assert (Hnf : 0 < 2) by lia.
  assert (Hcat : prepare_metas 2 Demo.manifest
                 = Ok (videos Demo.dataset, metas Demo.dataset))
    by reflexivity.
  split; [exact Hnf | split; [exact Hcat |]].
  apply Forall_forall. intros m Hm.
  destruct (catalog_entries_are_anchored 2 Demo.manifest _ _ Hnf Hcat m Hm)
    as (_ & _ & Hrange & Hmod & _).
  by split.
Defined.

Lemma catalog_code_negative (nf : Z) (manifest : Manifest) :
  nf < 0 -> catalog_code nf manifest = [].
Proof.
  intros Hnf. unfold catalog_code.
  induction manifest as [| [vid vid_data] rest IH]; [reflexivity |].
  cbn [flat_map]. rewrite IH, app_nil_r. cbv zeta.
  rewrite anchors_code_negative; [| done | unfold len; lia].
  by induction (v_expressions vid_data) as [| [? ?] ? IHe].
Qed.

Lemma metas_of_video_zero (vid : string) (vid_data : VideoData)
    (acc : list Meta) :
  metas_of_video 0 vid vid_data acc =
  match v_expressions vid_data with
  | [] => Ok acc
  | _ => Raise (ValueError "range() arg 3 must not be zero")
  end.
Proof.
  unfold metas_of_video. by destruct (v_expressions vid_data) as [| [? ?] ?].
Qed.

(** X4. A clip length that is not positive gives no catalog entry: with a
    negative clip length metadata preparation returns the videos and an
    empty catalog, and with the clip length 0 it raises the [ValueError] of
    [range] as soon as a video has an expression and returns an empty
    catalog otherwise. *)
Theorem prepare_metas_nonpositive_clip_length (nf : Z) (manifest : Manifest) :
  (nf < 0 -> prepare_metas nf manifest = Ok (map fst manifest, [])) /\
  (nf = 0 ->
   prepare_metas nf manifest =
   if has_expression manifest
   then Raise (ValueError "range() arg 3 must not be zero")
   else Ok (map fst manifest, [])).
Proof.
  split.
  - intros Hnf. rewrite prepare_metas_nonzero by lia.
    by rewrite catalog_code_negative.
  - intros ->. unfold prepare_metas, has_expression.
    induction manifest as [| [vid vid_data] rest IH]; [reflexivity |].
    cbn [rfold existsb]. rewrite metas_of_video_zero.
    destruct (v_expressions vid_data) as [| exp exps]; [| reflexivity].
    cbn [orb]. cbn [mbind result_bind rbind] in *.
    destruct (rfold _ rest []) as [ms | e]; destruct (existsb _ rest);
      simpl in *; try discriminate.
    + by injection IH as ->.
    + by injection IH as ->.
Qed.

Lemma prepare_metas_nonpositive_clip_length_witness :
  prepare_metas (-2) Demo.manifest = Ok (["v1"], []) /\
  prepare_metas 0 Demo.manifest
    = Raise (ValueError "range() arg 3 must not be zero") /\
  prepare_metas 0 [("v1", {| v_frames := ["f0"]; v_expressions := [] |})]
    = Ok (["v1"], []).
Proof.
  assert (Hneg : -2 < 0) by lia.
  split; [| split].
  - exact (proj1 (prepare_metas_nonpositive_clip_length (-2) Demo.manifest)
             Hneg).
  - exact (proj2 (prepare_metas_nonpositive_clip_length 0 Demo.manifest)
             eq_refl).
  - exact (proj2 (prepare_metas_nonpositive_clip_length 0
                    [("v1", {| v_frames := ["f0"]; v_expressions := [] |})])
             eq_refl).
Defined.

(** X5. The catalog does not depend on the order in which the manifest
    lists the frame names of a video: two manifests with the same videos
    and expressions whose frame lists are permutations of each other give
    the same result, for every clip length. *)
Theorem prepare_metas_ignores_frame_order (nf : Z)
    (manifest manifest' : Manifest) :
  Forall2 same_video manifest manifest' ->
  prepare_metas nf manifest = prepare_metas nf manifest'.
Proof.
  intros Hsame. unfold prepare_metas.
  assert (Hvideos : map fst manifest = map fst manifest').
  { induction Hsame as [| vd vd' rest rest' (Hv & _) _ IH]; [reflexivity |].
    simpl. by rewrite Hv, IH. }
  assert (Hfold : forall acc,
    rfold (fun acc '(vid, vid_data) => metas_of_video nf vid vid_data acc)
          manifest acc =
    rfold (fun acc '(vid, vid_data) => metas_of_video nf vid vid_data acc)
          manifest' acc).
  { clear Hvideos.
    induction Hsame as [| [vid vd] [vid' vd'] rest rest' (Hv & Hf & He) _ IH];
      intros acc; [reflexivity |].
    simpl in Hv, Hf, He. subst vid'. cbn [rfold].
    assert (Hvideo : metas_of_video nf vid vd acc
                     = metas_of_video nf vid vd' acc).
    { unfold metas_of_video. by rewrite (sorted_Permutation _ _ Hf), He. }
    rewrite Hvideo.
    destruct (metas_of_video nf vid vd' acc) as [acc' | e]; [| reflexivity].
    exact (IH acc'). }
  by rewrite Hfold, Hvideos.
Qed.

Lemma prepare_metas_ignores_frame_order_witness :
  prepare_metas 2
    [("v1", {| v_frames := ["f1"; "f3"; "f0"; "f2"];
               v_expressions :=
                 [("0", Demo.person); ("1", Demo.two_things);
                  ("2", Demo.nothing); ("3", Demo.everywhere)] |})]
  = prepare_metas 2 Demo.manifest.
Proof.
  apply prepare_metas_ignores_frame_order.
  constructor; [| constructor].
  split; [reflexivity |]. split; [| reflexivity]. simpl.
  apply perm_swap.
Defined.

(** ** Indices of the catalog *)

Lemma py_index_out_of_range {A} (l : list A) (i : Z) :
  i < - len l \/ len l <= i -> py_index l i = Raise IndexError.
Proof.
  intros Hi. unfold py_index.
  destruct (Z.ltb_spec i 0).
  - destruct (Z.leb_spec 0 (i + len l)); [| reflexivity].
    unfold len in *. lia.
  - destruct (Z.leb_spec 0 i); [| reflexivity].
    destruct (Z.ltb_spec i (len l)); [| reflexivity].
    unfold len in *. lia.
Qed.

Lemma py_index_negative {A} (l : list A) (i : Z) :
  - len l <= i < 0 -> py_index l i = py_index l (i + len l).
Proof.
  intros Hi. unfold py_index.
  destruct (Z.ltb_spec i 0); [| lia].
  destruct (Z.ltb_spec (i + len l) 0); [lia | reflexivity].
Qed.

(** X6. An index outside [-len, len) makes [__getitem__] raise
    [IndexError] in its first pass, before the frame sampler, the files and
    the random generator are touched; on an empty catalog every index does
    so. *)
Theorem getitem_index_out_of_range `{E : Env} (self : MeViSDataset)
    (fuel : nat) (idx : Z) (w : World) :
  (idx < - __len__ self \/ __len__ self <= idx ->
   __getitem__ (S fuel) self idx w = Some (Raise IndexError, w)) /\
  (metas self = [] ->
   __getitem__ (S fuel) self idx w = Some (Raise IndexError, w)).
Proof.
  assert (Hout : idx < - __len__ self \/ __len__ self <= idx ->
            __getitem__ (S fuel) self idx w = Some (Raise IndexError, w)).
  { intros Hidx. simpl. unfold iteration, build_target, M_bind, lift.
    by rewrite (py_index_out_of_range _ _ Hidx). }
  split; [exact Hout |].
  intros Hempty. apply Hout. unfold __len__, len. rewrite Hempty. simpl. lia.
Qed.

Lemma getitem_index_out_of_range_witness :
  __getitem__ 3 Demo.dataset 8 5%nat = Some (Raise IndexError, 5%nat) /\
  __getitem__ 1 Demo.dataset (-9) 0%nat = Some (Raise IndexError, 0%nat) /\
  __getitem__ 2 Demo.empty_dataset 0 0%nat = Some (Raise IndexError, 0%nat).
Proof.
  assert (Hlen : __len__ Demo.dataset = 8) by reflexivity.
  split; [| split].
  - apply (proj1 (getitem_index_out_of_range Demo.dataset 2 8 5%nat)).
    rewrite Hlen. lia.
  - apply (proj1 (getitem_index_out_of_range Demo.dataset 0 (-9) 0%nat)).
    rewrite Hlen. lia.
  - apply (proj2 (getitem_index_out_of_range Demo.empty_dataset 1 0 0%nat)).
    reflexivity.
Defined.

Lemma assemble_exp_id `{E : Env} (self : MeViSDataset) (idx idx' : Z)
    (meta : Meta) (sample_indx : list Z) :
  assemble self idx meta sample_indx =
  match assemble self idx' meta sample_indx with
  | Ok (imgs, tgt) => Ok (imgs, with_exp_id idx tgt)
  | Raise e => Raise e
  end.
Proof.
  unfold assemble.
  destruct (rmap _ (py_range (num_frames self))) as [outs |];
    [| reflexivity].
  cbn [mbind result_bind rbind].
  destruct (last (map f_img outs)) as [img |]; [| reflexivity].
  cbn [mbind result_bind rbind]. destruct (im_size img) as [iw ih].
  destruct (torch_stack _ (map f_label outs)); [| reflexivity].
  cbn [mbind result_bind rbind].
  destruct (torch_stack _ (map f_box outs)); [| reflexivity].
  cbn [mbind result_bind rbind].
  destruct (torch_stack shape (map f_mask outs)); reflexivity.
Qed.

(** X7. A negative index in [-len, 0) selects the catalog entry counted
    from the end: the pass builds the same images and the same target as
    for the index [idx + len], and leaves the generator in the same state,
    except that the target's [exp_id] is the negative index as it was
    passed. *)
Theorem negative_index_counts_from_end `{E : Env} (self : MeViSDataset)
    (idx : Z) (w : World) :
  - __len__ self <= idx < 0 ->
  build_target self idx w =
  match build_target self (idx + __len__ self) w with
  | (Ok (imgs, tgt), w') => (Ok (imgs, with_exp_id idx tgt), w')
  | (Raise e, w') => (Raise e, w')
  end.
Proof.
  intros Hidx. unfold build_target, M_bind, lift, __len__ in *.
  rewrite (py_index_negative _ _ Hidx).
  destruct (py_index (metas self) (idx + len (metas self))) as [meta |];
    [| reflexivity].
  destruct (sample_global_frames _ _ _ w) as [[si |] w']; [| reflexivity].
  rewrite (assemble_exp_id self idx (idx + len (metas self))).
  by destruct (assemble self (idx + len (metas self)) meta si) as [[? ?] |].
Qed.

Lemma negative_index_counts_from_end_witness :
  build_target Demo.dataset (-6) 0%nat =
  (Ok (Demo.imgs_of (build_target Demo.dataset 2 0%nat),
       with_exp_id (-6) (Demo.target_in (build_target Demo.dataset 2 0%nat))),
   0%nat).
Proof.
  assert (Hidx : - __len__ Demo.dataset <= -6 < 0)
    by (change (__len__ Demo.dataset) with 8; lia).
  rewrite (negative_index_counts_from_end Demo.dataset (-6) 0%nat Hidx).
  reflexivity.
Defined.

(** ** Frames, masks and boxes of one size *)

(** The sides of a tight box are ordered, and each is the row or the column
    of a non-zero entry. *)
Lemma tight_bbox_touch (m : array) (x1 y1 x2 y2 : Z) :
  tight_bbox m (x1, y1, x2, y2) ->
  (0 <= x1 <= x2 /\ 0 <= y1 <= y2) /\
  (exists r c, pixel m r c <> 0 /\ Z.of_nat r = y1) /\
  (exists r c, pixel m r c <> 0 /\ Z.of_nat r = y2) /\
  (exists r c, pixel m r c <> 0 /\ Z.of_nat c = x1) /\
  (exists r c, pixel m r c <> 0 /\ Z.of_nat c = x2).
Proof.
  intros (Hx1 & Hy1 & Hin & (c1 & Hc1) & (c2 & Hc2) & (r1 & Hr1) & (r2 & Hr2)).
  assert (Hy : y1 <= y2).
  { destruct (Hin _ _ Hc1) as [Hrow _]. rewrite Z2Nat.id in Hrow by exact Hy1.
    lia. }
  assert (Hx : x1 <= x2).
  { destruct (Hin _ _ Hr1) as [_ Hcol]. rewrite Z2Nat.id in Hcol by exact Hx1.
    lia. }
  split; [lia |]. split; [| split; [| split]].
  - exists (Z.to_nat y1), c1. split; [exact Hc1 | apply Z2Nat.id; lia].
  - exists (Z.to_nat y2), c2. split; [exact Hc2 | apply Z2Nat.id; lia].
  - exists r1, (Z.to_nat x1). split; [exact Hr1 | apply Z2Nat.id; lia].
  - exists r2, (Z.to_nat x2). split; [exact Hr2 | apply Z2Nat.id; lia].
Qed.

Lemma tight_bbox_unique (m : array) (b b' : box) :
  tight_bbox m b -> tight_bbox m b' -> b = b'.
Proof.
  destruct b as [[[x1 y1] x2] y2], b' as [[[x1' y1'] x2'] y2'].
  intros Hb Hb'.
  pose proof (tight_bbox_touch _ _ _ _ _ Hb)
    as (_ & (r1 & c1 & Hp1 & <-) & (r2 & c2 & Hp2 & <-)
        & (r3 & c3 & Hp3 & <-) & (r4 & c4 & Hp4 & <-)).
  pose proof (tight_bbox_touch _ _ _ _ _ Hb')
    as (_ & (r1' & c1' & Hp1' & <-) & (r2' & c2' & Hp2' & <-)
        & (r3' & c3' & Hp3' & <-) & (r4' & c4' & Hp4' & <-)).
  destruct Hb as (_ & _ & Hin & _). destruct Hb' as (_ & _ & Hin' & _).
  pose proof (Hin _ _ Hp1') as [? _]. pose proof (Hin _ _ Hp2') as [? _].
  pose proof (Hin _ _ Hp3') as [_ ?]. pose proof (Hin _ _ Hp4') as [_ ?].
  pose proof (Hin' _ _ Hp1) as [? _]. pose proof (Hin' _ _ Hp2) as [? _].
  pose proof (Hin' _ _ Hp3) as [_ ?]. pose proof (Hin' _ _ Hp4) as [_ ?].
  assert (Z.of_nat c3 = Z.of_nat c3') by lia.
  assert (Z.of_nat r1 = Z.of_nat r1') by lia.
  assert (Z.of_nat c4 = Z.of_nat c4') by lia.
  assert (Z.of_nat r2 = Z.of_nat r2') by lia.
  congruence.
Qed.

Lemma build_target_shapes `{E : Env} (self : MeViSDataset) (idx : Z)
    (w0 w1 : World) (imgs : list Image) (tgt : target box array) :
  build_target self idx w0 = (Ok (imgs, tgt), w1) ->
  exists img,
    last imgs = Some img /\
    orig_size tgt
      = (Z.of_nat (snd (im_size img)), Z.of_nat (fst (im_size img))) /\
    size tgt = orig_size tgt /\
    Forall2 (fun img_j mask =>
               well_shaped (snd (im_size img_j)) (fst (im_size img_j)) mask /\
               ((0 < snd (im_size img_j))%nat -> im_size img_j = im_size img))
      imgs (masks tgt).
Proof.
  intros (meta & si & outs & img & _ & Houts & Hlast & Hshape & -> & ->)
         %build_target_frames.
  exists img. split; [exact Hlast |]. split; [reflexivity |].
  split; [reflexivity |]. unfold target_of. cbn [masks].
  change (map f_img outs) with (f_img <$> outs) in *.
  change (map f_mask outs) with (f_mask <$> outs).
  rewrite fmap_last in Hlast.
  destruct (last outs) as [o_last |] eqn:Hol; [| discriminate].
  injection Hlast as <-.
  assert (Hin_last : o_last ∈ outs) by (by eapply last_Some_elem_of).
  assert (Hws : Forall (fun out =>
            well_shaped (snd (im_size (f_img out)))
              (fst (im_size (f_img out))) (f_mask out)) outs).
  { apply Forall_lookup. intros i out Hi.
    destruct (Forall2_lookup_r _ _ _ _ _ Houts Hi) as (jz & _ & Hstep).
    by eapply frame_mask_well_shaped. }
  rewrite Forall_forall in Hws. pose proof (Hws _ Hin_last) as Hws_last.
  apply Forall2_fmap, Forall_Forall2_diag, Forall_forall.
  intros out Hout. simpl. split; [by apply Hws |]. intros Hpos.
  pose proof (Hshape _ _ Hout Hin_last) as Hsame.
  rewrite (well_shaped_shape _ _ _ (Hws _ Hout) Hpos) in Hsame.
  assert (HH : snd (im_size (f_img out)) = snd (im_size (f_img o_last))).
  { destruct Hws_last as [Hlen _]. unfold shape in Hsame.
    injection Hsame as Hl _. lia. }
  rewrite (well_shaped_shape _ _ _ Hws_last) in Hsame by lia.
  injection Hsame as _ HW.
  destruct (im_size (f_img out)), (im_size (f_img o_last)). simpl in *.
  by subst.
Qed.

(** X8. The box of a frame whose mask has a positive entry is exactly what
    [bounding_box] returns on the mask, as (x1, y1, x2, y2): clamping never
    changes it, since its corners are pixel positions of the image,
    0 <= x1 <= x2 < width and 0 <= y1 <= y2 < height. *)
Theorem valid_boxes_are_pixel_positions `{E : Env} (self : MeViSDataset)
    (idx : Z) (w0 w1 : World) (imgs : list Image) (tgt : target box array)
    (j : nat) (mask : array) (x1 y1 x2 y2 : Z) :
  build_target self idx w0 = (Ok (imgs, tgt), w1) ->
  masks tgt !! j = Some mask ->
  any_positive mask = true ->
  boxes tgt !! j = Some (x1, y1, x2, y2) ->
  bounding_box mask = Ok (y1, y2, x1, x2) /\
  0 <= x1 <= x2 /\ x2 < snd (orig_size tgt) /\
  0 <= y1 <= y2 /\ y2 < fst (orig_size tgt).
Proof.
  intros Hb Hmask Hpos Hbox.
  pose proof (build_target_boxes _ _ _ _ _ _ Hb) as (Hlb & Hlv & Hall).
  destruct (flags_follow_masks _ _ _ Hlb Hlv Hall) as (Hlook & _ & _).
  destruct (Hlook _ _ Hmask) as (b & v & Hb' & _ & Htight).
  assert (Hsame_box : Some b = Some (x1, y1, x2, y2))
    by (etrans; [symmetry; exact Hb' | exact Hbox]).
  injection Hsame_box as ->. rewrite Hpos in Htight.
  destruct Htight as [Htight _].
  destruct (build_target_shapes _ _ _ _ _ _ Hb)
    as (img & _ & Hsize & _ & Hshapes).
  destruct (Forall2_lookup_r _ _ _ _ _ Hshapes Hmask)
    as (img_j & _ & Hws & Hsame).
  pose proof Hpos as (r & c & Hrc)%any_positive_pixel.
  destruct (pixel_nonzero_in _ _ _ r c Hws) as [Hr _]; [lia |].
  rewrite (Hsame ltac:(lia)) in Hws.
  destruct (bounding_box_total _ _ _ Hws Hpos) as ([[[r1 r2] c1] c2] & Hbb).
  destruct (bounding_box_tight _ _ _ _ _ _ _ Hws Hbb) as (Htight' & Hr2 & Hc2).
  pose proof (tight_bbox_unique _ _ _ Htight Htight') as Heq.
  injection Heq as -> -> -> ->.
  split; [exact Hbb |]. rewrite Hsize. cbn [fst snd].
  destruct (tight_bbox_touch _ _ _ _ _ Htight') as (Hord & _). lia.
Qed.

Lemma valid_boxes_are_pixel_positions_witness :
  bounding_box [[0; 1; 2]; [0; 1; 0]] = Ok (0, 1, 1, 2) /\
  boxes (Demo.target_in (build_target Demo.dataset 2 0%nat)) !! 1%nat
    = Some (1, 0, 2, 1).
Proof.
  assert (Hpre : build_target Demo.dataset 2 0%nat =
            (Ok (Demo.imgs_of (build_target Demo.dataset 2 0%nat),
                 Demo.target_in (build_target Demo.dataset 2 0%nat)), 0%nat))
    by (vm_compute; reflexivity).
  assert (Hmask : masks (Demo.target_in (build_target Demo.dataset 2 0%nat))
                    !! 1%nat = Some [[0; 1; 2]; [0; 1; 0]])
    by (vm_compute; reflexivity).
  assert (Hbox : boxes (Demo.target_in (build_target Demo.dataset 2 0%nat))
                   !! 1%nat = Some (1, 0, 2, 1))
    by (vm_compute; reflexivity).
  split; [| exact Hbox].
  exact (proj1 (valid_boxes_are_pixel_positions Demo.dataset 2 0%nat 0%nat
                  _ _ 1%nat [[0; 1; 2]; [0; 1; 0]] 1 0 2 1 Hpre Hmask
                  eq_refl Hbox)).
Defined.

(** X9. The frames of a built sample have one size: every image of positive
    height has the width and height of the last image of the clip, which is
    the size stored as [orig_size] and [size]; a clip whose frames differ in
    size is not built. *)
Theorem frames_share_one_size `{E : Env} (self : MeViSDataset)
    (idx : Z) (w0 w1 : World) (imgs : list Image) (tgt : target box array) :
  build_target self idx w0 = (Ok (imgs, tgt), w1) ->
  size tgt = orig_size tgt /\
  forall img, img ∈ imgs -> (0 < snd (im_size img))%nat ->
    orig_size tgt
    = (Z.of_nat (snd (im_size img)), Z.of_nat (fst (im_size img))).
Proof.
  intros Hb.
  destruct (build_target_shapes _ _ _ _ _ _ Hb)
    as (img_last & _ & Hsize & Hsame & Hshapes).
  split; [exact Hsame |]. intros img Himg Hpos.
  apply list_elem_of_lookup in Himg as (j & Hj).
  destruct (Forall2_lookup_l _ _ _ _ _ Hshapes Hj) as (mask & _ & _ & Heq).
  by rewrite Hsize, (Heq Hpos).
Qed.

Lemma frames_share_one_size_witness :
  orig_size (Demo.target_in (build_target Demo.dataset 2 0%nat)) = (2, 3).
Proof.
  assert (Hpre : build_target Demo.dataset 2 0%nat =
            (Ok (Demo.imgs_of (build_target Demo.dataset 2 0%nat),
                 Demo.target_in (build_target Demo.dataset 2 0%nat)), 0%nat))
    by (vm_compute; reflexivity).
  destruct (frames_share_one_size Demo.dataset 2 0%nat 0%nat _ _ Hpre)
    as [_ Hall].
  apply (Hall {| im_file := "data/JPEGImages/v1/f0.jpg";
                 im_size := (3%nat, 2%nat) |}).
  - apply list_elem_of_lookup. exists 0%nat. reflexivity.
  - simpl. lia.
Defined.

(** ** What a pass needs from the mask store *)

Section MaskStore.
Context `{E : Env}.

Lemma accumulate_mask_Ok_lookup (self : MeViSDataset) (ids : list string)
    (frame_indx : Z) (mask r : array) :
  accumulate_mask self ids frame_indx mask = Ok r ->
  forall x, x ∈ ids ->
    exists per_frame entry,
      mask_dict self !! x = Some per_frame /\
      py_index per_frame frame_indx = Ok entry.
Proof.
  revert mask. induction ids as [| y ids IH]; intros mask H x Hx;
    [by apply elem_of_nil in Hx |].
  rewrite accumulate_mask_cons in H.
  apply rbind_Ok in H as (mask' & Hstep & H).
  apply elem_of_cons in Hx as [-> | Hx]; [| by eapply IH].
  apply accumulate_step_Ok in Hstep as (pf & frm & Hpf & Hfrm & _).
  by exists pf, frm.
Qed.

Lemma accumulate_mask_missing (self : MeViSDataset) (x : string)
    (ids : list string) (frame_indx : Z) (mask : array) :
  mask_dict self !! x = None ->
  accumulate_mask self (x :: ids) frame_indx mask = Raise KeyError.
Proof.
  intros Hx. rewrite accumulate_mask_cons.
  unfold accumulate_step, py_getitem. by rewrite Hx.
Qed.

End MaskStore.

(** X10. A sample is built only for a task that the mask store covers:
    when a pass succeeds, every annotation id of the task is a key of the
    mask store, and each of the [num_frames] sampled frame indices is a
    position (from the front or from the back) both of the task's frame
    list and of the per-frame list of every annotation id. An annotation id
    that is not in the store raises [KeyError] when the fold reaches it;
    the constructor does not check the store against the manifest. *)
Theorem built_sample_is_covered_by_mask_store `{E : Env}
    (self : MeViSDataset) :
  (forall idx w0 w1 imgs tgt,
     build_target self idx w0 = (Ok (imgs, tgt), w1) ->
     exists meta,
       py_index (metas self) idx = Ok meta /\
       forall j frame_indx,
         (j < Z.to_nat (num_frames self))%nat ->
         frames_idx tgt !! j = Some frame_indx ->
         - len (m_frames meta) <= frame_indx < len (m_frames meta) /\
         forall x, x ∈ m_anno_id meta ->
           exists per_frame,
             mask_dict self !! x = Some per_frame /\
             - len per_frame <= frame_indx < len per_frame) /\
  (forall x ids frame_indx mask,
     mask_dict self !! x = None ->
     accumulate_mask self (x :: ids) frame_indx mask = Raise KeyError) /\
  (forall img_folder manifest transforms nf mask_json mask_json',
     match __init__ img_folder manifest transforms nf mask_json,
           __init__ img_folder manifest transforms nf mask_json' with
     | Ok ds, Ok ds' => metas ds = metas ds' /\ mask_dict ds = mask_json
     | Raise e, Raise e' => e = e'
     | _, _ => False
     end).
Proof.
  split; [| split].
  - intros idx w0 w1 imgs tgt
      (meta & si & outs & img & Hmeta & Houts & _ & _ & -> & ->)
      %build_target_frames.
    exists meta. split; [exact Hmeta |].
    intros j fi Hj Hfi. cbn [frames_idx target_of] in Hfi.
    assert (Hjz : py_range (num_frames self) !! j = Some (Z.of_nat j)).
    { unfold py_range.
      change (map Z.of_nat (seq 0 (Z.to_nat (num_frames self))))
        with (Z.of_nat <$> seq 0 (Z.to_nat (num_frames self))).
      apply list_lookup_fmap_Some. exists j. split; [reflexivity |].
      apply lookup_seq. lia. }
    destruct (Forall2_lookup_l _ _ _ _ _ Houts Hjz) as (out & _ & Hstep).
    apply frame_step_Ok in Hstep
      as (fi' & name & Hfi' & Hname & _ & Hacc & _).
    apply py_index_Ok in Hfi' as [[_ Hfi'] | [? _]]; [| lia].
    rewrite Nat2Z.id, Hfi in Hfi'. injection Hfi' as <-.
    split; [apply py_index_Ok in Hname; lia |].
    intros x Hx.
    destruct (accumulate_mask_Ok_lookup _ _ _ _ _ Hacc x Hx)
      as (pf & entry & Hpf & Hentry).
    exists pf. split; [exact Hpf |]. apply py_index_Ok in Hentry. lia.
  - intros. by apply accumulate_mask_missing.
  - intros img_folder manifest transforms nf mask_json mask_json'.
    unfold __init__.
    destruct (prepare_metas nf manifest) as [[vs ms] | e]; simpl; done.
Qed.

Lemma built_sample_is_covered_by_mask_store_witness :
  accumulate_mask Demo.dataset ["9"; "1"] 0 (zeros 2 3) = Raise KeyError /\
  (exists per_frame : list (option (@Rle Demo.env)),
     mask_dict Demo.dataset !! "2" = Some per_frame /\
     - len per_frame <= 1 < len per_frame).
Proof.
  destruct (built_sample_is_covered_by_mask_store Demo.dataset)
    as (Hcover & Hmissing & _).
  split; [apply Hmissing; reflexivity |].
  assert (Hpre : build_target Demo.dataset 2 0%nat =
            (Ok (Demo.imgs_of (build_target Demo.dataset 2 0%nat),
                 Demo.target_in (build_target Demo.dataset 2 0%nat)), 0%nat))
    by (vm_compute; reflexivity).
  destruct (Hcover 2 0%nat 0%nat _ _ Hpre) as (meta & Hmeta & Hframes).
  assert (meta = make_meta "v1" Demo.two_things
                   ["f0"; "f1"; "f2"; "f3"] 0) as ->.
  { vm_compute in Hmeta. by injection Hmeta as <-. }
  assert (Hj : (1 < Z.to_nat (num_frames Demo.dataset))%nat)
    by (change (num_frames Demo.dataset) with 2; lia).
  assert (Hfi : frames_idx (Demo.target_in (build_target Demo.dataset 2 0%nat))
                  !! 1%nat = Some 1) by (vm_compute; reflexivity).
  destruct (Hframes 1%nat 1 Hj Hfi) as [_ Hids].
  apply (Hids "2"). change ("2" ∈ ["1"; "2"]). repeat constructor.
Defined.

(** ** Shapes that [+=] accepts *)

Lemma stretched_same_shape (h w : nat) (d : array) (i j : nat) :
  well_shaped h w d -> (i < h)%nat -> (j < w)%nat ->
  stretched d i j = pixel d i j.
Proof.
  intros [Hh Hw] Hi Hj. unfold stretched, pixel. cbv zeta.
  assert (Hr : (if decide (length d = 1%nat) then 0%nat else i) = i).
  { destruct (decide (length d = 1%nat)); [lia | done]. }
  rewrite Hr.
  assert (Hrow : length (nth i d []) = w).
  { rewrite Forall_forall in Hw. apply Hw, list_elem_of_In, nth_In. lia. }
  destruct (decide (length (nth i d []) = 1%nat)); [| done].
  by replace j with 0%nat by lia.
Qed.

Lemma broadcasts_to_same_shape (h w : nat) (d : array) :
  well_shaped h w d -> broadcasts_to h w d = true.
Proof.
  intros [Hh Hw]. apply broadcasts_to_true. split; [by left |].
  eapply Forall_impl; [exact Hw |]. intros row Hrow. by left.
Qed.

(** X11. The loader adds a decoded mask to the accumulator of a frame
    without looking at its shape; what [+=] does with the shape decides.
    On an accumulator of [h > 0] rows of [w] entries, the decoded mask of a
    present entry is accepted exactly when it has [h] rows or one row, each
    of [w] entries or of one entry: it is then added entry by entry, a
    single row standing for every row and a single entry of a row for every
    column, which for a mask of the accumulator's shape is the entrywise
    sum. A decoded mask of any other shape, such as one row of a wrong
    width, raises [ValueError], and the fold over the annotation ids ends
    there with that error. *)
Theorem iadd_accepts_broadcastable_shapes `{E : Env} (self : MeViSDataset)
    (x : string) (per_frame : list (option Rle)) (frame_indx : Z)
    (rle : Rle) (h w : nat) (mask : array) :
  mask_dict self !! x = Some per_frame ->
  py_index per_frame frame_indx = Ok (Some rle) ->
  well_shaped h w mask -> (0 < h)%nat ->
  (broadcasts_to h w (coco_decode rle) = true ->
   exists r,
     accumulate_step self frame_indx mask x = Ok r /\
     well_shaped h w r /\
     forall i j, (i < h)%nat -> (j < w)%nat ->
       pixel r i j = pixel mask i j + stretched (coco_decode rle) i j) /\
  (broadcasts_to h w (coco_decode rle) = false ->
   forall ids, exists msg,
     accumulate_mask self (x :: ids) frame_indx mask
     = Raise (ValueError msg)) /\
  (well_shaped h w (coco_decode rle) ->
   broadcasts_to h w (coco_decode rle) = true /\
   forall i j, (i < h)%nat -> (j < w)%nat ->
     stretched (coco_decode rle) i j = pixel (coco_decode rle) i j).
Proof.
  intros Hx Hentry Hws Hh.
  pose proof (iadd_broadcasts h w mask (coco_decode rle) Hws Hh) as Hadd.
  rewrite <- (accumulate_step_present _ _ _ _ _ _ Hx Hentry) in Hadd.
  split; [| split].
  - intros Hbt. by rewrite Hbt in Hadd.
  - intros Hbt ids. rewrite Hbt in Hadd.
    rewrite accumulate_mask_cons, Hadd. simpl. eauto.
  - intros Hd. split; [by apply broadcasts_to_same_shape |].
    intros i j. by apply stretched_same_shape.
Qed.

Lemma iadd_accepts_broadcastable_shapes_witness :
  (exists r,
     accumulate_step Demo.dataset_shapes 0 [[0; 1; 1]; [0; 0; 0]] "row"
       = Ok r /\
     pixel r 0 0 = 1 /\ pixel r 0 2 = 2 /\ pixel r 1 0 = 1 /\
     pixel r 1 1 = 0) /\
  (exists r,
     accumulate_step Demo.dataset_shapes 0 [[0; 1; 1]; [0; 0; 0]] "dot"
       = Ok r /\
     pixel r 0 0 = 1 /\ pixel r 0 2 = 2 /\ pixel r 1 1 = 1) /\
  (exists msg,
     accumulate_mask Demo.dataset_shapes ["short"; "dot"] 0 (zeros 2 3)
     = Raise (ValueError msg)).
Proof.
  assert (Hws : well_shaped 2 3 [[0; 1; 1]; [0; 0; 0]]).
  { split; [reflexivity |]. repeat constructor. }
  split; [| split].
  - destruct (iadd_accepts_broadcastable_shapes Demo.dataset_shapes "row"
                [Some [[true; false; true]]] 0 [[true; false; true]]
                2%nat 3%nat [[0; 1; 1]; [0; 0; 0]] eq_refl eq_refl Hws)
      as (Hyes & _); [lia |].
    destruct (Hyes eq_refl) as (r & Hr & _ & Hpix).
    exists r. split; [exact Hr |].
    rewrite !Hpix by lia. repeat split.
  - destruct (iadd_accepts_broadcastable_shapes Demo.dataset_shapes "dot"
                [Some [[true]]] 0 [[true]]
                2%nat 3%nat [[0; 1; 1]; [0; 0; 0]] eq_refl eq_refl Hws)
      as (Hyes & _); [lia |].
    destruct (Hyes eq_refl) as (r & Hr & _ & Hpix).
    exists r. split; [exact Hr |].
    rewrite !Hpix by lia. repeat split.
  - destruct (iadd_accepts_broadcastable_shapes Demo.dataset_shapes "short"
                [Some [[true; false]]] 0 [[true; false]]
                2%nat 3%nat (zeros 2 3) eq_refl eq_refl
                (well_shaped_zeros 2 3)) as (_ & Hno & _); [lia |].
    exact (Hno eq_refl ["dot"%string]).
Defined.

(** ** [bounding_box] on its own *)

Lemma bounding_box_total_nonzero (h w : nat) (m : array) (r c : nat) :
  well_shaped h w m -> pixel m r c <> 0 -> exists b, bounding_box m = Ok b.
Proof.
  intros Hws Hnz.
  destruct (first_last_nonempty (np_where (any_axis1 m)) (Z.of_nat r))
    as (r1 & r2 & Hrows).
  { apply elem_of_np_where. split; [lia |]. rewrite Nat2Z.id.
    apply any_axis1_lookup. by exists c. }
  destruct (first_last_nonempty (np_where (any_axis0 m)) (Z.of_nat c))
    as (c1 & c2 & Hcols).
  { apply elem_of_np_where. split; [lia |]. rewrite Nat2Z.id.
    apply (any_axis0_lookup h w m _ Hws). by exists r. }
  exists (r1, r2, c1, c2). unfold bounding_box. rewrite Hrows. simpl.
  by rewrite Hcols.
Qed.

Lemma bounding_box_all_zero (m : array) :
  (forall r c, pixel m r c = 0) -> bounding_box m = Raise IndexError.
Proof.
  intros Hzero. unfold bounding_box.
  assert (Hrows : np_where (any_axis1 m) = []).
  { destruct (np_where (any_axis1 m)) as [| a rest] eqn:Hw; [reflexivity |].
    assert (Ha : a ∈ np_where (any_axis1 m)) by (rewrite Hw; by left).
    apply elem_of_np_where in Ha as [_ Ha].
    apply any_axis1_lookup in Ha as (c & Hc). by rewrite Hzero in Hc. }
  by rewrite Hrows.
Qed.

(** X12. On a rectangular array [bounding_box] raises [IndexError] exactly
    when the array has no non-zero entry (so the loader calls it only
    behind its test for a positive entry); on every other array it returns
    the tight box of the non-zero entries, as (y1, y2, x1, x2). *)
Theorem bounding_box_needs_nonzero_entry (h w : nat) (m : array) :
  well_shaped h w m ->
  (bounding_box m = Raise IndexError <-> forall r c, pixel m r c = 0) /\
  (forall r c, pixel m r c <> 0 ->
     exists y1 y2 x1 x2,
       bounding_box m = Ok (y1, y2, x1, x2) /\
       tight_bbox m (x1, y1, x2, y2)).
Proof.
  intros Hws.
  assert (Hsome : forall r c, pixel m r c <> 0 ->
            exists y1 y2 x1 x2,
              bounding_box m = Ok (y1, y2, x1, x2) /\
              tight_bbox m (x1, y1, x2, y2)).
  { intros r c Hnz.
    destruct (bounding_box_total_nonzero h w m r c Hws Hnz)
      as ([[[y1 y2] x1] x2] & Hbb).
    exists y1, y2, x1, x2. split; [exact Hbb |].
    by destruct (bounding_box_tight _ _ _ _ _ _ _ Hws Hbb). }
  split; [| exact Hsome]. split.
  - intros Hraise r c. destruct (decide (pixel m r c = 0)) as [| Hnz]; [done |].
    destruct (Hsome r c Hnz) as (? & ? & ? & ? & Hbb & _). congruence.
  - apply bounding_box_all_zero.
Qed.

Lemma bounding_box_needs_nonzero_entry_witness :
  bounding_box (zeros 2 3) = Raise IndexError /\
  (exists y1 y2 x1 x2,
     bounding_box [[0; 0; 0]; [0; -4; 0]] = Ok (y1, y2, x1, x2) /\
     tight_bbox [[0; 0; 0]; [0; -4; 0]] (x1, y1, x2, y2)).
Proof.
  split.
  - apply (proj1 (bounding_box_needs_nonzero_entry 2 3 (zeros 2 3)
                    (well_shaped_zeros 2 3))).
    intros r c. apply pixel_zeros.
  - assert (Hws : well_shaped 2 3 [[0; 0; 0]; [0; -4; 0]]).
    { split; [reflexivity | repeat constructor]. }
    apply (proj2 (bounding_box_needs_nonzero_entry 2 3 _ Hws) 1%nat 1%nat).
    discriminate.
Defined.

(** ** From a box to its mask and back *)

Lemma well_shaped_rect_mask (h w : nat) (y1 y2 x1 x2 : Z) :
  well_shaped h w (rect_mask h w y1 y2 x1 x2).
Proof.
  unfold well_shaped, rect_mask. rewrite length_map, length_seq.
  split; [reflexivity |]. apply Forall_forall. intros row Hrow.
  apply list_elem_of_In, in_map_iff in Hrow as (r & <- & _).
  by rewrite length_map, length_seq.
Qed.

Lemma pixel_rect_mask (h w : nat) (y1 y2 x1 x2 : Z) (r c : nat) :
  (r < h)%nat -> (c < w)%nat ->
  pixel (rect_mask h w y1 y2 x1 x2) r c =
  if bool_decide (y1 <= Z.of_nat r <= y2 /\ x1 <= Z.of_nat c <= x2)
  then 1 else 0.
Proof.
  intros Hr Hc. unfold pixel, rect_mask.
  set (row_of := fun r : nat =>
         map (fun c : nat =>
                if bool_decide (y1 <= Z.of_nat r <= y2 /\
                                x1 <= Z.of_nat c <= x2)
                then 1 else 0) (seq 0 w)).
  change (map row_of (seq 0 h)) with (row_of <$> seq 0 h).
  assert (Hrow : (row_of <$> seq 0 h) !! r = Some (row_of r)).
  { apply list_lookup_fmap_Some. exists r. split; [reflexivity |].
    apply lookup_seq. lia. }
  rewrite (nth_lookup_Some _ _ _ _ Hrow). unfold row_of.
  set (f := fun c : nat =>
         if bool_decide (y1 <= Z.of_nat r <= y2 /\ x1 <= Z.of_nat c <= x2)
         then 1 else 0).
  change (map f (seq 0 w)) with (f <$> seq 0 w).
  assert (Hcol : (f <$> seq 0 w) !! c = Some (f c)).
  { apply list_lookup_fmap_Some. exists c. split; [reflexivity |].
    apply lookup_seq. lia. }
  by rewrite (nth_lookup_Some _ _ _ _ Hcol).
Qed.

Lemma tight_bbox_rect_mask (h w : nat) (y1 y2 x1 x2 : Z) :
  0 <= y1 <= y2 -> y2 < Z.of_nat h ->
  0 <= x1 <= x2 -> x2 < Z.of_nat w ->
  tight_bbox (rect_mask h w y1 y2 x1 x2) (x1, y1, x2, y2).
Proof.
  intros Hy Hyh Hx Hxw.
  assert (Hcorner : forall y x, y1 <= y <= y2 -> x1 <= x <= x2 ->
            pixel (rect_mask h w y1 y2 x1 x2) (Z.to_nat y) (Z.to_nat x) <> 0).
  { intros y x Hyy Hxx. rewrite pixel_rect_mask by lia.
    rewrite !Z2Nat.id by lia. rewrite bool_decide_true by lia. discriminate. }
  unfold tight_bbox. split; [lia |]. split; [lia |].
  split; [| repeat split].
  - intros r c Hnz.
    destruct (pixel_nonzero_in _ _ _ r c (well_shaped_rect_mask _ _ _ _ _ _)
                Hnz) as [Hr Hc].
    rewrite pixel_rect_mask in Hnz by assumption.
    destruct (bool_decide_reflect
                (y1 <= Z.of_nat r <= y2 /\ x1 <= Z.of_nat c <= x2));
      [done | contradiction].
  - exists (Z.to_nat x1). apply Hcorner; lia.
  - exists (Z.to_nat x1). apply Hcorner; lia.
  - exists (Z.to_nat y1). apply Hcorner; lia.
  - exists (Z.to_nat y1). apply Hcorner; lia.
Qed.

(** X13. Bounding boxes are a left inverse of filling a rectangle: on the
    mask that is 1 exactly on the rows [y1 .. y2] and the columns
    [x1 .. x2] of an [h] x [w] image, [bounding_box] returns
    (y1, y2, x1, x2), and the loader's box for that mask is
    (x1, y1, x2, y2) with the flag 1. More generally a mask has at most one
    tight box. *)
Theorem bounding_box_of_filled_rectangle (h w : nat) (y1 y2 x1 x2 : Z) :
  0 <= y1 <= y2 -> y2 < Z.of_nat h ->
  0 <= x1 <= x2 -> x2 < Z.of_nat w ->
  bounding_box (rect_mask h w y1 y2 x1 x2) = Ok (y1, y2, x1, x2) /\
  box_and_valid (rect_mask h w y1 y2 x1 x2) = Ok ((x1, y1, x2, y2), 1) /\
  (forall m b b', tight_bbox m b -> tight_bbox m b' -> b = b').
Proof.
  intros Hy Hyh Hx Hxw.
  pose proof (well_shaped_rect_mask h w y1 y2 x1 x2) as Hws.
  pose proof (tight_bbox_rect_mask h w y1 y2 x1 x2 Hy Hyh Hx Hxw) as Htight.
  assert (Hone : pixel (rect_mask h w y1 y2 x1 x2) (Z.to_nat y1) (Z.to_nat x1)
                 = 1).
  { rewrite pixel_rect_mask by lia. rewrite !Z2Nat.id by lia.
    rewrite bool_decide_true by lia. reflexivity. }
  assert (Hbb : bounding_box (rect_mask h w y1 y2 x1 x2)
                = Ok (y1, y2, x1, x2)).
  { destruct (bounding_box_total_nonzero h w _ (Z.to_nat y1) (Z.to_nat x1) Hws)
      as ([[[r1 r2] c1] c2] & Hbb); [rewrite Hone; discriminate |].
    destruct (bounding_box_tight _ _ _ _ _ _ _ Hws Hbb) as (Htight' & _).
    pose proof (tight_bbox_unique _ _ _ Htight Htight') as Heq.
    injection Heq as -> -> -> ->. exact Hbb. }
  split; [exact Hbb |]. split; [| exact tight_bbox_unique].
  unfold box_and_valid.
  assert (Hpos : any_positive (rect_mask h w y1 y2 x1 x2) = true).
  { apply any_positive_pixel. exists (Z.to_nat y1), (Z.to_nat x1).
    rewrite Hone. lia. }
  by rewrite Hpos, Hbb.
Qed.

Lemma bounding_box_of_filled_rectangle_witness :
  rect_mask 3 4 1 2 1 3 = [[0; 0; 0; 0]; [0; 1; 1; 1]; [0; 1; 1; 1]] /\
  bounding_box [[0; 0; 0; 0]; [0; 1; 1; 1]; [0; 1; 1; 1]] = Ok (1, 2, 1, 3).
Proof.
  assert (Hmask : rect_mask 3 4 1 2 1 3
                  = [[0; 0; 0; 0]; [0; 1; 1; 1]; [0; 1; 1; 1]])
    by reflexivity.
  split; [exact Hmask |]. rewrite <- Hmask.
  apply (bounding_box_of_filled_rectangle 3 4 1 2 1 3); simpl; lia.
Defined.

(** ** Captions *)

Lemma lower_ascii_idem (c : ascii) :
  lower_ascii (lower_ascii c) = lower_ascii c.
Proof. destruct c as [[] [] [] [] [] [] [] []]; vm_compute; reflexivity. Qed.

Lemma is_space_lower_ascii (c : ascii) :
  is_space (lower_ascii c) = is_space c.
Proof. destruct c as [[] [] [] [] [] [] [] []]; vm_compute; reflexivity. Qed.

Lemma list_ascii_of_string_app (s1 s2 : string) :
  list_ascii_of_string (s1 ++ s2)%string
  = list_ascii_of_string s1 ++ list_ascii_of_string s2.
Proof. induction s1 as [| c s1 IH]; simpl; [reflexivity | by rewrite IH]. Qed.

Lemma list_ascii_of_concat (ws : list (list ascii)) :
  list_ascii_of_string (String.concat " " (map string_of_list_ascii ws))
  = join_words ws.
Proof.
  induction ws as [| w rest IH]; [reflexivity |].
  destruct rest as [| w' rest].
  - simpl. apply list_ascii_of_string_of_list_ascii.
  - change (String.concat " " (map string_of_list_ascii (w :: w' :: rest)))
      with (string_of_list_ascii w ++ " " ++
            String.concat " " (map string_of_list_ascii (w' :: rest)))%string.
    rewrite !list_ascii_of_string_app, IH, list_ascii_of_string_of_list_ascii.
    reflexivity.
Qed.

Lemma split_ws_Forall (P : ascii -> Prop) (cur s : list ascii) :
  Forall P cur -> Forall P s -> Forall (Forall P) (split_ws cur s).
Proof.
  revert cur. induction s as [| c s IH]; intros cur Hcur Hs; simpl.
  - destruct cur; [constructor |]. constructor; [| constructor].
    by apply Forall_rev.
  - apply Forall_cons in Hs as [Hc Hs]. destruct (is_space c).
    + destruct cur; [by apply IH |].
      constructor; [by apply Forall_rev | by apply IH].
    + apply IH; [by constructor | done].
Qed.

Lemma split_ws_nonspace (cur s : list ascii) :
  Forall (fun c => is_space c = false) cur ->
  Forall (fun w => w <> [] /\ Forall (fun c => is_space c = false) w)
    (split_ws cur s).
Proof.
  revert cur. induction s as [| c s IH]; intros cur Hcur; simpl.
  - destruct cur as [| c0 cur]; [constructor |].
    constructor; [| constructor]. split; [| by apply Forall_rev].
    intros Hrev. apply (f_equal length) in Hrev.
    rewrite length_rev in Hrev. discriminate.
  - destruct (is_space c) eqn:Hc.
    + destruct cur as [| c0 cur]; [by apply IH |].
      constructor; [| by apply IH]. split; [| by apply Forall_rev].
      intros Hrev. apply (f_equal length) in Hrev.
      rewrite length_rev in Hrev. discriminate.
    + apply IH. by constructor.
Qed.

Lemma split_ws_app_word (w cur rest : list ascii) :
  Forall (fun c => is_space c = false) w ->
  split_ws cur (w ++ rest) = split_ws (rev w ++ cur) rest.
Proof.
  revert cur. induction w as [| c w IH]; intros cur Hw; [reflexivity |].
  apply Forall_cons in Hw as [Hc Hw]. simpl. rewrite Hc, (IH _ Hw).
  by rewrite <- app_assoc.
Qed.

Lemma split_ws_join_words (ws : list (list ascii)) :
  Forall (fun w => w <> [] /\ Forall (fun c => is_space c = false) w) ws ->
  split_ws [] (join_words ws) = ws.
Proof.
  induction 1 as [| w rest [Hne Hw] Hrest IH]; [reflexivity |].
  assert (Hrev : exists c cs, rev w = c :: cs).
  { destruct (rev w) as [| c cs] eqn:Hr; [| eauto].
    apply (f_equal length) in Hr. rewrite length_rev in Hr.
    destruct w; [done | discriminate]. }
  destruct Hrev as (c & cs & Hrev).
  destruct rest as [| w' rest].
  - simpl. rewrite <- (app_nil_r w) at 1.
    rewrite (split_ws_app_word _ _ _ Hw), app_nil_r, Hrev.
    change (split_ws (c :: cs) []) with [rev (c :: cs)].
    by rewrite <- Hrev, rev_involutive.
  - change (join_words (w :: w' :: rest))
      with (w ++ " "%char :: join_words (w' :: rest)).
    rewrite (split_ws_app_word _ _ _ Hw), app_nil_r, Hrev.
    change (split_ws (c :: cs) (" "%char :: join_words (w' :: rest)))
      with (rev (c :: cs) :: split_ws [] (join_words (w' :: rest))).
    by rewrite IH, <- Hrev, rev_involutive.
Qed.

Lemma clean_caption_words (exp : string) :
  Forall clean_word
    (split_ws [] (map lower_ascii (list_ascii_of_string exp))).
Proof.
  pose proof (split_ws_nonspace []
                (map lower_ascii (list_ascii_of_string exp))
                (Forall_nil_2 _)) as Hns.
  pose proof (split_ws_Forall (fun c => lower_ascii c = c) []
                (map lower_ascii (list_ascii_of_string exp))
                (Forall_nil_2 _)) as Hlow.
  assert (Hin : Forall (fun c => lower_ascii c = c)
                  (map lower_ascii (list_ascii_of_string exp))).
  { apply Forall_forall. intros c Hc.
    apply list_elem_of_In, in_map_iff in Hc as (c0 & <- & _).
    apply lower_ascii_idem. }
  specialize (Hlow Hin).
  rewrite Forall_lookup in Hns, Hlow. apply Forall_lookup. intros i w Hi.
  destruct (Hns _ _ Hi) as [Hne Hsp]. specialize (Hlow _ _ Hi).
  split; [exact Hne |].
  rewrite Forall_lookup in Hsp, Hlow. apply Forall_lookup. intros j c Hj.
  split; [exact (Hsp _ _ Hj) | exact (Hlow _ _ Hj)].
Qed.

Lemma join_words_lower (ws : list (list ascii)) :
  Forall clean_word ws -> map lower_ascii (join_words ws) = join_words ws.
Proof.
  assert (Hword : forall w, clean_word w -> map lower_ascii w = w).
  { intros w [_ Hw]. induction Hw as [| c w [_ Hc] _ IH]; [reflexivity |].
    simpl. by rewrite Hc, IH. }
  induction 1 as [| w rest Hw Hrest IH]; [reflexivity |].
  destruct rest as [| w' rest]; [by apply Hword |].
  change (join_words (w :: w' :: rest))
    with (w ++ " "%char :: join_words (w' :: rest)).
  rewrite map_app. cbn [map]. rewrite IH, (Hword _ Hw). reflexivity.
Qed.

Lemma lower_ascii_isascii (c : ascii) :
  (nat_of_ascii c <? 128)%nat = true ->
  (nat_of_ascii (lower_ascii c) <? 128)%nat = true.
Proof.
  destruct c as [[] [] [] [] [] [] [] []]; vm_compute; trivial.
Qed.

Lemma isascii_Forall (s : string) :
  isascii s = true <->
  Forall (fun c => (nat_of_ascii c <? 128)%nat = true)
    (list_ascii_of_string s).
Proof.
  unfold isascii. rewrite forallb_forall, Forall_forall.
  split; intros H c Hc; apply H; by apply list_elem_of_In.
Qed.

Lemma join_words_Forall (P : ascii -> Prop) (ws : list (list ascii)) :
  P " "%char -> Forall (Forall P) ws -> Forall P (join_words ws).
Proof.
  intros Hsp. induction 1 as [| w rest Hw Hrest IH]; [constructor |].
  destruct rest as [| w' rest]; [exact Hw |].
  change (join_words (w :: w' :: rest))
    with (w ++ " "%char :: join_words (w' :: rest)).
  apply Forall_app. split; [exact Hw |]. by constructor.
Qed.

(** X14. On an ASCII caption, cleaning gives an ASCII caption, is
    idempotent, and leaves a caption in normal form: its characters are
    words joined by single spaces, each word non-empty, free of whitespace
    and free of upper-case letters. *)
Theorem clean_caption_normal_form (exp : string) :
  isascii exp = true ->
  isascii (clean_caption exp) = true /\
  clean_caption (clean_caption exp) = clean_caption exp /\
  exists ws,
    Forall clean_word ws /\
    list_ascii_of_string (clean_caption exp) = join_words ws.
Proof.
  intros Hascii.
  pose proof (clean_caption_words exp) as Hws.
  pose proof (split_ws_Forall
                (fun c => (nat_of_ascii c <? 128)%nat = true) []
                (map lower_ascii (list_ascii_of_string exp))
                (Forall_nil_2 _)) as Hsmall.
  set (ws := split_ws [] (map lower_ascii (list_ascii_of_string exp))) in *.
  assert (Hchars : list_ascii_of_string (clean_caption exp) = join_words ws)
    by apply list_ascii_of_concat.
  split; [| split; [| by exists ws]].
  - apply isascii_Forall. rewrite Hchars.
    apply join_words_Forall; [reflexivity |]. apply Hsmall.
    apply Forall_fmap. apply isascii_Forall in Hascii.
    eapply Forall_impl; [exact Hascii |]. intros c Hc.
    by apply lower_ascii_isascii.
  - unfold clean_caption at 1. rewrite Hchars, (join_words_lower _ Hws).
    rewrite split_ws_join_words; [reflexivity |].
    eapply Forall_impl; [exact Hws |]. intros w [Hne Hw].
    split; [exact Hne |].
    eapply Forall_impl; [exact Hw |]. by intros c [Hc _].
Qed.

Lemma clean_caption_normal_form_witness :
  isascii "  A  Person walks AWAY " = true /\
  clean_caption "  A  Person walks AWAY " = "a person walks away"%string /\
  clean_caption "a person walks away" = "a person walks away"%string /\
  isascii "a person walks away" = true.
Proof.
  assert (Hascii : isascii "  A  Person walks AWAY " = true) by reflexivity.
  assert (Hclean : clean_caption "  A  Person walks AWAY "
                   = "a person walks away"%string) by reflexivity.
  destruct (clean_caption_normal_form "  A  Person walks AWAY " Hascii)
    as (Hout & Hidem & _).
  split; [exact Hascii |]. split; [exact Hclean |].
  rewrite <- Hclean. split; [exact Hidem | exact Hout].
Defined.

(** ** Building the dataset from a folder *)

Section BuildFacts.
Context `{F : Files}.

Lemma PATHS_lookup (root : Path) (split image_set : string) :
  PATHS root split !! image_set =
  if decide ("train" = image_set)
  then Some (path_div root "train",
             path_div (path_div root "train") "meta_expressions.json")
  else if decide ("valid_u" = image_set)
  then Some (path_div_path root (path_of split),
             path_div (path_div_path root (path_of split))
               "meta_expressions.json")
  else None.
Proof.
  change (PATHS root split) with
    (<["train" :=
         (path_div root "train",
          path_div (path_div root "train") "meta_expressions.json")]>
       (<["valid_u" :=
            (path_div_path root (path_of split),
             path_div (path_div_path root (path_of split))
               "meta_expressions.json")]>
          (∅ : gmap string (Path * Path)))).
  rewrite !lookup_insert, lookup_empty. reflexivity.
Qed.

Lemma new_MeViSDataset_Ok (folder ann_file : Path)
    (transforms :
       list Image -> target box array -> M (list TImg * target TBox TMask))
    (nf : Z) (ds : MeViSDataset) :
  new_MeViSDataset folder ann_file transforms nf = Ok ds <->
  exists manifest vs ms mask_json,
    load_videos (path_str ann_file) = Ok manifest /\
    prepare_metas nf manifest = Ok (vs, ms) /\
    load_mask_dict (path_str folder +:+ "/mask_dict.json")%string
      = Ok mask_json /\
    ds = {| img_folder := path_str folder; _transforms := transforms;
            num_frames := nf; videos := vs; metas := ms;
            mask_dict := mask_json |}.
Proof.
  unfold new_MeViSDataset. split.
  - intros H.
    apply rbind_Ok in H as (manifest & Hman & H).
    apply rbind_Ok in H as ([vs ms] & Hprep & H).
    apply rbind_Ok in H as (mask & Hmask & H).
    injection H as <-. by exists manifest, vs, ms, mask.
  - intros (manifest & vs & ms & mask & Hman & Hprep & Hmask & ->).
    rewrite Hman. simpl. rewrite Hprep. simpl. rewrite Hmask. reflexivity.
Qed.

(** The folder that [PATHS] gives for an image set. *)
Lemma build_with_folder (image_set : string) (args : Args Resize)
    (folder : Path) :
  path_exists (path_of (a_mevis_path args)) = true ->
  image_set = "train" /\
    folder = path_div (path_of (a_mevis_path args)) "train" \/
  image_set = "valid_u" /\
    folder = path_div_path (path_of (a_mevis_path args))
               (path_of (a_split args)) ->
  build image_set args =
  match make_coco_transforms image_set (a_max_size args)
          (a_augm_resize args) with
  | Raise e => Raised e
  | Ok transforms =>
      match new_MeViSDataset folder
              (path_div folder "meta_expressions.json") transforms
              (a_num_frames args) with
      | Raise e => Raised e
      | Ok dataset => Returned dataset
      end
  end.
Proof.
  intros Hroot Hset. unfold build, py_getitem.
  rewrite Hroot, PATHS_lookup.
  destruct Hset as [[-> ->] | [-> ->]]; reflexivity.
Qed.

End BuildFacts.

(** X15. [build] returns a dataset only for an existing root and the image
    sets [train] and [valid_u]: a missing root fails the assertion whatever
    the image set is, with the root as [pathlib] prints it in the message,
    and on an existing root any other image set raises [KeyError]. A
    returned dataset reads the folder [root / "train"] for [train] and the
    folder [root / Path(args.split)] for [valid_u]: its manifest is
    [meta_expressions.json] in that folder and its mask store the file
    named by the folder's string followed by [/mask_dict.json], its clip
    length is [args.num_frames], its augmentation is the one made for the
    image set, and its videos and catalog are what metadata preparation
    gives on the manifest. Conversely, when the root exists, the
    augmentation is made, the two files load and metadata preparation
    succeeds, [build] returns that dataset. *)
Theorem build_reads_the_split_folder `{F : Files} (image_set : string)
    (args : Args Resize) :
  let root := path_of (a_mevis_path args) in
  (path_exists root = false ->
   build image_set args =
   AssertionError
     ("provided mevis path " +:+ path_str root +:+ " does not exist")%string)
  /\
  (path_exists root = true ->
   image_set <> "train" -> image_set <> "valid_u" ->
   build image_set args = Raised KeyError) /\
  (forall ds, build image_set args = Returned ds ->
     path_exists root = true /\
     exists folder,
       (image_set = "train" /\ folder = path_div root "train" \/
        image_set = "valid_u" /\
        folder = path_div_path root (path_of (a_split args))) /\
       img_folder ds = path_str folder /\
       num_frames ds = a_num_frames args /\
       make_coco_transforms image_set (a_max_size args) (a_augm_resize args)
         = Ok (_transforms ds) /\
       load_mask_dict (path_str folder +:+ "/mask_dict.json")%string
         = Ok (mask_dict ds) /\
       exists manifest,
         load_videos (path_str (path_div folder "meta_expressions.json"))
           = Ok manifest /\
         prepare_metas (num_frames ds) manifest = Ok (videos ds, metas ds)) /\
  (forall folder transforms manifest vs ms mask_json,
     path_exists root = true ->
     image_set = "train" /\ folder = path_div root "train" \/
     image_set = "valid_u" /\
     folder = path_div_path root (path_of (a_split args)) ->
     make_coco_transforms image_set (a_max_size args) (a_augm_resize args)
       = Ok transforms ->
     load_videos (path_str (path_div folder "meta_expressions.json"))
       = Ok manifest ->
     prepare_metas (a_num_frames args) manifest = Ok (vs, ms) ->
     load_mask_dict (path_str folder +:+ "/mask_dict.json")%string
       = Ok mask_json ->
     build image_set args =
     Returned {| img_folder := path_str folder; _transforms := transforms;
                 num_frames := a_num_frames args; videos := vs; metas := ms;
                 mask_dict := mask_json |}).
Proof.
  cbv zeta. split; [| split; [| split]].
  - intros Hroot. unfold build. by rewrite Hroot.
  - intros Hroot Htrain Hvalid. unfold build, py_getitem.
    rewrite Hroot, PATHS_lookup.
    rewrite decide_False by congruence. by rewrite decide_False by congruence.
  - intros ds H.
    destruct (path_exists (path_of (a_mevis_path args))) eqn:Hroot.
    2: { unfold build in H. rewrite Hroot in H. discriminate. }
    split; [reflexivity |].
    assert (Hset : exists folder,
              image_set = "train" /\
                folder = path_div (path_of (a_mevis_path args)) "train" \/
              image_set = "valid_u" /\
                folder = path_div_path (path_of (a_mevis_path args))
                           (path_of (a_split args))).
    { destruct (decide ("train" = image_set)) as [<- | Htrain];
        [eexists; left; done |].
      destruct (decide ("valid_u" = image_set)) as [<- | Hvalid];
        [eexists; right; done |].
      exfalso. unfold build, py_getitem in H.
      rewrite Hroot, PATHS_lookup in H.
      rewrite decide_False in H by done.
      rewrite decide_False in H by done. discriminate. }
    destruct Hset as [folder Hset]. exists folder. split; [exact Hset |].
    rewrite (build_with_folder image_set args folder Hroot Hset) in H.
    destruct (make_coco_transforms _ _ _) as [tr |]; [| discriminate].
    destruct (new_MeViSDataset _ _ _ _) as [ds' |] eqn:Hnew;
      [| discriminate].
    injection H as ->.
    apply new_MeViSDataset_Ok in Hnew
      as (manifest & vs & ms & mask & Hman & Hprep & Hmask & ->).
    simpl. repeat split; try done. by exists manifest.
  - intros folder tr manifest vs ms mask Hroot Hset Htr Hman Hprep Hmask.
    rewrite (build_with_folder image_set args folder Hroot Hset), Htr.
    assert (Hnew : new_MeViSDataset folder
                     (path_div folder "meta_expressions.json") tr
                     (a_num_frames args)
                   = Ok {| img_folder := path_str folder; _transforms := tr;
                           num_frames := a_num_frames args; videos := vs;
                           metas := ms; mask_dict := mask |}).
    { apply new_MeViSDataset_Ok. by exists manifest, vs, ms, mask. }
    by rewrite Hnew.
Qed.

Lemma build_reads_the_split_folder_witness :
  @build Demo.env DemoFiles.files "train" DemoFiles.args
  = Returned {| img_folder := "data/train";
                _transforms := Demo.identity_transforms;
                num_frames := 2;
                videos := ["v1"];
                metas := metas Demo.dataset;
                mask_dict := Demo.mask_json |} /\
  @build Demo.env DemoFiles.files "test" DemoFiles.args = Raised KeyError /\
  @build Demo.env DemoFiles.files "train" DemoFiles.lost_args
  = AssertionError "provided mevis path nowhere does not exist".
Proof.
  destruct (@build_reads_the_split_folder Demo.env DemoFiles.files "train"
              DemoFiles.args) as (_ & _ & _ & Hret).
  destruct (@build_reads_the_split_folder Demo.env DemoFiles.files "test"
              DemoFiles.args) as (_ & Hkey & _).
  destruct (@build_reads_the_split_folder Demo.env DemoFiles.files "train"
              DemoFiles.lost_args) as (Hlost & _).
  split; [| split].
  - apply (Hret "data/train"%string Demo.identity_transforms Demo.manifest);
      [reflexivity | by left | reflexivity | reflexivity | reflexivity
      | reflexivity].
  - apply Hkey; [reflexivity | discriminate | discriminate].
  - apply Hlost. reflexivity.
Defined.
